(** * Guppy Zuchtbuch (Option B): the document store and its helpers

    A shallow embedding of [src/GuppyZuchtbuchOptionB.tsx]: the helpers
    [parseNumOrNull] and [inRange], the typed document [AppState], the
    mutation layer of the main component ([upsertTank], [removeTank], ...),
    the dashboard aggregates, the water-entry form and [loadState]; then
    the date helpers ([toISODate], [formatShort]), [clamp], the save buttons
    of the editors and forms, the selection of the tabs, the journal of the
    selected attempt, the series of the water chart and what is stored.

    JavaScript strings are sequences of UTF-16 code units, numbers are IEEE 754
    binary64 values ([spec_float], the axiom-free specification of floats of
    the standard library).  Built-ins whose algorithm is not part of the
    source ([Number] on strings, [JSON.parse], [Array.prototype.sort],
    [uid]) are parameters of the definitions that call them. *)

From Stdlib Require Import ZArith NArith List Bool Lia String Ascii.
From Stdlib Require Import Permutation Sorted SpecFloat.
Import ListNotations.

Set Implicit Arguments.

(* ===================================================================== *)
(** ** JavaScript strings *)

Module JsString.

(** A string is the list of its UTF-16 code units. *)
Definition jsstring := list N.

(** An ASCII literal, unit by unit. *)
Definition lit (s : string) : jsstring :=
  map N_of_ascii (list_ascii_of_string s).

(** [a === b] on strings. *)
Fixpoint str_eqb (a b : jsstring) : bool :=
  match a, b with
  | [], [] => true
  | x :: a', y :: b' => (x =? y)%N && str_eqb a' b'
  | _, _ => false
  end.

(** [a < b] on strings: lexicographic on code units, a proper prefix first. *)
Fixpoint str_ltb (a b : jsstring) : bool :=
  match a, b with
  | _, [] => false
  | [], _ :: _ => true
  | x :: a', y :: b' =>
      if (x <? y)%N then true
      else if (x =? y)%N then str_ltb a' b'
      else false
  end.

(** WhiteSpace and LineTerminator code units, the ones [trim] strips. *)
Definition is_ws (c : N) : bool :=
  ((9 <=? c) && (c <=? 13)
   || (c =? 32) || (c =? 160) || (c =? 5760)
   || (8192 <=? c) && (c <=? 8202)
   || (c =? 8232) || (c =? 8233) || (c =? 8239) || (c =? 8287)
   || (c =? 12288) || (c =? 65279))%N.

Fixpoint trimStart (s : jsstring) : jsstring :=
  match s with
  | [] => []
  | c :: s' => if is_ws c then trimStart s' else s
  end.

Definition trimEnd (s : jsstring) : jsstring := rev (trimStart (rev s)).

Definition trim (s : jsstring) : jsstring := trimEnd (trimStart s).

Fixpoint is_prefix (p s : jsstring) : bool :=
  match p, s with
  | [], _ => true
  | x :: p', y :: s' => (x =? y)%N && is_prefix p' s'
  | _ :: _, [] => false
  end.

(** [s.replace(pat, rep)] with a string pattern: the first occurrence only
    (the replacements used by the source contain no [$]). *)
Fixpoint replace (pat rep s : jsstring) : jsstring :=
  if is_prefix pat s then rep ++ skipn (List.length pat) s
  else match s with
       | [] => []
       | c :: s' => c :: replace pat rep s'
       end.

(** [x || ""] on a possibly missing string. *)
Definition or_empty (x : option jsstring) : jsstring :=
  match x with
  | Some s => s
  | None => []
  end.

Definition is_digit (c : N) : bool := ((48 <=? c) && (c <=? 57))%N.

End JsString.
Export JsString.

(* ===================================================================== *)
(** ** Numbers *)

(** A JavaScript number: zeros, infinities, NaN and finite binary64 values. *)
Definition number := spec_float.

(** [Number.isFinite(n)] on a number. *)
Definition isFinite (n : number) : bool :=
  match n with
  | S754_zero _ | S754_finite _ _ _ => true
  | S754_infinity _ | S754_nan => false
  end.

(** [a < b] and [a > b]: false as soon as one side is NaN. *)
Definition num_lt (a b : number) : bool := SFltb a b.
Definition num_gt (a b : number) : bool := SFltb b a.

(** An integer or a quotient of integers as the nearest binary64 value. *)
Definition num_of_Z (z : Z) : number := binary_normalize 53 1024 z 0 false.
Definition num_ratio (p q : Z) : number :=
  SFdiv 53 1024 (num_of_Z p) (num_of_Z q).

(* ===================================================================== *)
(** ** Wasserwerte: parameter catalog, parsing and range check *)

Inductive ParamKey := temp | ph | gh | kh | no2 | no3 | tds | cond.

Definition ALL_PARAM_KEYS : list ParamKey :=
  [temp; ph; gh; kh; no2; no3; tds; cond].

Definition ParamKey_eqb (a b : ParamKey) : bool :=
  match a, b with
  | temp, temp | ph, ph | gh, gh | kh, kh
  | no2, no2 | no3, no3 | tds, tds | cond, cond => true
  | _, _ => false
  end.

(** The key as it is spelled in [PARAM_DEFS] and in stored documents. *)
Definition key_name (k : ParamKey) : string :=
  match k with
  | temp => "temp" | ph => "ph" | gh => "gh" | kh => "kh"
  | no2 => "no2" | no3 => "no3" | tds => "tds" | cond => "cond"
  end.

(** [Record<ParamKey, A>]: one slot per parameter key. *)
Record PerParam (A : Type) := mkPerParam {
  at_temp : A; at_ph : A; at_gh : A; at_kh : A;
  at_no2 : A; at_no3 : A; at_tds : A; at_cond : A
}.

Definition get_param {A} (r : PerParam A) (k : ParamKey) : A :=
  match k with
  | temp => at_temp r | ph => at_ph r | gh => at_gh r | kh => at_kh r
  | no2 => at_no2 r | no3 => at_no3 r | tds => at_tds r | cond => at_cond r
  end.

Definition set_param {A} (r : PerParam A) (k : ParamKey) (v : A) : PerParam A :=
  match k with
  | temp => mkPerParam v (at_ph r) (at_gh r) (at_kh r) (at_no2 r) (at_no3 r) (at_tds r) (at_cond r)
  | ph => mkPerParam (at_temp r) v (at_gh r) (at_kh r) (at_no2 r) (at_no3 r) (at_tds r) (at_cond r)
  | gh => mkPerParam (at_temp r) (at_ph r) v (at_kh r) (at_no2 r) (at_no3 r) (at_tds r) (at_cond r)
  | kh => mkPerParam (at_temp r) (at_ph r) (at_gh r) v (at_no2 r) (at_no3 r) (at_tds r) (at_cond r)
  | no2 => mkPerParam (at_temp r) (at_ph r) (at_gh r) (at_kh r) v (at_no3 r) (at_tds r) (at_cond r)
  | no3 => mkPerParam (at_temp r) (at_ph r) (at_gh r) (at_kh r) (at_no2 r) v (at_tds r) (at_cond r)
  | tds => mkPerParam (at_temp r) (at_ph r) (at_gh r) (at_kh r) (at_no2 r) (at_no3 r) v (at_cond r)
  | cond => mkPerParam (at_temp r) (at_ph r) (at_gh r) (at_kh r) (at_no2 r) (at_no3 r) (at_tds r) v
  end.

Definition all_params {A} (v : A) : PerParam A := mkPerParam v v v v v v v v.

Definition WaterParams := PerParam bool.

(** [ALL_PARAM_KEYS.reduce] writing [enabled] under every key. *)
Definition makeAllParams (enabled : bool) : WaterParams :=
  fold_left (fun acc k => set_param acc k enabled) ALL_PARAM_KEYS (all_params enabled).

Record Limit := mkLimit { lim_min : option number; lim_max : option number }.

Definition WaterLimits := PerParam Limit.

Definition makeDefaultLimits : WaterLimits :=
  fold_left (fun acc k => set_param acc k (mkLimit None None))
            ALL_PARAM_KEYS (all_params (mkLimit None None)).

Section ParseNum.

(** [Number(t)] on a string: the StringToNumber conversion of the language. *)
Variable Number : jsstring -> number.

Definition parseNumOrNull (s : jsstring) : option number :=
  let t := replace (lit ",") (lit ".") (trim s) in
  if str_eqb t [] then None
  else let n := Number t in
       if isFinite n then Some n else None.

End ParseNum.

Inductive RangeStatus := na | low | high | ok.

Definition inRange (value : option number) (lim : Limit) : RangeStatus :=
  match value with
  | None => na
  | Some v =>
      if match lim_min lim with Some mn => num_lt v mn | None => false end
      then low
      else if match lim_max lim with Some mx => num_gt v mx | None => false end
      then high
      else ok
  end.

(* ===================================================================== *)
(** ** Types *)

Record Tank := mkTank {
  tank_id : jsstring;
  tank_name : jsstring;
  volumeL : number;
  location : jsstring;
  purpose : jsstring;
  tank_active : bool;
  waterParams : WaterParams
}.

Record Line := mkLine {
  line_id : jsstring;
  line_name : jsstring;
  code : jsstring;
  traits : list jsstring;
  line_notes : jsstring;
  line_archived : bool
}.

Record Attempt := mkAttempt {
  attempt_id : jsstring;
  attempt_name : jsstring;
  lineId : jsstring;
  tankIds : list jsstring;
  startDate : jsstring;
  endDate : jsstring;
  goal : jsstring;
  attempt_notes : jsstring;
  attempt_active : bool;
  attempt_archived : bool
}.

Record Group := mkGroup {
  group_id : jsstring;
  group_attemptId : jsstring;
  group_name : jsstring;
  group_tankId : jsstring;
  maleCount : number;
  femaleCount : number;
  group_notes : jsstring;
  group_active : bool;
  group_archived : bool
}.

(** A water entry without its id ([Omit<WaterEntry, "id">]); a parameter slot
    is [None] when the key is absent, [Some None] when it holds [null]. *)
Record WaterPayload := mkWaterPayload {
  payload_tankId : jsstring;
  payload_date : jsstring;
  payload_note : jsstring;
  payload_values : PerParam (option (option number))
}.

Record WaterEntry := mkWaterEntry {
  water_id : jsstring;
  water_tankId : jsstring;
  water_date : jsstring;
  water_note : jsstring;
  water_values : PerParam (option (option number))
}.

Inductive LogKind := Futter | Pflege | Wurf | Beobachtung | Sonstiges.

Record LogPayload := mkLogPayload {
  lp_attemptId : jsstring;
  lp_tankId : jsstring;
  lp_date : jsstring;
  lp_kind : LogKind;
  lp_title : jsstring;
  lp_notes : jsstring
}.

Record LogEntry := mkLogEntry {
  log_id : jsstring;
  log_attemptId : jsstring;
  log_tankId : jsstring;
  log_date : jsstring;
  kind : LogKind;
  title : jsstring;
  log_notes : jsstring
}.

Record Settings := mkSettings {
  breederName : jsstring;
  maxPhotoMB : number;
  waterLimits : WaterLimits
}.

Record AppState := mkAppState {
  settings : Settings;
  tanks : list Tank;
  lines : list Line;
  attempts : list Attempt;
  groups : list Group;
  water : list WaterEntry;
  log : list LogEntry
}.

(** The document with nothing in it. *)
Definition empty_state (st : Settings) : AppState :=
  mkAppState st [] [] [] [] [] [].

(* ===================================================================== *)
(** ** Mutations of the main component

    Each mutation is the updater it hands to [setState]: a pure function from
    the current document to the next one. *)

(** [{ ...t, ...tank }]: every field the second record carries wins; both
    records carry every field of [Tank]. *)
Definition merge_tank (t tank : Tank) : Tank :=
  mkTank (tank_id tank) (tank_name tank) (volumeL tank) (location tank)
         (purpose tank) (tank_active tank) (waterParams tank).

Definition merge_attempt (x a : Attempt) : Attempt :=
  mkAttempt (attempt_id a) (attempt_name a) (lineId a) (tankIds a)
            (startDate a) (endDate a) (goal a) (attempt_notes a)
            (attempt_active a) (attempt_archived a).

(** [{ ...a, tankIds: ids }]. *)
Definition with_tankIds (a : Attempt) (ids : list jsstring) : Attempt :=
  mkAttempt (attempt_id a) (attempt_name a) (lineId a) ids
            (startDate a) (endDate a) (goal a) (attempt_notes a)
            (attempt_active a) (attempt_archived a).

(** [{ ...a, tankIds: a.tankIds.filter((x) => x !== id) }]. *)
Definition strip_tank (id : jsstring) (a : Attempt) : Attempt :=
  with_tankIds a (filter (fun x => negb (str_eqb x id)) (tankIds a)).

(** The attempt has a tank other than [id]. *)
Definition keeps_a_tank (id : jsstring) (a : Attempt) : bool :=
  existsb (fun x => negb (str_eqb x id)) (tankIds a).

Definition upsertTank (tank : Tank) (s : AppState) : AppState :=
  let exists_ := existsb (fun t => str_eqb (tank_id t) (tank_id tank)) (tanks s) in
  let tanks' :=
    if exists_
    then map (fun t => if str_eqb (tank_id t) (tank_id tank)
                       then merge_tank t tank else t) (tanks s)
    else tank :: tanks s in
  mkAppState (settings s) tanks' (lines s) (attempts s) (groups s) (water s) (log s).

Definition removeTank (id : jsstring) (s : AppState) : AppState :=
  let tanks' := filter (fun t => negb (str_eqb (tank_id t) id)) (tanks s) in
  let attempts' :=
    filter (fun a => (0 <? List.length (tankIds a))%nat)
      (map (strip_tank id) (attempts s)) in
  let groups' := filter (fun g => negb (str_eqb (group_tankId g) id)) (groups s) in
  let water' := filter (fun w => negb (str_eqb (water_tankId w) id)) (water s) in
  let log' := filter (fun e => negb (str_eqb (log_tankId e) id)) (log s) in
  mkAppState (settings s) tanks' (lines s) attempts' groups' water' log'.

Definition upsertAttempt (a : Attempt) (s : AppState) : AppState :=
  let exists_ := existsb (fun x => str_eqb (attempt_id x) (attempt_id a)) (attempts s) in
  let attempts' :=
    if exists_
    then map (fun x => if str_eqb (attempt_id x) (attempt_id a)
                       then merge_attempt x a else x) (attempts s)
    else a :: attempts s in
  mkAppState (settings s) (tanks s) (lines s) attempts' (groups s) (water s) (log s).

Definition removeAttempt (id : jsstring) (s : AppState) : AppState :=
  let attempts' := filter (fun a => negb (str_eqb (attempt_id a) id)) (attempts s) in
  let groups' := filter (fun g => negb (str_eqb (group_attemptId g) id)) (groups s) in
  let log' := filter (fun e => negb (str_eqb (log_attemptId e) id)) (log s) in
  mkAppState (settings s) (tanks s) (lines s) attempts' groups' (water s) log'.

Definition upsertGroup (g : Group) (s : AppState) : AppState :=
  mkAppState (settings s) (tanks s) (lines s) (attempts s) (g :: groups s)
             (water s) (log s).

Definition removeGroup (id : jsstring) (s : AppState) : AppState :=
  mkAppState (settings s) (tanks s) (lines s) (attempts s)
             (filter (fun g => negb (str_eqb (group_id g) id)) (groups s))
             (water s) (log s).

(** [addWater] and [addLog] draw the new id from [uid()], here [fresh]. *)
Definition addWater (fresh : jsstring) (entry : WaterPayload) (s : AppState) : AppState :=
  mkAppState (settings s) (tanks s) (lines s) (attempts s) (groups s)
             (mkWaterEntry fresh (payload_tankId entry) (payload_date entry)
                           (payload_note entry) (payload_values entry) :: water s)
             (log s).

Definition removeWater (id : jsstring) (s : AppState) : AppState :=
  mkAppState (settings s) (tanks s) (lines s) (attempts s) (groups s)
             (filter (fun w => negb (str_eqb (water_id w) id)) (water s))
             (log s).

Definition addLog (fresh : jsstring) (entry : LogPayload) (s : AppState) : AppState :=
  mkAppState (settings s) (tanks s) (lines s) (attempts s) (groups s) (water s)
             (mkLogEntry fresh (lp_attemptId entry) (lp_tankId entry) (lp_date entry)
                         (lp_kind entry) (lp_title entry) (lp_notes entry) :: log s).

Definition removeLog (id : jsstring) (s : AppState) : AppState :=
  mkAppState (settings s) (tanks s) (lines s) (attempts s) (groups s) (water s)
             (filter (fun e => negb (str_eqb (log_id e) id)) (log s)).

(* ===================================================================== *)
(** ** LinesTab *)

(** [linkedCount] of [LinesTab]: the attempts of a line that are not archived. *)
Definition linkedCount (atts : list Attempt) (id : jsstring) : nat :=
  List.length
    (filter (fun a => str_eqb (lineId a) id && negb (attempt_archived a)) atts).

(** [{ ...l, archived: b }]. *)
Definition with_archived (l : Line) (b : bool) : Line :=
  mkLine (line_id l) (line_name l) (code l) (traits l) (line_notes l) b.

(** Modelled from the spec: the store's removal of a line, [removeLine].
    [LinesTab] declares it as a prop and calls it from its delete button, but
    the main component neither defines it nor mounts [LinesTab].  The spec:
    a line referenced by at least one non-archived attempt is archived
    ([archived = true]) instead of removed; an unreferenced line is removed
    outright.  The reference count is [linkedCount], which is in the source. *)
Definition removeLine (id : jsstring) (s : AppState) : AppState :=
  let lines' :=
    if (0 <? linkedCount (attempts s) id)%nat
    then map (fun l => if str_eqb (line_id l) id then with_archived l true else l)
             (lines s)
    else filter (fun l => negb (str_eqb (line_id l) id)) (lines s) in
  mkAppState (settings s) (tanks s) lines' (attempts s) (groups s) (water s) (log s).

(* ===================================================================== *)
(** ** DashboardTab *)

(** The comparator of [lastLog]: [(a, b) => (a.date < b.date ? 1 : -1)].
    It never answers 0, also for two entries of the same date. *)
Definition byDateDesc (a b : LogEntry) : Z :=
  if str_ltb (log_date a) (log_date b) then 1%Z else (-1)%Z.

Section Dashboard.

(** [Array.prototype.sort] on a copy of the array, with a comparator. *)
Variable sort : (LogEntry -> LogEntry -> Z) -> list LogEntry -> list LogEntry.

Definition activeAttempts (s : AppState) : nat :=
  List.length (filter (fun a => attempt_active a && negb (attempt_archived a))
                      (attempts s)).

Definition activeTanks (s : AppState) : nat :=
  List.length (filter (fun t => tank_active t) (tanks s)).

(** [sorted[0] || null]. *)
Definition lastLog (s : AppState) : option LogEntry :=
  hd_error (sort byDateDesc (log s)).

End Dashboard.

(** A consistent comparator, as the language defines it: "compares equal" (the
    answer 0) is an equivalence and "compares before" (a negative answer) a
    strict order turned around by swapping the arguments. *)
Definition consistent (cmp : LogEntry -> LogEntry -> Z) : Prop :=
  (forall x, cmp x x = 0%Z)
  /\ (forall x y, cmp x y = 0%Z -> cmp y x = 0%Z)
  /\ (forall x y, (cmp x y < 0)%Z <-> (cmp y x > 0)%Z)
  /\ (forall x y z, cmp x y = 0%Z -> cmp y z = 0%Z -> cmp x z = 0%Z)
  /\ (forall x y z, (cmp x y < 0)%Z -> (cmp y z < 0)%Z -> (cmp x z < 0)%Z).

(** What is taken of [sort]: the result is a rearrangement of the array; for
    a comparator whose answers order the elements totally, no element stands
    before one it compares after; and the sort is stable, that is, for a
    consistent comparator the elements that compare equal keep their order. *)
Definition sort_contract
  (sort : (LogEntry -> LogEntry -> Z) -> list LogEntry -> list LogEntry) : Prop :=
  forall cmp l,
    Permutation l (sort cmp l)
    /\ ((forall x y z, (cmp x y <= 0)%Z -> (cmp y z <= 0)%Z -> (cmp x z <= 0)%Z) ->
        (forall x y, (cmp x y < 0)%Z \/ (cmp y x <= 0)%Z) ->
        StronglySorted (fun x y => (cmp x y <= 0)%Z) (sort cmp l))
    /\ (consistent cmp ->
        forall x, filter (fun y => (cmp x y =? 0)%Z) (sort cmp l)
                  = filter (fun y => (cmp x y =? 0)%Z) l).

(** One sort that meets the contract: insertion sort in which the element
    being placed is the comparator's first argument and goes in front of the
    first element it compares before (the place a binary insertion reaches
    when it moves left on a negative answer). *)
Fixpoint insert_front (cmp : LogEntry -> LogEntry -> Z) (p : LogEntry)
  (l : list LogEntry) : list LogEntry :=
  match l with
  | [] => [p]
  | e :: l' => if (cmp p e <? 0)%Z then p :: l else e :: insert_front cmp p l'
  end.

Definition insertion_sort (cmp : LogEntry -> LogEntry -> Z) (l : list LogEntry)
  : list LogEntry :=
  fold_left (fun acc p => insert_front cmp p acc) l [].

(** Another sort that meets the contract: each element, taken from the end
    of the array, moves right past the elements it compares after and stops
    at the first one it does not. *)
Fixpoint insert_past (cmp : LogEntry -> LogEntry -> Z) (x : LogEntry)
  (l : list LogEntry) : list LogEntry :=
  match l with
  | [] => [x]
  | e :: l' => if (0 <? cmp x e)%Z then e :: insert_past cmp x l' else x :: l
  end.

Definition insertion_sort_past (cmp : LogEntry -> LogEntry -> Z)
  (l : list LogEntry) : list LogEntry :=
  fold_right (insert_past cmp) [] l.

(** The claim's reading of the selection, from the spec's words: sort
    descending by date, entries of one date keeping their order in the log
    (a stable sort), and take the first. *)
Fixpoint insert_stable_desc (x : LogEntry) (l : list LogEntry) : list LogEntry :=
  match l with
  | [] => [x]
  | e :: l' =>
      if str_ltb (log_date x) (log_date e) then e :: insert_stable_desc x l'
      else x :: l
  end.

Definition stable_sort_desc (l : list LogEntry) : list LogEntry :=
  fold_right insert_stable_desc [] l.

Definition lastLog_stable (s : AppState) : option LogEntry :=
  hd_error (stable_sort_desc (log s)).

(* ===================================================================== *)
(** ** WaterTab: the form of a new entry *)

(** [activeParams]: the keys enabled on the tank (all keys when there is no
    tank), and [temp] alone when none is enabled. *)
Definition activeParams (tank : option Tank) : list ParamKey :=
  let wp := match tank with
            | Some t => waterParams t
            | None => makeAllParams true
            end in
  let list := filter (fun k => get_param wp k) ALL_PARAM_KEYS in
  match list with
  | [] => [temp]
  | _ :: _ => list
  end.

Section WaterForm.

Variable Number : jsstring -> number.

(** The payload the save button builds: [values] is the text of each input
    ([None] when the key was never typed into), [today] is
    [toISODate(new Date())]. *)
Definition newWaterPayload (today tankId date note : jsstring)
  (values : ParamKey -> option jsstring) (active : list ParamKey) : WaterPayload :=
  mkWaterPayload tankId
    (if str_eqb date [] then today else date)
    note
    (fold_left
       (fun payload k =>
          set_param payload k (Some (parseNumOrNull Number (or_empty (values k)))))
       active (all_params None)).

End WaterForm.

(* ===================================================================== *)
(** ** Storage: values as [JSON.parse] returns them *)

#[local] Set Warnings "-register-all".

(** An object is the list of its keys with their values, each key once. *)
Inductive json :=
| JNull
| JBool (b : bool)
| JNum (n : number)
| JStr (s : jsstring)
| JArr (items : list json)
| JObj (fields : list (jsstring * json)).

Fixpoint assoc (k : jsstring) (fs : list (jsstring * json)) : option json :=
  match fs with
  | [] => None
  | (k', v) :: fs' => if str_eqb k' k then Some v else assoc k fs'
  end.

(** [v.k] and [v?.k] for the keys the source reads, none of which is a
    built-in property of a string, number, boolean or array: [None] is
    [undefined].  (On [null] the plain form throws; [loadState] reads a
    possibly null value without [?.] in one place only, see [loadParsed].) *)
Definition prop (v : json) (k : string) : option json :=
  match v with
  | JObj fs => assoc (lit k) fs
  | _ => None
  end.

Definition is_zero_or_nan (n : number) : bool :=
  match n with
  | S754_zero _ | S754_nan => true
  | _ => false
  end.

Definition truthy (v : json) : bool :=
  match v with
  | JNull => false
  | JBool b => b
  | JNum n => negb (is_zero_or_nan n)
  | JStr s => negb (str_eqb s [])
  | JArr _ | JObj _ => true
  end.

(** [x] when it is there and truthy. *)
Definition truthy_opt (x : option json) : option json :=
  match x with
  | Some v => if truthy v then Some v else None
  | None => None
  end.

(** [typeof v === "object"] (true of [null] as well). *)
Definition is_object (v : json) : bool :=
  match v with
  | JNull | JArr _ | JObj _ => true
  | _ => false
  end.

(** A computation that draws ids from [uid()] (the counter) and may throw
    ([None]). *)
Definition M (A : Type) : Type := nat -> option A * nat.

Definition ret {A} (a : A) : M A := fun n => (Some a, n).

Definition throw {A} : M A := fun n => (None, n).

Definition bind {A B} (c : M A) (k : A -> M B) : M B :=
  fun n => match c n with
           | (Some a, n') => k a n'
           | (None, n') => (None, n')
           end.

Definition lift {A} (x : option A) : M A :=
  match x with
  | Some a => ret a
  | None => throw
  end.

Notation "x <- c ;; k" := (bind c (fun x => k))
  (at level 61, c at next level, right associativity).

Fixpoint mapM {A B} (f : A -> M B) (l : list A) : M (list B) :=
  match l with
  | [] => ret []
  | a :: l' => b <- f a ;; bs <- mapM f l' ;; ret (b :: bs)
  end.

Section Storage.

(** [Number(s)] on a string. *)
Variable Number : jsstring -> number.

(** [String(v)] and [Number(v)] on a number, an array or an object: the
    conversions of the language; on an array or object they go through its
    [toString]/[valueOf] and throw ([None]) when a stored key shadows these
    with a value that cannot be called. *)
Variable String_other : json -> option jsstring.
Variable Number_other : json -> option number.

(** The successive results of [uid()]. *)
Variable uid_at : nat -> jsstring.

(** [toISODate(t0)] and [toISODate(t1)] of [seed]: three weeks and one week
    before today. *)
Variable iso_t0 iso_t1 : jsstring.

Definition uid : M jsstring := fun n => (Some (uid_at n), S n).

Definition js_String (v : json) : option jsstring :=
  match v with
  | JStr s => Some s
  | JBool true => Some (lit "true")
  | JBool false => Some (lit "false")
  | JNull => Some (lit "null")
  | _ => String_other v
  end.

Definition js_Number (v : json) : option number :=
  match v with
  | JNum n => Some n
  | JStr s => Some (Number s)
  | JBool true => Some (num_of_Z 1)
  | JBool false | JNull => Some (num_of_Z 0)
  | _ => Number_other v
  end.

(** [String(x || dflt)] for a string default. *)
Definition string_or (x : option json) (dflt : jsstring) : M jsstring :=
  match truthy_opt x with
  | Some v => lift (js_String v)
  | None => ret dflt
  end.

Definition normalizeTank (t : json) : M Tank :=
  let wp0 := makeAllParams false in
  let inc := match truthy_opt (prop t "waterParams") with
             | Some w => w
             | None => JObj []
             end in
  let wp :=
    fold_left
      (fun wp k =>
         match
           prop inc (key_name k) with
         | Some (JBool b) => set_param wp k b
         | _ => wp
         end)
      ALL_PARAM_KEYS wp0 in
  id <- match truthy_opt (prop t "id") with
        | Some v => lift (js_String v)
        | None => uid
        end ;;
  name <- string_or (prop t "name") (lit "Becken") ;;
  vol <- match prop t "volumeL" with
         | Some (JNum n) => ret n
         | other =>
             match truthy_opt other with
             | Some v => lift (js_Number v)
             | None => ret (num_of_Z 0)
             end
         end ;;
  loc <- string_or (prop t "location") [] ;;
  pur <- string_or (prop t "purpose") [] ;;
  ret (mkTank id name vol loc pur
         (match prop t "active" with
          | Some (JBool false) => false
          | _ => true
          end)
         wp).

(** [seed()]: the example document; it draws ten ids, in the order of the
    source, and cannot throw. *)
Definition seed (n : nat) : AppState * nat :=
  let idA := uid_at (0 + n) in
  let tankA :=
    mkTank idA (lit "Becken 01") (num_of_Z 54) (lit "Wohnzimmer") (lit "Zucht") true
      (mkPerParam true true true true true true false false) in
  let idB := uid_at (1 + n) in
  let tankB :=
    mkTank idB (lit "Becken 02") (num_of_Z 30) (lit "Regal") (lit "Aufzucht") true
      (mkPerParam true true false false true true true true) in
  let idL := uid_at (2 + n) in
  let lineA :=
    mkLine idL (lit "Endler " ++ [8211%N] ++ lit " Japan Blue") (lit "JB-01")
      [lit "Japan Blue"; lit "Endler"]
      (lit "Stamm stabil, kr" ++ [228%N] ++ lit "ftige Blaut" ++ [246%N] ++ lit "ne.")
      false in
  let idT := uid_at (3 + n) in
  let attemptA :=
    mkAttempt idT (lit "Ansatz 2025-01 (A)") (line_id lineA)
      [tank_id tankA; tank_id tankB] iso_t0 []
      (lit "Farbintensit" ++ [228%N] ++ lit "t & Flossenform")
      (lit "Becken 01 Zucht, Becken 02 Aufzucht.") true false in
  let idG1 := uid_at (4 + n) in
  let idG2 := uid_at (5 + n) in
  let groups0 :=
    [ mkGroup idG1 (attempt_id attemptA) (lit "Zuchtgruppe") (tank_id tankA)
        (num_of_Z 2) (num_of_Z 5) (lit "Hauptgruppe") true false;
      mkGroup idG2 (attempt_id attemptA) (lit "Jungfische") (tank_id tankB)
        (num_of_Z 0) (num_of_Z 0) (lit "Batch 1") true false ] in
  let some_num (x : number) := Some (Some x) in
  let limits :=
    mkPerParam
      (mkLimit (Some (num_of_Z 22)) (Some (num_of_Z 28)))
      (mkLimit (Some (num_ratio 65 10)) (Some (num_ratio 78 10)))
      (mkLimit None None)
      (mkLimit None None)
      (mkLimit (Some (num_of_Z 0)) (Some (num_ratio 1 10)))
      (mkLimit (Some (num_of_Z 0)) (Some (num_of_Z 30)))
      (mkLimit None None)
      (mkLimit None None) in
  let idW1 := uid_at (6 + n) in
  let idW2 := uid_at (7 + n) in
  let water0 :=
    [ mkWaterEntry idW1 (tank_id tankA) iso_t1 []
        (mkPerParam (some_num (num_ratio 252 10)) (some_num (num_ratio 71 10))
           (some_num (num_of_Z 10)) (some_num (num_of_Z 6))
           (some_num (num_of_Z 0)) (some_num (num_of_Z 12)) None None);
      mkWaterEntry idW2 (tank_id tankB) iso_t1 []
        (mkPerParam (some_num (num_of_Z 26)) (some_num (num_of_Z 7)) None None
           (some_num (num_of_Z 0)) (some_num (num_of_Z 18))
           (some_num (num_of_Z 280)) (some_num (num_of_Z 520))) ] in
  let idE1 := uid_at (8 + n) in
  let idE2 := uid_at (9 + n) in
  let log0 :=
    [ mkLogEntry idE1 (attempt_id attemptA) (tank_id tankA) iso_t1 Pflege
        (lit "Wasserwechsel 30%") (lit "leicht aufsalzen");
      mkLogEntry idE2 (attempt_id attemptA) [] iso_t1 Beobachtung
        (lit "F" ++ [228%N] ++ lit "rbung sichtbar") (lit "erste blaue Flanken") ] in
  (mkAppState (mkSettings [] (num_ratio 15 10) limits)
     [tankA; tankB] [lineA] [attemptA] groups0 water0 log0,
   10 + n).

(** The document [loadState] builds from a stored value: settings and tanks
    are rebuilt field by field; the other five collections are the stored
    arrays themselves, whatever their elements are. *)
Record LoadedState := mkLoadedState {
  ld_settings : Settings;
  ld_tanks : list Tank;
  ld_lines : list json;
  ld_attempts : list json;
  ld_groups : list json;
  ld_water : list json;
  ld_log : list json
}.

Inductive LoadResult :=
| Seeded (s : AppState)
| Loaded (r : LoadedState).

(** [Array.isArray(x) ? x : []]. *)
Definition array_or_empty (x : option json) : list json :=
  match x with
  | Some (JArr items) => items
  | _ => []
  end.

Definition limit_of (x : json) : Limit :=
  mkLimit (match prop x "min" with Some (JNum n) => Some n | _ => None end)
          (match prop x "max" with Some (JNum n) => Some n | _ => None end).

(** The body of the [try] once [JSON.parse] has returned [parsed]. *)
Definition loadParsed (parsed : json) : M LoadedState :=
  let settingsIn := match truthy_opt (if truthy parsed then prop parsed "settings" else None) with
                    | Some v => v
                    | None => JObj []
                    end in
  let incoming := match truthy_opt (prop settingsIn "waterLimits") with
                  | Some v => if is_object v then Some v else None
                  | None => None
                  end in
  let waterLimits' :=
    match incoming with
    | Some inc =>
        fold_left
          (fun wl k =>
             match truthy_opt (prop inc (key_name k)) with
             | Some x => if is_object x then set_param wl k (limit_of x) else wl
             | None => wl
             end)
          ALL_PARAM_KEYS makeDefaultLimits
    | None => makeDefaultLimits
    end in
  let settings' :=
    mkSettings
      (match prop settingsIn "breederName" with Some (JStr s) => s | _ => [] end)
      (match prop settingsIn "maxPhotoMB" with Some (JNum n) => n | _ => num_ratio 15 10 end)
      waterLimits' in
  match parsed with
  | JNull => throw
  | _ =>
      tanks' <- match prop parsed "tanks" with
                | Some (JArr items) => mapM normalizeTank items
                | _ => ret []
                end ;;
      ret (mkLoadedState settings' tanks'
             (array_or_empty (prop parsed "lines"))
             (array_or_empty (prop parsed "attempts"))
             (array_or_empty (prop parsed "groups"))
             (array_or_empty (prop parsed "water"))
             (array_or_empty (prop parsed "log")))
  end.

Section LoadState.

(** [JSON.parse(raw)]; [None] when it throws. *)
Variable JSON_parse : jsstring -> option json.

(** [return seed();] *)
Definition seeded (n : nat) : LoadResult * nat :=
  let (s, n') := seed n in (Seeded s, n').

(** [loadState()], given what [localStorage.getItem(STORAGE_KEY)] returns
    ([None] for [null]) and the number of ids drawn so far. *)
Definition loadState (raw : option jsstring) (n : nat) : LoadResult * nat :=
  match raw with
  | None => seeded n
  | Some r =>
      if str_eqb r [] then seeded n
      else match JSON_parse r with
           | None => seeded n
           | Some parsed =>
               match loadParsed parsed n with
               | (Some st, n') => (Loaded st, n')
               | (None, n') => seeded n'
               end
           end
  end.

End LoadState.

End Storage.

(** The entity types of the source, read against a stored value (what
    "every required field present with its type" asks of an element of a
    loaded collection). *)
Definition is_str (v : json) : bool :=
  match v with JStr _ => true | _ => false end.

Definition is_bool (v : json) : bool :=
  match v with JBool _ => true | _ => false end.

Definition is_num (v : json) : bool :=
  match v with JNum _ => true | _ => false end.

Definition is_str_array (v : json) : bool :=
  match v with JArr items => forallb is_str items | _ => false end.

Definition has (v : json) (k : string) (test : json -> bool) : bool :=
  match prop v k with
  | Some x => test x
  | None => false
  end.

(** An optional [number | null] slot. *)
Definition may_have_num (v : json) (k : string) : bool :=
  match prop v k with
  | Some (JNum _) | Some JNull | None => true
  | Some _ => false
  end.

Definition is_Line (v : json) : bool :=
  has v "id" is_str && has v "name" is_str && has v "code" is_str
  && has v "traits" is_str_array && has v "notes" is_str
  && has v "archived" is_bool.

Definition is_Attempt (v : json) : bool :=
  has v "id" is_str && has v "name" is_str && has v "lineId" is_str
  && has v "tankIds" is_str_array && has v "startDate" is_str
  && has v "endDate" is_str && has v "goal" is_str && has v "notes" is_str
  && has v "active" is_bool && has v "archived" is_bool.

Definition is_Group (v : json) : bool :=
  has v "id" is_str && has v "attemptId" is_str && has v "name" is_str
  && has v "tankId" is_str && has v "maleCount" is_num
  && has v "femaleCount" is_num && has v "notes" is_str
  && has v "active" is_bool && has v "archived" is_bool.

Definition is_WaterEntry (v : json) : bool :=
  has v "id" is_str && has v "tankId" is_str && has v "date" is_str
  && has v "note" is_str
  && forallb (fun k => may_have_num v (key_name k)) ALL_PARAM_KEYS.

Definition is_LogKind (v : json) : bool :=
  match v with
  | JStr s =>
      existsb (fun k => str_eqb s (lit k))
              ["Futter"; "Pflege"; "Wurf"; "Beobachtung"; "Sonstiges"]%string
  | _ => false
  end.

Definition is_LogEntry (v : json) : bool :=
  has v "id" is_str && has v "attemptId" is_str && has v "tankId" is_str
  && has v "date" is_str && has v "kind" is_LogKind && has v "title" is_str
  && has v "notes" is_str.

Definition structurally_valid (r : LoadedState) : bool :=
  forallb is_Line (ld_lines r) && forallb is_Attempt (ld_attempts r)
  && forallb is_Group (ld_groups r) && forallb is_WaterEntry (ld_water r)
  && forallb is_LogEntry (ld_log r).

(** A reading of [Number(s)] on plain decimal literals ([digits], with an
    optional [.digits]): the digits as an integer over the power of ten of
    the fraction, rounded once; the empty string reads as 0.  It agrees with
    the language on such literals of up to 15 digits.  Every other text is
    answered with NaN here, which is not what the language does on signed,
    exponent, hexadecimal or white-space-padded literals: this is no model
    of [Number], it only instantiates the parameter [Number] where the
    definitions are run on plain literals, and no statement is about it. *)
Fixpoint digits_value (acc : Z) (s : jsstring) : option Z :=
  match s with
  | [] => Some acc
  | c :: s' => if is_digit c
               then digits_value (10 * acc + (Z.of_N c - 48))%Z s'
               else None
  end.

Fixpoint split_dot (s : jsstring) : jsstring * option jsstring :=
  match s with
  | [] => ([], None)
  | c :: s' => if (c =? 46)%N then ([], Some s')
               else let (a, b) := split_dot s' in (c :: a, b)
  end.

Definition Number_plain (s : jsstring) : number :=
  match split_dot s with
  | (a, None) =>
      match digits_value 0 a with
      | Some z => num_of_Z z
      | None => S754_nan
      end
  | (a, Some b) =>
      match a, b with
      | [], [] => S754_nan
      | _, _ =>
          match digits_value 0 (a ++ b) with
          | Some z => num_ratio z (10 ^ Z.of_nat (List.length b))
          | None => S754_nan
          end
      end
  end.

(** What [normalizeTank] makes of a stored element [t], whatever [t] is: the
    defaults of the source for what is missing or of another type. *)
Definition tank_normalized (uid_at : nat -> jsstring) (t : json) (tk : Tank) : Prop :=
  (truthy_opt (prop t "id") = None -> exists m, tank_id tk = uid_at m)
  /\ (forall s, prop t "id" = Some (JStr s) -> s <> [] -> tank_id tk = s)
  /\ (truthy_opt (prop t "name") = None -> tank_name tk = lit "Becken")
  /\ (forall s, prop t "name" = Some (JStr s) -> s <> [] -> tank_name tk = s)
  /\ match prop t "volumeL" with
     | Some (JNum v) => volumeL tk = v
     | other => truthy_opt other = None -> volumeL tk = num_of_Z 0
     end
  /\ (truthy_opt (prop t "location") = None -> location tk = [])
  /\ (forall s, prop t "location" = Some (JStr s) -> location tk = s)
  /\ (truthy_opt (prop t "purpose") = None -> purpose tk = [])
  /\ (forall s, prop t "purpose" = Some (JStr s) -> purpose tk = s)
  /\ (tank_active tk = false <-> prop t "active" = Some (JBool false))
  /\ (forall k, get_param (waterParams tk) k
                = match truthy_opt (prop t "waterParams") with
                  | Some inc => match prop inc (key_name k) with
                                | Some (JBool b) => b
                                | _ => false
                                end
                  | None => false
                  end).

(** What [loadState] makes of the stored settings. *)
Definition settings_normalized (parsed : json) (st : Settings) : Prop :=
  let settingsIn := match truthy_opt (prop parsed "settings") with
                    | Some v => v
                    | None => JObj []
                    end in
  breederName st
  = match prop settingsIn "breederName" with Some (JStr s) => s | _ => [] end
  /\ maxPhotoMB st
     = match prop settingsIn "maxPhotoMB" with
       | Some (JNum x) => x
       | _ => num_ratio 15 10
       end
  /\ (forall k,
        get_param (waterLimits st) k
        = match truthy_opt (prop settingsIn "waterLimits") with
          | Some inc =>
              match truthy_opt (prop inc (key_name k)) with
              | Some x => if is_object x then limit_of x else mkLimit None None
              | None => mkLimit None None
              end
          | None => mkLimit None None
          end).

(** A stored document whose attempts are not attempts: [{"attempts":[5]}]. *)
Definition bad_parsed : json :=
  JObj [(lit "attempts", JArr [JNum (num_of_Z 5)])].

Definition bad_loaded : LoadedState :=
  mkLoadedState (mkSettings [] (num_ratio 15 10) makeDefaultLimits)
                [] [] [JNum (num_of_Z 5)] [] [] [].

(* ===================================================================== *)
(** ** Example documents *)

Definition ex_settings : Settings :=
  mkSettings [] (num_ratio 15 10) makeDefaultLimits.

Definition ex_tank : Tank :=
  mkTank (lit "t1") (lit "Becken 01") (num_of_Z 54) (lit "Wohnzimmer")
         (lit "Zucht") true (makeAllParams true).

Definition ex_attempt : Attempt :=
  mkAttempt (lit "a1") (lit "Ansatz 2025-01 (A)") (lit "l1") [lit "t1"]
            (lit "2025-01-01") [] [] [] true false.

Definition ex_group : Group :=
  mkGroup (lit "g1") (lit "a1") (lit "Zuchtgruppe") (lit "t1")
          (num_of_Z 2) (num_of_Z 5) (lit "Hauptgruppe") true false.

(** A stream of ids for running [seed]: ["id0"], ["id1"], ... *)
Definition ex_uid (n : nat) : jsstring := lit "id" ++ [(48 + N.of_nat n)%N].

(** The seed document, three weeks and one week before 2025-01-22. *)
Definition ex_seed : AppState :=
  fst (seed ex_uid (lit "2025-01-01") (lit "2025-01-15") 0).

(** The same group id with other counts. *)
Definition ex_group_edit : Group :=
  mkGroup (lit "g1") (lit "a1") (lit "Zuchtgruppe") (lit "t1")
          (num_of_Z 3) (num_of_Z 4) (lit "Hauptgruppe") true false.

(** A group whose attempt is not in the document. *)
Definition ex_group_orphan : Group :=
  mkGroup (lit "g2") (lit "a9") (lit "Gruppe") (lit "t1")
          (num_of_Z 1) (num_of_Z 1) [] true false.

(** A log entry on a tank, and one on the whole attempt ([tankId = ""]). *)
Definition ex_log_tank : LogEntry :=
  mkLogEntry (lit "e1") (lit "a1") (lit "t1") (lit "2025-01-14") Pflege
             (lit "Wasserwechsel 30%") (lit "leicht aufsalzen").

Definition ex_log_general : LogEntry :=
  mkLogEntry (lit "e2") (lit "a1") [] (lit "2025-01-14") Beobachtung
             (lit "erste blaue Flanken") [].

Definition ex_line : Line :=
  mkLine (lit "l1") (lit "Japan Blue") (lit "JB-01") [lit "Japan Blue"] [] false.

Definition ex_state : AppState :=
  mkAppState ex_settings [ex_tank] [ex_line] [ex_attempt] [ex_group] []
             [ex_log_tank; ex_log_general].

Definition ex_state_orphan : AppState :=
  mkAppState ex_settings [ex_tank] [ex_line] [ex_attempt]
             [ex_group; ex_group_orphan] [] [].

(* ===================================================================== *)
(** ** Lookups and references *)

(** [tanksById]: the object the main component fills with [m[t.id] = t], read
    at [id]; a later tank of the same id overwrites an earlier one.  (The ids
    are those [uid()] makes, strings of hexadecimal digits, none of which
    names a member of [Object.prototype].) *)
Definition tanksById (tks : list Tank) : jsstring -> option Tank :=
  fold_left (fun m t => fun k => if str_eqb k (tank_id t) then Some t else m k)
            tks (fun _ => None).

(** [props.attempts.find((a) => a.id === selectedId)]. *)
Definition find_attempt (atts : list Attempt) (selectedId : jsstring)
  : option Attempt :=
  find (fun a => str_eqb (attempt_id a) selectedId) atts.

(** [selected]: no attempt while [selectedId] is empty. *)
Definition selected (atts : list Attempt) (selectedId : jsstring)
  : option Attempt :=
  if str_eqb selectedId [] then None else find_attempt atts selectedId.

(** [groupsForAttempt] and the filter of [logForAttempt] (before its sort). *)
Definition groupsForAttempt (gs : list Group) (sel : option Attempt) : list Group :=
  match sel with
  | Some a => filter (fun g => str_eqb (group_attemptId g) (attempt_id a)
                               && negb (group_archived g)) gs
  | None => []
  end.

Definition logEntriesOf (lg : list LogEntry) (sel : option Attempt) : list LogEntry :=
  match sel with
  | Some a => filter (fun e => str_eqb (log_attemptId e) (attempt_id a)) lg
  | None => []
  end.

(** Every reference to a tank names a tank of the document (a log entry may
    name none: [tankId = ""] is an entry on the whole attempt). *)
Definition tank_refs_ok (s : AppState) : Prop :=
  (forall a x, In a (attempts s) -> In x (tankIds a) ->
               In x (map tank_id (tanks s)))
  /\ (forall g, In g (groups s) -> In (group_tankId g) (map tank_id (tanks s)))
  /\ (forall w, In w (water s) -> In (water_tankId w) (map tank_id (tanks s)))
  /\ (forall e, In e (log s) ->
        log_tankId e = [] \/ In (log_tankId e) (map tank_id (tanks s))).

(** Every reference to an attempt names an attempt of the document. *)
Definition attempt_refs_ok (s : AppState) : Prop :=
  (forall g, In g (groups s) ->
             In (group_attemptId g) (map attempt_id (attempts s)))
  /\ (forall e, In e (log s) ->
                In (log_attemptId e) (map attempt_id (attempts s))).

(** [{ ...x, active: v }] and the updater of the toggle in [TanksTab]. *)
Definition with_active (x : Tank) (v : bool) : Tank :=
  mkTank (tank_id x) (tank_name x) (volumeL x) (location x) (purpose x) v
         (waterParams x).

Definition setTankActive (id : jsstring) (v : bool) (s : AppState) : AppState :=
  mkAppState (settings s)
    (map (fun x => if str_eqb (tank_id x) id then with_active x v else x) (tanks s))
    (lines s) (attempts s) (groups s) (water s) (log s).

(** [toggleTank] of the attempt editor. *)
Definition toggleTank (id : jsstring) (prev : list jsstring) : list jsstring :=
  if existsb (fun x => str_eqb x id) prev
  then filter (fun x => negb (str_eqb x id)) prev
  else prev ++ [id].

(** The collection an upsert of [e] builds from [l], for tanks and attempts
    alike: merge into the records of the same id, else put in front. *)
Definition upsert_list {A : Type} (key : A -> jsstring) (merge : A -> A -> A)
  (e : A) (l : list A) : list A :=
  if existsb (fun x => str_eqb (key x) (key e)) l
  then map (fun x => if str_eqb (key x) (key e) then merge x e else x) l
  else e :: l.

(* ===================================================================== *)
(** ** Helpers: dates *)

(** [String(n)] on a non-negative integer: its decimal digits, the last one
    first into [acc]; [fuel] bounds the number of digits. *)
Fixpoint dec_digits (fuel : nat) (n : N) (acc : jsstring) : jsstring :=
  match fuel with
  | O => acc
  | S f =>
      let acc' := (48 + n mod 10)%N :: acc in
      if (n <? 10)%N then acc' else dec_digits f (n / 10)%N acc'
  end.

Definition String_of_N (n : N) : jsstring :=
  dec_digits (S (N.to_nat (N.log2 n))) n [].

(** [String(z)] on an integer: a minus sign before the digits of a negative
    one. *)
Definition String_of_Z (z : Z) : jsstring :=
  if (z <? 0)%Z then 45%N :: String_of_N (Z.abs_N z) else String_of_N (Z.to_N z).

(** The first [k] units of [fill] repeated; [cur] is what is left of the copy
    being written. *)
Fixpoint fill_to (k : nat) (fill cur : jsstring) : jsstring :=
  match k with
  | O => []
  | S k' =>
      match cur with
      | c :: cur' => c :: fill_to k' fill cur'
      | [] => match fill with
              | c :: fill' => c :: fill_to k' fill fill'
              | [] => []
              end
      end
  end.

(** [s.padStart(target, fill)]. *)
Definition padStart (s : jsstring) (target : nat) (fill : jsstring) : jsstring :=
  if (target <=? List.length s)%nat then s
  else fill_to (target - List.length s) fill fill ++ s.

(** [pad2], on the integers the source passes it (a month, a day). *)
Definition pad2 (n : N) : jsstring := padStart (String_of_N n) 2 (lit "0").

(** What the getters of a valid [Date] return: the year, the month from 0
    and the day of the month. *)
Record DateFields := mkDate {
  getFullYear : Z;
  getMonth : N;
  getDate : N
}.

(** The argument of [toISODate]: a [Date], valid or not ([None] when its time
    is NaN), or a string. *)
Inductive DateArg :=
| ADate (d : option DateFields)
| AString (s : jsstring).

Section Dates.

(** [new Date(s)] on a string: the fields of the date it reads, [None] for
    an invalid date. *)
Variable Date_parse : jsstring -> option DateFields.

Definition toISODate (d : DateArg) : jsstring :=
  let dt := match d with
            | AString s => Date_parse s
            | ADate x => x
            end in
  match dt with
  | None => []
  | Some f =>
      String_of_Z (getFullYear f) ++ lit "-" ++ pad2 (getMonth f + 1)
      ++ lit "-" ++ pad2 (getDate f)
  end.

Definition fromISO (s : jsstring) : option DateFields := Date_parse s.

(** [s.slice(-2)]: the last two units. *)
Definition slice_last2 (s : jsstring) : jsstring :=
  skipn (List.length s - 2) s.

Definition formatShort (iso : jsstring) : jsstring :=
  match fromISO iso with
  | None => [8211%N]
  | Some d =>
      pad2 (getDate d) ++ lit "." ++ pad2 (getMonth d + 1) ++ lit "."
      ++ slice_last2 (String_of_Z (getFullYear d))
  end.

End Dates.

(** A date of the common era with a year of four digits. *)
Definition four_digit_date (f : DateFields) : bool :=
  (1000 <=? getFullYear f)%Z && (getFullYear f <=? 9999)%Z
  && (getMonth f <=? 11)%N && (1 <=? getDate f)%N && (getDate f <=? 31)%N.

(** Earlier in the calendar: by year, then month, then day. *)
Definition date_ltb (f g : DateFields) : bool :=
  if (getFullYear f =? getFullYear g)%Z
  then if (getMonth f =? getMonth g)%N
       then (getDate f <? getDate g)%N
       else (getMonth f <? getMonth g)%N
  else (getFullYear f <? getFullYear g)%Z.

(** The number a string of decimal digits writes. *)
Fixpoint dec_value (s : jsstring) : N :=
  match s with
  | [] => 0
  | c :: s' => ((c - 48) * 10 ^ N.of_nat (List.length s') + dec_value s')%N
  end.

(* ===================================================================== *)
(** ** The forms *)

(** [s.split(",")] and the like: the pieces between the occurrences of a
    separator of one unit; the empty string gives one empty piece. *)
Fixpoint split_on (c : N) (s : jsstring) : list jsstring :=
  match s with
  | [] => [[]]
  | x :: s' =>
      if (x =? c)%N then [] :: split_on c s'
      else match split_on c s' with
           | h :: t => (x :: h) :: t
           | [] => [[x]]
           end
  end.

(** [l.join(sep)]. *)
Fixpoint join (sep : jsstring) (l : list jsstring) : jsstring :=
  match l with
  | [] => []
  | x :: rest =>
      match rest with
      | [] => x
      | _ :: _ => x ++ sep ++ join sep rest
      end
  end.

(** [.filter(Boolean)] on strings: the non-empty ones. *)
Definition non_empty (l : list jsstring) : list jsstring :=
  filter (fun x => negb (str_eqb x [])) l.

(** A trait as the editor keeps it: not empty, trimmed, without a comma. *)
Definition trait_ok (t : jsstring) : bool :=
  negb (str_eqb t []) && str_eqb (trim t) t
  && forallb (fun x => negb (x =? 44)%N) t.

(** The traits of the line editor: what the text field shows for a line, and
    what saving reads back from the field. *)
Definition traits_text (ts : list jsstring) : jsstring := join (lit ", ") ts.

Definition traits_of_text (text : jsstring) : list jsstring :=
  non_empty (map trim (split_on 44 text)).

(** The save button of the line editor; disabled ([None]) while the trimmed
    name is empty. *)
Definition saveLine (editing : option Line) (fresh name code_ traits_ notes_ : jsstring)
  : option Line :=
  if str_eqb (trim name) [] then None
  else Some (mkLine (match editing with Some e => line_id e | None => fresh end)
                    (trim name) code_ (traits_of_text traits_) notes_
                    (match editing with Some e => line_archived e | None => false end)).

Section Forms.

Variable Number : jsstring -> number.

(** [Number(text || 0)]. *)
Definition number_or_zero (text : jsstring) : number :=
  if str_eqb text [] then num_of_Z 0 else Number text.

(** The save button of the tank editor ([canSave]: a non-empty trimmed name). *)
Definition saveTank (editing : option Tank) (fresh name volumeL_ location_ purpose_ : jsstring)
  (params : WaterParams) : option Tank :=
  if (0 <? List.length (trim name))%nat
  then Some (mkTank (match editing with Some e => tank_id e | None => fresh end)
                    (trim name) (number_or_zero volumeL_) location_ purpose_
                    (match editing with Some e => tank_active e | None => true end)
                    params)
  else None.

(** The save button of the attempt editor; disabled without a name, a line
    or a tank.  [today] is [toISODate(new Date())]. *)
Definition saveAttempt (edit : option Attempt) (fresh today aName aLineId : jsstring)
  (aTanks : list jsstring) (aStart aGoal aNotes : jsstring) : option Attempt :=
  if str_eqb (trim aName) [] || str_eqb aLineId []
     || (List.length aTanks =? 0)%nat
  then None
  else Some (mkAttempt (match edit with Some e => attempt_id e | None => fresh end)
                       (trim aName) aLineId aTanks
                       (if str_eqb aStart [] then today else aStart)
                       (match edit with Some e => endDate e | None => [] end)
                       aGoal aNotes
                       (match edit with Some e => attempt_active e | None => true end)
                       (match edit with Some e => attempt_archived e | None => false end)).

(** The group form of the selected attempt: nothing without a tank. *)
Definition newGroup (fresh : jsstring) (sel : Attempt)
  (gName gTankId gM gF gNotes : jsstring) : option Group :=
  if str_eqb gTankId [] then None
  else Some (mkGroup fresh (attempt_id sel)
                     (if str_eqb (trim gName) [] then lit "Gruppe" else trim gName)
                     gTankId (number_or_zero gM) (number_or_zero gF) gNotes
                     true false).

(** The log form of the selected attempt. *)
Definition newLogPayload (sel : Attempt) (today lTankId lDate : jsstring)
  (lKind : LogKind) (lTitle lNotes : jsstring) : LogPayload :=
  mkLogPayload (attempt_id sel) lTankId
               (if str_eqb lDate [] then today else lDate) lKind
               (if str_eqb (trim lTitle) [] then lit "(ohne Titel)" else trim lTitle)
               lNotes.

(** The limit fields of the settings: the text typed into the minimum or the
    maximum of [k]. *)
Definition setLimitMin (k : ParamKey) (text : jsstring) (st : Settings) : Settings :=
  mkSettings (breederName st) (maxPhotoMB st)
    (set_param (waterLimits st) k
       (mkLimit (parseNumOrNull Number text)
                (lim_max (get_param (waterLimits st) k)))).

Definition setLimitMax (k : ParamKey) (text : jsstring) (st : Settings) : Settings :=
  mkSettings (breederName st) (maxPhotoMB st)
    (set_param (waterLimits st) k
       (mkLimit (lim_min (get_param (waterLimits st) k))
                (parseNumOrNull Number text))).

(** [setState((s) => ({ ...s, settings: up(s.settings) }))]. *)
Definition setSettings (up : Settings -> Settings) (s : AppState) : AppState :=
  mkAppState (up (settings s)) (tanks s) (lines s) (attempts s) (groups s)
             (water s) (log s).

(** One change of the document through the user interface: a form saved, a
    toggle or a delete button. *)
Inductive step : AppState -> AppState -> Prop :=
| step_saveTank s editing fresh name vol loc pur params t :
    saveTank editing fresh name vol loc pur params = Some t ->
    step s (upsertTank t s)
| step_setTankActive s id v : step s (setTankActive id v s)
| step_removeTank s id : step s (removeTank id s)
| step_saveAttempt s edit fresh today aName aLineId aTanks aStart aGoal aNotes a :
    saveAttempt edit fresh today aName aLineId aTanks aStart aGoal aNotes = Some a ->
    step s (upsertAttempt a s)
| step_removeAttempt s id : step s (removeAttempt id s)
| step_newGroup s fresh sel gName gTankId gM gF gNotes g :
    newGroup fresh sel gName gTankId gM gF gNotes = Some g ->
    step s (upsertGroup g s)
| step_removeGroup s id : step s (removeGroup id s)
| step_addWater s fresh today tankId date note values :
    step s (addWater fresh
              (newWaterPayload Number today tankId date note values
                               (activeParams (tanksById (tanks s) tankId))) s)
| step_removeWater s id : step s (removeWater id s)
| step_addLog s fresh sel today lTankId lDate lKind lTitle lNotes :
    step s (addLog fresh (newLogPayload sel today lTankId lDate lKind lTitle lNotes) s)
| step_removeLog s id : step s (removeLog id s)
| step_setSettings s up : step s (setSettings up s).

Inductive steps : AppState -> AppState -> Prop :=
| steps_refl s : steps s s
| steps_next s s1 s2 : steps s s1 -> step s1 s2 -> steps s s2.

End Forms.

(** What the forms guarantee of the records they write. *)
Definition well_kept (s : AppState) : Prop :=
  (forall t, In t (tanks s) -> tank_name t <> [] /\ trim (tank_name t) = tank_name t)
  /\ (forall a, In a (attempts s) ->
        attempt_name a <> [] /\ lineId a <> [] /\ tankIds a <> [])
  /\ (forall g, In g (groups s) -> group_name g <> [] /\ group_tankId g <> [])
  /\ (forall e, In e (log s) -> title e <> [])
  /\ (forall w k n, In w (water s) ->
        get_param (water_values w) k = Some (Some n) -> isFinite n = true).

(* ===================================================================== *)
(** ** Import *)

(** The check of the import button: [!parsed || typeof parsed !== "object"]
    rejects. *)
Definition import_accepts (parsed : json) : bool :=
  truthy parsed && is_object parsed.

(** The document without any record and with the default settings. *)
Definition empty_loaded : LoadedState :=
  mkLoadedState (mkSettings [] (num_ratio 15 10) makeDefaultLimits)
                [] [] [] [] [] [].

(* ===================================================================== *)
(** ** What is stored *)

(** What [JSON.parse] reads back from what [JSON.stringify] writes for a
    number: the number itself when it is finite (a negative zero comes back
    positive), [null] for NaN and the infinities. *)
Definition stored_number (v : number) : json :=
  match v with
  | S754_zero _ => JNum (S754_zero false)
  | S754_finite _ _ _ => JNum v
  | S754_infinity _ | S754_nan => JNull
  end.

Definition stored_bound (b : option number) : json :=
  match b with
  | Some v => stored_number v
  | None => JNull
  end.

Definition stored_limit (l : Limit) : json :=
  JObj [(lit "min", stored_bound (lim_min l)); (lit "max", stored_bound (lim_max l))].

Definition stored_per_param {A} (enc : A -> json) (r : PerParam A) : json :=
  JObj (map (fun k => (lit (key_name k), enc (get_param r k))) ALL_PARAM_KEYS).

Definition stored_settings (st : Settings) : json :=
  JObj [(lit "breederName", JStr (breederName st));
        (lit "maxPhotoMB", stored_number (maxPhotoMB st));
        (lit "waterLimits", stored_per_param stored_limit (waterLimits st))].

Definition stored_tank (t : Tank) : json :=
  JObj [(lit "id", JStr (tank_id t));
        (lit "name", JStr (tank_name t));
        (lit "volumeL", stored_number (volumeL t));
        (lit "location", JStr (location t));
        (lit "purpose", JStr (purpose t));
        (lit "active", JBool (tank_active t));
        (lit "waterParams", stored_per_param JBool (waterParams t))].

(** A number that storage keeps as it is. *)
Definition keeps_number (v : number) : bool :=
  match v with
  | S754_finite _ _ _ | S754_zero false => true
  | _ => false
  end.

Definition keeps_bound (b : option number) : bool :=
  match b with
  | Some v => keeps_number v
  | None => true
  end.

(** A tank and settings that storage keeps: an id and a name that are not
    empty, numbers that are kept. *)
Definition tank_storable (t : Tank) : bool :=
  negb (str_eqb (tank_id t) []) && negb (str_eqb (tank_name t) [])
  && keeps_number (volumeL t).

Definition settings_storable (st : Settings) : bool :=
  keeps_number (maxPhotoMB st)
  && forallb (fun k => keeps_bound (lim_min (get_param (waterLimits st) k))
                       && keeps_bound (lim_max (get_param (waterLimits st) k)))
             ALL_PARAM_KEYS.

(* ===================================================================== *)
(** ** WaterTab: the chart *)

(** [PARAM_DEFS[k].short] and [PARAM_DEFS[k].unit]. *)
Definition param_short (k : ParamKey) : jsstring :=
  match k with
  | temp => lit "Temp" | ph => lit "pH" | gh => lit "GH" | kh => lit "KH"
  | no2 => lit "NO2" | no3 => lit "NO3" | tds => lit "TDS"
  | cond => 181%N :: lit "S/cm"
  end.

Definition param_unit (k : ParamKey) : jsstring :=
  match k with
  | temp => 176%N :: lit "C"
  | ph => []
  | gh | kh => 176%N :: lit "dH"
  | no2 | no3 => lit "mg/L"
  | tds => lit "ppm"
  | cond => 181%N :: lit "S/cm"
  end.

Record Point := mkPoint {
  xLabel : jsstring;
  point_y : option number
}.

Record Series := mkSeries {
  series_key : ParamKey;
  series_label : jsstring;
  series_unit : jsstring;
  series_points : list Point;
  series_visible : bool
}.

(** The comparator of [waterForTank]: [(a, b) => (a.date > b.date ? 1 : -1)]. *)
Definition byDateAsc (a b : WaterEntry) : Z :=
  if str_ltb (water_date b) (water_date a) then 1%Z else (-1)%Z.

(** [typeof v === "number" ? v : null] for [v = w[k]]. *)
Definition reading (k : ParamKey) (w : WaterEntry) : option number :=
  match get_param (water_values w) k with
  | Some (Some v) => Some v
  | _ => None
  end.

Section Chart.

(** [Array.prototype.sort] on a copy of the water entries. *)
Variable sort_water : (WaterEntry -> WaterEntry -> Z) -> list WaterEntry -> list WaterEntry.
Variable Date_parse : jsstring -> option DateFields.

Definition waterForTank (water_ : list WaterEntry) (tankId : jsstring)
  : list WaterEntry :=
  sort_water byDateAsc (filter (fun w => str_eqb (water_tankId w) tankId) water_).

Definition chartSeries (active : list ParamKey) (forTank : list WaterEntry)
  (visible : ParamKey -> option bool) : list Series :=
  map (fun k =>
         mkSeries k (param_short k) (param_unit k)
           (map (fun w => mkPoint (formatShort Date_parse (water_date w)) (reading k w))
                forTank)
           (match visible k with Some false => false | _ => true end))
      active.

End Chart.

(** What is taken of [sort] on the water entries: a rearrangement, ordered
    when the comparator's answers order the elements totally. *)
Definition water_sort_contract
  (sort_water : (WaterEntry -> WaterEntry -> Z) -> list WaterEntry -> list WaterEntry)
  : Prop :=
  forall cmp l,
    Permutation l (sort_water cmp l)
    /\ ((forall x y z, (cmp x y <= 0)%Z -> (cmp y z <= 0)%Z -> (cmp x z <= 0)%Z) ->
        (forall x y, (cmp x y < 0)%Z \/ (cmp y x <= 0)%Z) ->
        StronglySorted (fun x y => (cmp x y <= 0)%Z) (sort_water cmp l)).

(** One such sort: insertion from the end of the array, each element moving
    right past the elements it compares after. *)
Fixpoint insert_water (cmp : WaterEntry -> WaterEntry -> Z) (x : WaterEntry)
  (l : list WaterEntry) : list WaterEntry :=
  match l with
  | [] => [x]
  | e :: l' => if (0 <? cmp x e)%Z then e :: insert_water cmp x l' else x :: l
  end.

Definition insertion_sort_water (cmp : WaterEntry -> WaterEntry -> Z)
  (l : list WaterEntry) : list WaterEntry :=
  fold_right (insert_water cmp) [] l.

(* ===================================================================== *)
(** ** ZuchtjournalTab: the journal of the selected attempt *)

Section Journal.

Variable sort : (LogEntry -> LogEntry -> Z) -> list LogEntry -> list LogEntry.

(** [logForAttempt]: the entries of the selected attempt, sorted with the
    comparator of the dashboard. *)
Definition logForAttempt (lg : list LogEntry) (sel : option Attempt) : list LogEntry :=
  match sel with
  | Some _ => sort byDateDesc (logEntriesOf lg sel)
  | None => []
  end.

End Journal.

(* ===================================================================== *)
(** ** The selection of WaterTab and ZuchtjournalTab *)

(** The initial selection: the id of the first record, or the empty string. *)
Definition initial_selection (ids : list jsstring) : jsstring :=
  match ids with
  | first :: _ => first
  | [] => []
  end.

(** The effect that follows the selection up, on the ids of the records
    ([props.tanks] in [WaterTab], [props.attempts] in [ZuchtjournalTab]):
    an empty selection, or one that names no record, becomes the id of the
    first record, if there is a record. *)
Definition reselect (ids : list jsstring) (cur : jsstring) : jsstring :=
  match ids with
  | [] => cur
  | first :: _ =>
      if str_eqb cur [] then first
      else if negb (existsb (fun i => str_eqb i cur) ids) then first
      else cur
  end.

(* ===================================================================== *)
(** ** Helpers: clamp *)

(** [Math.max(x, y)] and [Math.min(x, y)]: NaN as soon as one side is NaN;
    of two zeros, the positive one is the greater. *)
Definition js_max (x y : number) : number :=
  match SFcompare x y with
  | None => S754_nan
  | Some Lt => y
  | Some Gt => x
  | Some Eq => match x with S754_zero true => y | _ => x end
  end.

Definition js_min (x y : number) : number :=
  match SFcompare x y with
  | None => S754_nan
  | Some Lt => x
  | Some Gt => y
  | Some Eq => match x with S754_zero false => y | _ => x end
  end.

(** [clamp(n, min, max)]. *)
Definition clamp (n min max : number) : number := js_max min (js_min max n).

(** [a <= b] and [a === b] on numbers. *)
Definition num_le (a b : number) : bool := SFleb a b.
Definition num_eq (a b : number) : bool := SFeqb a b.

Definition is_nan (n : number) : bool :=
  match n with
  | S754_nan => true
  | _ => false
  end.

(* ===================================================================== *)
(** * Properties *)

(** ** Strings *)

Lemma str_eqb_eq (a b : jsstring) : str_eqb a b = true <-> a = b.
Proof.
  revert b; induction a as [|x a IH]; intros [|y b]; simpl; split;
    try congruence; try reflexivity.
  - intros H. apply andb_true_iff in H as [Hx Hab].
    apply N.eqb_eq in Hx. apply IH in Hab. congruence.
  - intros H. injection H as -> ->.
    rewrite N.eqb_refl. simpl. now apply IH.
Qed.

Lemma str_eqb_refl (a : jsstring) : str_eqb a a = true.
Proof. now apply str_eqb_eq. Qed.

Lemma str_eqb_neq (a b : jsstring) : str_eqb a b = false <-> a <> b.
Proof.
  split.
  - intros H E. apply str_eqb_eq in E. congruence.
  - intros H. destruct (str_eqb a b) eqn:E; [|reflexivity].
    apply str_eqb_eq in E. contradiction.
Qed.

Lemma str_eqb_sym (a b : jsstring) : str_eqb a b = str_eqb b a.
Proof.
  destruct (str_eqb a b) eqn:E.
  - apply str_eqb_eq in E. subst. symmetry. apply str_eqb_refl.
  - symmetry. apply str_eqb_neq. apply str_eqb_neq in E. congruence.
Qed.

Lemma str_ltb_irrefl (a : jsstring) : str_ltb a a = false.
Proof.
  induction a as [|x a IH]; simpl; [reflexivity|].
  now rewrite N.ltb_irrefl, N.eqb_refl.
Qed.

Lemma str_ltb_trans (a b c : jsstring) :
  str_ltb a b = true -> str_ltb b c = true -> str_ltb a c = true.
Proof.
  revert b c; induction a as [|x a IH]; intros [|y b] [|z c]; simpl;
    try congruence.
  destruct (N.ltb_spec x y), (N.ltb_spec y z), (N.ltb_spec x z);
    try reflexivity; try lia;
    destruct (N.eqb_spec x y), (N.eqb_spec y z), (N.eqb_spec x z);
    try congruence; try lia.
  apply IH.
Qed.

(** Two strings are equal, or one is below the other. *)
Lemma str_ltb_total (a b : jsstring) :
  str_ltb a b = true \/ a = b \/ str_ltb b a = true.
Proof.
  revert b; induction a as [|x a IH]; intros [|y b]; simpl; auto.
  destruct (N.ltb_spec x y), (N.ltb_spec y x); auto; try lia.
  assert (x = y) by lia. subst. rewrite N.eqb_refl.
  destruct (IH b) as [H1|[H1|H1]]; auto.
  right; left; congruence.
Qed.

Lemma str_ltb_asym (a b : jsstring) :
  str_ltb a b = true -> str_ltb b a = false.
Proof.
  intros H. destruct (str_ltb b a) eqn:E; [|reflexivity].
  pose proof (str_ltb_trans _ _ _ H E) as F.
  now rewrite str_ltb_irrefl in F.
Qed.

(** "Not below" is transitive: the order on dates is total. *)
Lemma str_ltb_false_trans (a b c : jsstring) :
  str_ltb a b = false -> str_ltb b c = false -> str_ltb a c = false.
Proof.
  intros Hab Hbc. destruct (str_ltb a c) eqn:Hac; [|reflexivity].
  destruct (str_ltb_total a b) as [H|[H|H]]; [congruence|subst; congruence|].
  pose proof (str_ltb_trans _ _ _ H Hac). congruence.
Qed.

Lemma trimStart_no_ws (s : jsstring) :
  forallb (fun c => negb (is_ws c)) s = true -> trimStart s = s.
Proof.
  destruct s as [|c s]; simpl; [reflexivity|].
  intros H. apply andb_true_iff in H as [Hc _].
  apply negb_true_iff in Hc. now rewrite Hc.
Qed.

Lemma trim_no_ws (s : jsstring) :
  forallb (fun c => negb (is_ws c)) s = true -> trim s = s.
Proof.
  intros H. unfold trim, trimEnd. rewrite (trimStart_no_ws _ H).
  rewrite trimStart_no_ws; [apply rev_involutive|].
  apply forallb_forall. intros c Hc. apply in_rev in Hc.
  now apply (proj1 (forallb_forall _ _) H).
Qed.

Lemma trimStart_all_ws (s : jsstring) :
  forallb is_ws s = true -> trimStart s = [].
Proof.
  induction s as [|c s IH]; simpl; [reflexivity|].
  intros H. apply andb_true_iff in H as [Hc Hs]. rewrite Hc. now apply IH.
Qed.

Lemma trim_all_ws (s : jsstring) : forallb is_ws s = true -> trim s = [].
Proof.
  intros H. unfold trim, trimEnd. now rewrite (trimStart_all_ws _ H).
Qed.

(** What [trim] returns never starts with white space. *)
Lemma trimStart_head (s : jsstring) :
  match trimStart s with
  | [] => True
  | c :: _ => is_ws c = false
  end.
Proof.
  induction s as [|c s IH]; simpl; [exact I|].
  destruct (is_ws c) eqn:E; [exact IH | exact E].
Qed.

(** [trimStart] drops a prefix of white space and nothing else. *)
Lemma trimStart_split (s : jsstring) :
  exists w, s = w ++ trimStart s /\ forallb is_ws w = true.
Proof.
  induction s as [|c s (w & Hs & Hw)]; simpl.
  - now exists [].
  - destruct (is_ws c) eqn:E.
    + exists (c :: w). simpl. rewrite E, Hw. split; [congruence|reflexivity].
    + now exists [].
Qed.

Lemma replace_first_comma (a b : jsstring) :
  forallb (fun c => negb (c =? 44)%N) a = true ->
  replace (lit ",") (lit ".") (a ++ lit "," ++ b) = a ++ lit "." ++ b.
Proof.
  induction a as [|x a IH]; intros H.
  - reflexivity.
  - simpl in H. apply andb_true_iff in H as [Hx Ha].
    apply negb_true_iff in Hx.
    change (replace (lit ",") (lit ".") ((x :: a) ++ lit "," ++ b))
      with (if (44 =? x)%N && true
            then lit "." ++ (a ++ lit "," ++ b)
            else x :: replace (lit ",") (lit ".") (a ++ lit "," ++ b)).
    rewrite N.eqb_sym, Hx. cbn [andb]. rewrite (IH Ha). reflexivity.
Qed.

Lemma replace_no_comma (s : jsstring) :
  forallb (fun c => negb (c =? 44)%N) s = true ->
  replace (lit ",") (lit ".") s = s.
Proof.
  induction s as [|x s IH]; intros H.
  - reflexivity.
  - simpl in H. apply andb_true_iff in H as [Hx Hs].
    apply negb_true_iff in Hx.
    change (replace (lit ",") (lit ".") (x :: s))
      with (if (44 =? x)%N && true
            then lit "." ++ s
            else x :: replace (lit ",") (lit ".") s).
    rewrite N.eqb_sym, Hx. cbn [andb]. rewrite (IH Hs). reflexivity.
Qed.

Lemma digit_not_ws (c : N) : is_digit c = true -> is_ws c = false.
Proof.
  unfold is_digit, is_ws. intros H.
  apply andb_true_iff in H as [H1 H2].
  apply N.leb_le in H1. apply N.leb_le in H2.
  repeat match goal with
         | |- context [(?a <=? ?b)%N] => destruct (N.leb_spec a b); try lia
         | |- context [(?a =? ?b)%N] => destruct (N.eqb_spec a b); try lia
         end; reflexivity.
Qed.

Lemma digit_not_comma (c : N) : is_digit c = true -> (c =? 44)%N = false.
Proof.
  unfold is_digit. intros H. apply andb_true_iff in H as [H1 H2].
  apply N.leb_le in H1. apply N.eqb_neq. lia.
Qed.

Lemma forallb_impl {A} (f g : A -> bool) (l : list A) :
  (forall x, f x = true -> g x = true) ->
  forallb f l = true -> forallb g l = true.
Proof.
  intros Hfg H. apply forallb_forall. intros x Hx.
  apply Hfg. now apply (proj1 (forallb_forall _ _) H).
Qed.

(** A number with a separator between two runs of digits holds no white
    space, and no comma but the separator. *)
Lemma digits_sep_no_ws (a b : jsstring) (sep : N) :
  forallb is_digit a = true -> forallb is_digit b = true ->
  is_ws sep = false ->
  forallb (fun c => negb (is_ws c)) (a ++ [sep] ++ b) = true.
Proof.
  intros Ha Hb Hs. rewrite !forallb_app. simpl. rewrite Hs. simpl.
  rewrite (forallb_impl _ (fun c => negb (is_ws c)) _
             (fun c H => proj2 (negb_true_iff _) (digit_not_ws c H)) Ha).
  rewrite (forallb_impl _ (fun c => negb (is_ws c)) _
             (fun c H => proj2 (negb_true_iff _) (digit_not_ws c H)) Hb).
  reflexivity.
Qed.

Lemma digits_no_comma (a : jsstring) :
  forallb is_digit a = true ->
  forallb (fun c => negb (c =? 44)%N) a = true.
Proof.
  apply forallb_impl. intros c H. apply negb_true_iff.
  now apply digit_not_comma.
Qed.

(** ** Numbers *)

Lemma SFltb_irrefl (x : number) : SFltb x x = false.
Proof.
  destruct x as [s|s| |s m e]; try destruct s; unfold SFltb; simpl;
    try reflexivity;
    now rewrite Z.compare_refl, Pos.compare_cont_refl.
Qed.

Lemma SFcompare_Eq_sym (x y : number) :
  SFcompare x y = Some Eq -> SFcompare y x = Some Eq.
Proof.
  destruct x as [s|s| |s m e], y as [s'|s'| |s' m' e'];
    try destruct s; try destruct s'; simpl; try congruence.
  - destruct (Z.compare_spec e e'); try congruence. subst.
    rewrite Z.compare_refl. intros H. injection H as H.
    apply (f_equal CompOpp) in H. rewrite CompOpp_involutive in H. simpl in H.
    apply Pos.compare_eq in H. subst. now rewrite Pos.compare_cont_refl.
  - destruct (Z.compare_spec e e'); try congruence. subst.
    rewrite Z.compare_refl. intros H. injection H as H.
    apply Pos.compare_eq in H. subst. now rewrite Pos.compare_cont_refl.
Qed.

Lemma SFcompare_antisym (x y : number) (c : comparison) :
  SFcompare x y = Some c -> SFcompare y x = Some (CompOpp c).
Proof.
  destruct x as [sx|sx| |sx mx ex], y as [sy|sy| |sy my ey]; cbn;
    try discriminate; intros H; injection H as <-;
    try (destruct sx; reflexivity); try (destruct sy; reflexivity);
    try (destruct sx, sy; reflexivity).
  destruct sx, sy; try reflexivity.
  - rewrite (Z.compare_antisym ex ey). destruct (ex ?= ey)%Z; cbn; try reflexivity.
    rewrite CompOpp_involutive, (Pos.compare_cont_antisym my mx Eq). reflexivity.
  - rewrite (Z.compare_antisym ex ey). destruct (ex ?= ey)%Z; cbn; try reflexivity.
    now rewrite (Pos.compare_cont_antisym mx my Eq).
Qed.

Arguments SFcompare_antisym : clear implicits.

(** With [a <= b], [b] is not below [a]. *)
Lemma num_le_not_lt (a b : number) : num_le a b = true -> num_lt b a = false.
Proof.
  unfold num_le, num_lt, SFleb, SFltb. intros H.
  destruct (SFcompare a b) as [c|] eqn:E; [|discriminate].
  rewrite (SFcompare_antisym _ _ _ E). now destruct c.
Qed.

(** Numbers that are equal for [===] are not below one another. *)
Lemma SFeqb_not_ltb (x y : number) :
  SFeqb x y = true -> SFltb x y = false /\ SFltb y x = false.
Proof.
  unfold SFeqb, SFltb. intros H.
  destruct (SFcompare x y) as [[| |]|] eqn:E; try discriminate.
  now rewrite (SFcompare_Eq_sym _ _ E).
Qed.

(** ** [inRange] *)

Lemma inRange_at_min (v : number) (mx : option number) :
  inRange (Some v) (mkLimit (Some v) mx) <> low.
Proof.
  unfold inRange, num_lt, num_gt. simpl. rewrite SFltb_irrefl.
  destruct mx as [m|]; [destruct (SFltb m v)|]; discriminate.
Qed.

Lemma inRange_at_max (v : number) (mn : option number) :
  inRange (Some v) (mkLimit mn (Some v)) <> high.
Proof.
  unfold inRange, num_lt, num_gt. simpl. rewrite SFltb_irrefl.
  destruct mn as [m|]; [destruct (SFltb v m)|]; discriminate.
Qed.

(** C4, as stated, fails where it says that a value equal to a configured
    bound is [ok].  Both limit fields take any number, so the minimum may lie
    above the maximum: against the limits 5..4 the value 5, equal to the
    minimum, is [high], and the value 4, equal to the maximum, is [low]. *)
Lemma inRange_at_bound_not_ok :
  inRange (Some (num_of_Z 5)) (mkLimit (Some (num_of_Z 5)) (Some (num_of_Z 4))) = high
  /\ inRange (Some (num_of_Z 4)) (mkLimit (Some (num_of_Z 5)) (Some (num_of_Z 4))) = low
  /\ ~ (forall v mn mx, v = mn \/ v = mx ->
          inRange (Some v) (mkLimit (Some mn) (Some mx)) = ok).
Proof.
  assert (H : inRange (Some (num_of_Z 5))
                      (mkLimit (Some (num_of_Z 5)) (Some (num_of_Z 4))) = high)
    by (vm_compute; reflexivity).
  split; [exact H|]. split; [vm_compute; reflexivity|].
  intros C. rewrite (C _ _ _ (or_introl eq_refl)) in H. discriminate H.
Qed.

(** C4, amended.  [inRange] classifies a reading against its limits: [na]
    for an absent value; [low] exactly when a minimum is configured and the
    value is below it; [high] exactly when the value is not low, a maximum is
    configured and the value is above it; [ok] in every other case.  Bounds
    are inclusive: a value equal to the minimum is never low, a value equal to
    the maximum is never high; a value equal to a bound is [ok] when that is
    the only bound, and with both bounds exactly when it does not violate
    the other one, so always when the minimum is not above the maximum;
    when the maximum is below the minimum, the minimum itself is [high] and
    the maximum itself [low].  Without bounds every value is [ok]. *)
Theorem inRange_classifies (v : number) (lim : Limit) :
  inRange None lim = na
  /\ (inRange (Some v) lim = low <->
      exists mn, lim_min lim = Some mn /\ num_lt v mn = true)
  /\ (inRange (Some v) lim = high <->
      ~ (exists mn, lim_min lim = Some mn /\ num_lt v mn = true)
      /\ exists mx, lim_max lim = Some mx /\ num_gt v mx = true)
  /\ (inRange (Some v) lim = ok <->
      ~ (exists mn, lim_min lim = Some mn /\ num_lt v mn = true)
      /\ ~ (exists mx, lim_max lim = Some mx /\ num_gt v mx = true))
  /\ inRange (Some v) lim <> na
  /\ (forall mx, inRange (Some v) (mkLimit (Some v) mx) <> low)
  /\ (forall mn, inRange (Some v) (mkLimit mn (Some v)) <> high)
  /\ inRange (Some v) (mkLimit (Some v) None) = ok
  /\ inRange (Some v) (mkLimit None (Some v)) = ok
  /\ inRange (Some v) (mkLimit (Some v) (Some v)) = ok
  /\ (forall b, SFeqb v b = true ->
        inRange (Some v) (mkLimit (Some b) (Some b)) = ok)
  /\ inRange (Some v) (mkLimit None None) = ok
  /\ (forall mx, inRange (Some v) (mkLimit (Some v) (Some mx)) = ok
                 <-> num_gt v mx = false)
  /\ (forall mn, inRange (Some v) (mkLimit (Some mn) (Some v)) = ok
                 <-> num_lt v mn = false)
  /\ (forall mn mx, num_le mn mx = true ->
        inRange (Some mn) (mkLimit (Some mn) (Some mx)) = ok
        /\ inRange (Some mx) (mkLimit (Some mn) (Some mx)) = ok)
  /\ (forall mn mx, num_lt mx mn = true ->
        inRange (Some mn) (mkLimit (Some mn) (Some mx)) = high
        /\ inRange (Some mx) (mkLimit (Some mn) (Some mx)) = low).
Proof.
  split; [reflexivity|].
  assert (Hlow : inRange (Some v) lim = low <->
                 exists mn, lim_min lim = Some mn /\ num_lt v mn = true).
  { unfold inRange. destruct lim as [[mn|] [mx|]]; simpl.
    - destruct (num_lt v mn) eqn:E.
      + split; [exists mn; auto | reflexivity].
      + split; [destruct (num_gt v mx); discriminate|].
        intros (m & Hm & Hlt). congruence.
    - destruct (num_lt v mn) eqn:E.
      + split; [exists mn; auto | reflexivity].
      + split; [discriminate|]. intros (m & Hm & Hlt). congruence.
    - split; [destruct (num_gt v mx); discriminate|].
      intros (m & Hm & _). discriminate.
    - split; [discriminate|]. intros (m & Hm & _). discriminate. }
  assert (Hhigh : inRange (Some v) lim = high <->
                  ~ (exists mn, lim_min lim = Some mn /\ num_lt v mn = true)
                  /\ exists mx, lim_max lim = Some mx /\ num_gt v mx = true).
  { rewrite <- Hlow. unfold inRange. destruct lim as [[mn|] [mx|]]; simpl;
      try destruct (num_lt v mn) eqn:E; try destruct (num_gt v mx) eqn:F;
      split; try discriminate; try tauto;
      try (intros _; split; [discriminate | exists mx; auto]);
      try (intros [_ (m & Hm & Hgt)]; congruence). }
  assert (Hok : inRange (Some v) lim = ok <->
                ~ (exists mn, lim_min lim = Some mn /\ num_lt v mn = true)
                /\ ~ (exists mx, lim_max lim = Some mx /\ num_gt v mx = true)).
  { split.
    - intros H. split.
      + intros C. apply Hlow in C. congruence.
      + intros C. destruct (inRange (Some v) lim) eqn:E; try discriminate.
        assert (ok = high); [|discriminate].
        apply Hhigh. split; [|exact C].
        intros D. apply Hlow in D. discriminate.
    - intros [Hl Hh]. unfold inRange.
      destruct (match lim_min lim with Some mn => num_lt v mn | None => false end) eqn:E.
      + exfalso. apply Hl. destruct (lim_min lim) as [mn|]; [|discriminate].
        exists mn; auto.
      + destruct (match lim_max lim with Some mx => num_gt v mx | None => false end) eqn:F;
          [|reflexivity].
        exfalso. apply Hh. destruct (lim_max lim) as [mx|]; [|discriminate].
        exists mx; auto. }
  split; [exact Hlow|]. split; [exact Hhigh|]. split; [exact Hok|].
  split.
  { unfold inRange.
    destruct (match lim_min lim with Some mn => num_lt v mn | None => false end);
      [discriminate|].
    destruct (match lim_max lim with Some mx => num_gt v mx | None => false end);
      discriminate. }
  split; [intros mx; apply inRange_at_min|].
  split; [intros mn; apply inRange_at_max|].
  split; [unfold inRange, num_lt; simpl; now rewrite SFltb_irrefl|].
  split; [unfold inRange, num_gt; simpl; now rewrite SFltb_irrefl|].
  split; [unfold inRange, num_lt, num_gt; simpl; now rewrite SFltb_irrefl|].
  split.
  { intros b Hb. apply SFeqb_not_ltb in Hb as [H1 H2].
    unfold inRange, num_lt, num_gt. simpl. now rewrite H1, H2. }
  split; [reflexivity|].
  split.
  { intros mx. unfold inRange, num_lt. cbn [lim_min lim_max].
    rewrite SFltb_irrefl. destruct (num_gt v mx); split; congruence. }
  split.
  { intros mn. unfold inRange, num_gt. cbn [lim_min lim_max].
    rewrite SFltb_irrefl. destruct (num_lt v mn); split; congruence. }
  split.
  { intros mn mx Hle. pose proof (num_le_not_lt _ _ Hle) as Hn.
    unfold inRange, num_gt, num_lt in *. cbn [lim_min lim_max].
    now rewrite !SFltb_irrefl, Hn. }
  intros mn mx Hlt. unfold inRange, num_gt, num_lt in *. cbn [lim_min lim_max].
  now rewrite !SFltb_irrefl, Hlt.
Qed.

(** The cases the spec lists: 5 against a minimum of 6, a maximum of 4, both
    bounds 5, and no bound; 25.2 against 22..28 and against 26..28. *)
Example inRange_examples :
  inRange (Some (num_of_Z 5)) (mkLimit (Some (num_of_Z 6)) None) = low
  /\ inRange (Some (num_of_Z 5)) (mkLimit None (Some (num_of_Z 4))) = high
  /\ inRange (Some (num_of_Z 5)) (mkLimit (Some (num_of_Z 5)) (Some (num_of_Z 5))) = ok
  /\ inRange (Some (num_of_Z 5)) (mkLimit None None) = ok
  /\ inRange (Some (num_ratio 252 10))
             (mkLimit (Some (num_of_Z 22)) (Some (num_of_Z 28))) = ok
  /\ inRange (Some (num_ratio 252 10))
             (mkLimit (Some (num_of_Z 26)) (Some (num_of_Z 28))) = low
  /\ inRange (Some S754_nan) (mkLimit (Some (num_of_Z 6)) (Some (num_of_Z 4))) = ok.
Proof. repeat split; vm_compute; reflexivity. Qed.

(** ** [parseNumOrNull] and the water-entry form *)

Lemma ParamKey_eqb_eq (a b : ParamKey) : ParamKey_eqb a b = true <-> a = b.
Proof. destruct a, b; simpl; split; congruence. Qed.

Lemma get_set_param {A} (r : PerParam A) (k k' : ParamKey) (v : A) :
  get_param (set_param r k v) k' = if ParamKey_eqb k' k then v else get_param r k'.
Proof. destruct k, k'; reflexivity. Qed.

(** A slot after a [forEach] that writes [f k] under every key of [l]. *)
Lemma get_fold_set_param {A} (f : ParamKey -> A) (l : list ParamKey)
  (init : PerParam A) (k : ParamKey) :
  get_param (fold_left (fun p k' => set_param p k' (f k')) l init) k
  = if existsb (ParamKey_eqb k) l then f k else get_param init k.
Proof.
  revert init; induction l as [|a l IH]; intros init; simpl; [reflexivity|].
  rewrite IH, get_set_param.
  destruct (ParamKey_eqb k a) eqn:E; simpl.
  - apply ParamKey_eqb_eq in E. subst. now destruct (existsb _ l).
  - reflexivity.
Qed.

Lemma parseNumOrNull_cases (Number : jsstring -> number) (s : jsstring) :
  parseNumOrNull Number s = None
  \/ exists n, parseNumOrNull Number s = Some n /\ isFinite n = true.
Proof.
  unfold parseNumOrNull.
  destruct (str_eqb _ []); [now left|].
  destruct (isFinite (Number _)) eqn:E; [right; eauto | now left].
Qed.

(** C9. [parseNumOrNull] is a total function whose result is [null] or a
    finite number, never NaN and never an infinity, whatever [Number] reads;
    so every parameter slot the water-entry form writes into its payload is
    [null] or a finite number (the slots of inactive keys stay absent), and
    [addWater] stores the payload as it is, under a new id, in front. *)
Theorem parseNumOrNull_never_non_finite
  (Number : jsstring -> number) (s : jsstring)
  (today tankId date note : jsstring) (values : ParamKey -> option jsstring)
  (active : list ParamKey) (k : ParamKey) (fresh : jsstring) (st : AppState) :
  (parseNumOrNull Number s = None
   \/ exists n, parseNumOrNull Number s = Some n /\ isFinite n = true
                /\ n <> S754_nan /\ forall sg, n <> S754_infinity sg)
  /\ (let p := newWaterPayload Number today tankId date note values active in
      match get_param (payload_values p) k with
      | None => existsb (ParamKey_eqb k) active = false
      | Some None => existsb (ParamKey_eqb k) active = true
      | Some (Some n) =>
          existsb (ParamKey_eqb k) active = true /\ isFinite n = true
          /\ n <> S754_nan /\ forall sg, n <> S754_infinity sg
      end
      /\ water (addWater fresh p st)
         = mkWaterEntry fresh tankId (payload_date p) note (payload_values p)
             :: water st).
Proof.
  assert (Hfin : forall n, isFinite n = true ->
                 n <> S754_nan /\ forall sg, n <> S754_infinity sg).
  { intros n Hn. split; [|intros sg]; intros ->; discriminate. }
  split.
  - destruct (parseNumOrNull_cases Number s) as [H|(n & H & Hn)]; [now left|].
    right. exists n. destruct (Hfin n Hn). auto.
  - cbv zeta. split; [|reflexivity].
    unfold newWaterPayload. cbn [payload_values].
    rewrite (get_fold_set_param
               (fun k' => Some (parseNumOrNull Number (or_empty (values k'))))).
    destruct (existsb (ParamKey_eqb k) active); [|now destruct k].
    destruct (parseNumOrNull_cases Number (or_empty (values k)))
      as [H|(n & H & Hn)]; rewrite H; [reflexivity|].
    destruct (Hfin n Hn). auto.
Qed.

(** [trimStart] passes over leading white space, and keeps what follows a
    text that is not white space alone. *)
Lemma trimStart_skip_ws (w t : jsstring) :
  forallb is_ws w = true -> trimStart (w ++ t) = trimStart t.
Proof.
  induction w as [|c w IH]; intros Hw; [reflexivity|].
  cbn [forallb] in Hw. apply andb_true_iff in Hw as [Hc Hw].
  cbn [app trimStart]. rewrite Hc. now apply IH.
Qed.

Lemma trimStart_app_ws (s w : jsstring) :
  forallb is_ws w = true ->
  trimStart (s ++ w) = match trimStart s with
                       | [] => []
                       | _ :: _ => trimStart s ++ w
                       end.
Proof.
  intros Hw. induction s as [|c s IH]; cbn [app trimStart].
  - now apply trimStart_all_ws.
  - destruct (is_ws c); [exact IH | reflexivity].
Qed.

(** [trim] drops the white space on both sides, whatever stands between. *)
Lemma trim_ws_around (w1 s w2 : jsstring) :
  forallb is_ws w1 = true -> forallb is_ws w2 = true ->
  trim (w1 ++ s ++ w2) = trim s.
Proof.
  intros H1 H2. unfold trim. rewrite (trimStart_skip_ws w1 _ H1).
  rewrite (trimStart_app_ws s w2 H2).
  destruct (trimStart s) as [|c t]; [reflexivity|].
  unfold trimEnd. rewrite rev_app_distr. f_equal.
  apply trimStart_skip_ws. rewrite forallb_forall in *.
  intros x Hx. apply H2. now apply in_rev.
Qed.

(** C10. [parseNumOrNull] reads a decimal comma.  The input is trimmed on
    both sides: white space around a text does not change the result.  The
    first comma, and only the first, becomes a dot before [Number] reads the
    text: for digit strings [a] and [b] the text [a,b], with or without
    white space around it, gives what [a.b] gives, namely the finite check
    of [Number] on [a.b].  White space alone, the empty string included,
    gives [null]; and ["25,2"] gives 25.2 as soon as [Number] reads ["25.2"]
    so. *)
Theorem parseNumOrNull_decimal_comma
  (Number : jsstring -> number) (a b : jsstring)
  (Ha : forallb is_digit a = true) (Hb : forallb is_digit b = true) :
  parseNumOrNull Number (a ++ lit "," ++ b)
  = parseNumOrNull Number (a ++ lit "." ++ b)
  /\ parseNumOrNull Number (a ++ lit "," ++ b)
     = (if isFinite (Number (a ++ lit "." ++ b))
        then Some (Number (a ++ lit "." ++ b)) else None)
  /\ (forall s, forallb is_ws s = true -> parseNumOrNull Number s = None)
  /\ parseNumOrNull Number [] = None
  /\ (Number (lit "25.2") = num_ratio 252 10 ->
      parseNumOrNull Number (lit "25,2") = Some (num_ratio 252 10))
  /\ (forall s w1 w2, forallb is_ws w1 = true -> forallb is_ws w2 = true ->
        parseNumOrNull Number (w1 ++ s ++ w2) = parseNumOrNull Number s)
  /\ (forall w1 w2, forallb is_ws w1 = true -> forallb is_ws w2 = true ->
        parseNumOrNull Number (w1 ++ (a ++ lit "," ++ b) ++ w2)
        = (if isFinite (Number (a ++ lit "." ++ b))
           then Some (Number (a ++ lit "." ++ b)) else None))
  /\ (forall c, forallb is_digit c = true ->
        parseNumOrNull Number (a ++ lit "," ++ b ++ lit "," ++ c)
        = (if isFinite (Number (a ++ lit "." ++ b ++ lit "," ++ c))
           then Some (Number (a ++ lit "." ++ b ++ lit "," ++ c)) else None)).
Proof.
  assert (Hc : parseNumOrNull Number (a ++ lit "," ++ b)
               = (if isFinite (Number (a ++ lit "." ++ b))
                  then Some (Number (a ++ lit "." ++ b)) else None)).
  { unfold parseNumOrNull.
    rewrite (trim_no_ws (a ++ lit "," ++ b))
      by (apply (digits_sep_no_ws a b 44%N); auto).
    rewrite replace_first_comma by (now apply digits_no_comma).
    destruct (str_eqb (a ++ lit "." ++ b) []) eqn:E; [|reflexivity].
    apply str_eqb_eq in E. now destruct a. }
  assert (Hd : parseNumOrNull Number (a ++ lit "." ++ b)
               = (if isFinite (Number (a ++ lit "." ++ b))
                  then Some (Number (a ++ lit "." ++ b)) else None)).
  { unfold parseNumOrNull.
    rewrite (trim_no_ws (a ++ lit "." ++ b))
      by (apply (digits_sep_no_ws a b 46%N); auto).
    rewrite replace_no_comma.
    - destruct (str_eqb (a ++ lit "." ++ b) []) eqn:E; [|reflexivity].
      apply str_eqb_eq in E. now destruct a.
    - rewrite !forallb_app. rewrite (digits_no_comma _ Ha), (digits_no_comma _ Hb).
      reflexivity. }
  assert (Hw : forall s w1 w2, forallb is_ws w1 = true -> forallb is_ws w2 = true ->
               parseNumOrNull Number (w1 ++ s ++ w2) = parseNumOrNull Number s).
  { intros s w1 w2 H1 H2. unfold parseNumOrNull.
    now rewrite (trim_ws_around w1 s w2 H1 H2). }
  split; [congruence|]. split; [exact Hc|].
  split; [|split; [|split; [|split; [|split]]]].
  - intros s Hs. unfold parseNumOrNull. now rewrite (trim_all_ws _ Hs).
  - reflexivity.
  - intros HN. unfold parseNumOrNull.
    change (replace (lit ",") (lit ".") (trim (lit "25,2"))) with (lit "25.2").
    rewrite HN. reflexivity.
  - exact Hw.
  - intros w1 w2 H1 H2. now rewrite (Hw _ w1 w2 H1 H2).
  - intros c Hcd. unfold parseNumOrNull.
    assert (Hbc : forallb (fun x => negb (is_ws x)) (b ++ lit "," ++ c) = true)
      by (apply (digits_sep_no_ws b c 44%N); auto).
    rewrite (trim_no_ws (a ++ lit "," ++ b ++ lit "," ++ c)).
    + rewrite (replace_first_comma a (b ++ lit "," ++ c))
        by (now apply digits_no_comma).
      destruct (str_eqb (a ++ lit "." ++ b ++ lit "," ++ c) []) eqn:E; [|reflexivity].
      apply str_eqb_eq in E. now destruct a.
    + rewrite forallb_app. cbn [lit list_ascii_of_string map app forallb].
      rewrite (forallb_impl _ (fun x => negb (is_ws x)) _
                 (fun x Hx => proj2 (negb_true_iff _) (digit_not_ws x Hx)) Ha).
      exact Hbc.
Qed.

Lemma parseNumOrNull_decimal_comma_witness :
  parseNumOrNull Number_plain (lit "25" ++ lit "," ++ lit "2")
  = parseNumOrNull Number_plain (lit "25" ++ lit "." ++ lit "2")
  /\ parseNumOrNull Number_plain (lit "25,2") = Some (num_ratio 252 10)
  /\ parseNumOrNull Number_plain (lit " " ++ (lit "25" ++ lit "," ++ lit "2") ++ lit "  ")
     = Some (num_ratio 252 10).
Proof.
  destruct (parseNumOrNull_decimal_comma Number_plain (lit "25") (lit "2")
              eq_refl eq_refl) as (H1 & _ & _ & _ & H5 & _ & H7 & _).
  split; [exact H1|]. split; [apply H5; vm_compute; reflexivity|].
  rewrite (H7 (lit " ") (lit "  ") eq_refl eq_refl). vm_compute. reflexivity.
Defined.

(** ** Lists under [filter] and [map] *)

Unset Implicit Arguments.

Lemma filter_all {A} (f : A -> bool) (l : list A) :
  (forall x, In x l -> f x = true) -> filter f l = l.
Proof.
  induction l as [|x l IH]; intros H; simpl; [reflexivity|].
  rewrite (H x (or_introl eq_refl)). f_equal. apply IH.
  intros y Hy. apply H. now right.
Qed.

Lemma filter_length_le {A} (f : A -> bool) (l : list A) :
  (List.length (filter f l) <= List.length l)%nat.
Proof.
  induction l as [|x l IH]; simpl; [lia|]. destruct (f x); simpl; lia.
Qed.

(** A filter that keeps the list keeps every element. *)
Lemma filter_fixed {A} (f : A -> bool) (l : list A) :
  filter f l = l -> forall x, In x l -> f x = true.
Proof.
  induction l as [|y l IH]; simpl; intros H x Hx; [contradiction|].
  destruct (f y) eqn:E.
  - injection H as H. destruct Hx as [->|Hx]; [exact E | now apply IH].
  - exfalso. pose proof (filter_length_le f l) as L.
    rewrite H in L. simpl in L. lia.
Qed.

Lemma map_fixed {A} (g : A -> A) (l : list A) :
  map g l = l -> forall x, In x l -> g x = x.
Proof.
  induction l as [|y l IH]; simpl; intros H x Hx; [contradiction|].
  injection H as H1 H2. destruct Hx as [->|Hx]; [exact H1 | now apply IH].
Qed.

Lemma map_all_fixed {A} (g : A -> A) (l : list A) :
  (forall x, In x l -> g x = x) -> map g l = l.
Proof.
  induction l as [|y l IH]; simpl; intros H; [reflexivity|].
  rewrite (H y (or_introl eq_refl)). f_equal. apply IH.
  intros x Hx. apply H. now right.
Qed.

Lemma filter_full_length {A} (f : A -> bool) (m : list A) :
  List.length (filter f m) = List.length m -> filter f m = m.
Proof.
  induction m as [|y m IH]; simpl; [reflexivity|].
  destruct (f y); simpl; intros L.
  - f_equal. apply IH. lia.
  - pose proof (filter_length_le f m). lia.
Qed.

(** Filtering after a map gives the list back only if both steps keep it. *)
Lemma filter_map_fixed {A} (f : A -> bool) (g : A -> A) (l : list A) :
  filter f (map g l) = l -> map g l = l /\ filter f l = l.
Proof.
  intros H.
  assert (E : filter f (map g l) = map g l).
  { apply filter_full_length. rewrite H. now rewrite length_map. }
  rewrite E in H. split; [exact H|]. now rewrite H in E.
Qed.

Lemma filter_neq_not_In (id : jsstring) (l : list jsstring) :
  ~ In id (filter (fun x => negb (str_eqb x id)) l).
Proof.
  intros H. apply filter_In in H as [_ H].
  now rewrite str_eqb_refl in H.
Qed.

Lemma negb_str_eqb_true (a b : jsstring) :
  negb (str_eqb a b) = true <-> a <> b.
Proof. rewrite negb_true_iff. apply str_eqb_neq. Qed.

(** Membership after a filter on "the key is not [id]". *)
Lemma In_filter_key {A} (key : A -> jsstring) (id : jsstring) (l : list A) (x : A) :
  In x (filter (fun y => negb (str_eqb (key y) id)) l)
  <-> In x l /\ key x <> id.
Proof. rewrite filter_In. now rewrite negb_str_eqb_true. Qed.

Lemma filter_key_fixed {A} (key : A -> jsstring) (id : jsstring) (l : list A) :
  filter (fun y => negb (str_eqb (key y) id)) l = l
  <-> forall x, In x l -> key x <> id.
Proof.
  split.
  - intros H x Hx. apply negb_str_eqb_true. now apply (filter_fixed _ _ H).
  - intros H. apply filter_all. intros x Hx. apply negb_str_eqb_true. auto.
Qed.

(** ** Removing a tank *)

Lemma keeps_a_tank_length (id : jsstring) (a : Attempt) :
  (0 <? List.length (tankIds (strip_tank id a)))%nat = keeps_a_tank id a.
Proof.
  unfold keeps_a_tank, strip_tank. simpl.
  induction (tankIds a) as [|x l IH]; simpl; [reflexivity|].
  destruct (negb (str_eqb x id)); simpl; [reflexivity | exact IH].
Qed.

(** The attempts that survive are those that keep a tank, in their order,
    each without [id]. *)
Lemma removeTank_attempts (id : jsstring) (s : AppState) :
  attempts (removeTank id s)
  = map (strip_tank id) (filter (keeps_a_tank id) (attempts s)).
Proof.
  unfold removeTank. cbn [attempts].
  induction (attempts s) as [|a l IH]; cbn [map filter]; [reflexivity|].
  rewrite (keeps_a_tank_length id a).
  destruct (keeps_a_tank id a); cbn [map]; now rewrite IH.
Qed.

(** C1. After [removeTank id]: no attempt lists [id]; every attempt left has
    at least one tank, the attempts that kept none being gone (the attempts
    left are exactly those with a tank other than [id], in their order and
    without [id]); no group, water entry or log entry has [tankId = id] and
    all the others stay; the tanks are the former ones without those of id
    [id]; settings and lines are untouched. *)
Theorem removeTank_cascades (id : jsstring) (s : AppState) :
  (forall a, In a (attempts (removeTank id s)) -> ~ In id (tankIds a))
  /\ (forall a, In a (attempts (removeTank id s)) -> tankIds a <> [])
  /\ attempts (removeTank id s)
     = map (strip_tank id) (filter (keeps_a_tank id) (attempts s))
  /\ (forall a, In a (attempts s) ->
        filter (fun x => negb (str_eqb x id)) (tankIds a) = [] ->
        keeps_a_tank id a = false
        /\ ~ In (strip_tank id a) (attempts (removeTank id s)))
  /\ (forall g, In g (groups (removeTank id s))
                <-> In g (groups s) /\ group_tankId g <> id)
  /\ (forall w, In w (water (removeTank id s))
                <-> In w (water s) /\ water_tankId w <> id)
  /\ (forall e, In e (log (removeTank id s))
                <-> In e (log s) /\ log_tankId e <> id)
  /\ (forall t, In t (tanks (removeTank id s))
                <-> In t (tanks s) /\ tank_id t <> id)
  /\ tanks (removeTank id s)
     = filter (fun t => negb (str_eqb (tank_id t) id)) (tanks s)
  /\ settings (removeTank id s) = settings s
  /\ lines (removeTank id s) = lines s.
Proof.
  assert (Hin : forall a, In a (attempts (removeTank id s)) ->
                ~ In id (tankIds a) /\ tankIds a <> []).
  { intros a Ha. rewrite removeTank_attempts in Ha.
    apply in_map_iff in Ha as (a0 & <- & Ha0).
    apply filter_In in Ha0 as [_ Hk]. split.
    - apply filter_neq_not_In.
    - rewrite <- keeps_a_tank_length in Hk. intros E. rewrite E in Hk.
      discriminate. }
  split; [intros a Ha; now apply Hin|].
  split; [intros a Ha; now apply Hin|].
  split; [apply removeTank_attempts|].
  split.
  { intros a Ha Hempty.
    assert (Hk : keeps_a_tank id a = false).
    { rewrite <- keeps_a_tank_length. unfold strip_tank. simpl.
      now rewrite Hempty. }
    split; [exact Hk|]. intros Hs. apply Hin in Hs as [_ Hne].
    apply Hne. exact Hempty. }
  split; [intros g; apply (In_filter_key group_tankId)|].
  split; [intros w; apply (In_filter_key water_tankId)|].
  split; [intros e; apply (In_filter_key log_tankId)|].
  split; [intros t; apply (In_filter_key tank_id)|].
  repeat split.
Qed.

(** The seed document has one attempt over two tanks and two groups; without
    the first tank the attempt is still there, with the second tank alone,
    and the group, water entry and log entry of the first tank are gone (the
    log entry on the whole attempt stays). *)
Example removeTank_on_seed :
  map tankIds (attempts ex_seed) = [[ex_uid 0; ex_uid 1]]
  /\ map group_name (groups ex_seed) = [lit "Zuchtgruppe"; lit "Jungfische"]
  /\ map tankIds (attempts (removeTank (ex_uid 0) ex_seed)) = [[ex_uid 1]]
  /\ map group_name (groups (removeTank (ex_uid 0) ex_seed)) = [lit "Jungfische"]
  /\ map tank_id (tanks (removeTank (ex_uid 0) ex_seed)) = [ex_uid 1]
  /\ map water_tankId (water (removeTank (ex_uid 0) ex_seed)) = [ex_uid 1]
  /\ map log_tankId (log (removeTank (ex_uid 0) ex_seed)) = [[]]
  /\ attempts (removeTank (ex_uid 1) (removeTank (ex_uid 0) ex_seed)) = [].
Proof. repeat split; vm_compute; reflexivity. Qed.

(** ** Removing an attempt *)

(** C6. After [removeAttempt id]: the attempts are the former ones without
    those of id [id], so none has it; no group and no log entry has
    [attemptId = id] and all the others stay; tanks, lines, water entries and
    settings are the same. *)
Theorem removeAttempt_cascades (id : jsstring) (s : AppState) :
  (forall a, In a (attempts (removeAttempt id s))
             <-> In a (attempts s) /\ attempt_id a <> id)
  /\ (forall g, In g (groups (removeAttempt id s))
                <-> In g (groups s) /\ group_attemptId g <> id)
  /\ (forall e, In e (log (removeAttempt id s))
                <-> In e (log s) /\ log_attemptId e <> id)
  /\ tanks (removeAttempt id s) = tanks s
  /\ lines (removeAttempt id s) = lines s
  /\ water (removeAttempt id s) = water s
  /\ settings (removeAttempt id s) = settings s.
Proof.
  split; [intros a; apply (In_filter_key attempt_id)|].
  split; [intros g; apply (In_filter_key group_attemptId)|].
  split; [intros e; apply (In_filter_key log_attemptId)|].
  repeat split.
Qed.

(** ** Removing an id that is not there *)

Lemma with_tankIds_same (a : Attempt) : with_tankIds a (tankIds a) = a.
Proof. now destruct a. Qed.

Lemma strip_tank_fixed (id : jsstring) (a : Attempt) :
  strip_tank id a = a <-> ~ In id (tankIds a).
Proof.
  unfold strip_tank. split.
  - intros H Hin. apply (f_equal tankIds) in H. simpl in H.
    apply (filter_neq_not_In id (tankIds a)). now rewrite H.
  - intros H. rewrite filter_all; [apply with_tankIds_same|].
    intros x Hx. apply negb_str_eqb_true. congruence.
Qed.

Lemma attempts_fixed (id : jsstring) (l : list Attempt) :
  filter (fun a => (0 <? List.length (tankIds a))%nat) (map (strip_tank id) l) = l
  <-> forall a, In a l -> ~ In id (tankIds a) /\ tankIds a <> [].
Proof.
  split.
  - intros H a Ha. apply filter_map_fixed in H as [Hm Hf]. split.
    + apply strip_tank_fixed. now apply (map_fixed _ _ Hm).
    + pose proof (filter_fixed _ _ Hf a Ha) as Hlen. simpl in Hlen.
      intros E. rewrite E in Hlen. discriminate.
  - intros H. rewrite map_all_fixed.
    + apply filter_all. intros a Ha. destruct (H a Ha) as [_ Hne].
      destruct (tankIds a); [contradiction | reflexivity].
    + intros a Ha. apply strip_tank_fixed. now apply H.
Qed.

Lemma removeTank_fixed (id : jsstring) (s : AppState) :
  removeTank id s = s
  <-> (forall t, In t (tanks s) -> tank_id t <> id)
      /\ (forall a, In a (attempts s) -> ~ In id (tankIds a) /\ tankIds a <> [])
      /\ (forall g, In g (groups s) -> group_tankId g <> id)
      /\ (forall w, In w (water s) -> water_tankId w <> id)
      /\ (forall e, In e (log s) -> log_tankId e <> id).
Proof.
  rewrite <- (filter_key_fixed tank_id), <- (filter_key_fixed group_tankId),
    <- (filter_key_fixed water_tankId), <- (filter_key_fixed log_tankId),
    <- attempts_fixed.
  destruct s as [st tk ln at_ gr wa lg]. unfold removeTank. simpl. split.
  - intros H. injection H as H1 H2 H3 H4 H5. auto.
  - intros (H1 & H2 & H3 & H4 & H5). now rewrite H1, H2, H3, H4, H5.
Qed.

Lemma removeAttempt_fixed (id : jsstring) (s : AppState) :
  removeAttempt id s = s
  <-> (forall a, In a (attempts s) -> attempt_id a <> id)
      /\ (forall g, In g (groups s) -> group_attemptId g <> id)
      /\ (forall e, In e (log s) -> log_attemptId e <> id).
Proof.
  rewrite <- (filter_key_fixed attempt_id), <- (filter_key_fixed group_attemptId),
    <- (filter_key_fixed log_attemptId).
  destruct s as [st tk ln at_ gr wa lg]. unfold removeAttempt. simpl. split.
  - intros H. injection H as H1 H2 H3. auto.
  - intros (H1 & H2 & H3). now rewrite H1, H2, H3.
Qed.

(** C8, as stated, fails.  The document [ex_state] has one tank, of id
    ["t1"], and a log entry on the whole attempt, whose [tankId] is the empty
    string; [removeTank("")] names no tank and deletes that entry.  In
    [ex_state_orphan] a group refers to an attempt ["a9"] that is not there;
    [removeAttempt("a9")] names no attempt and deletes the group. *)
Lemma removal_of_unknown_id_can_change :
  (forall t, In t (tanks ex_state) -> tank_id t <> [])
  /\ log (removeTank [] ex_state) = [ex_log_tank]
  /\ removeTank [] ex_state <> ex_state
  /\ (forall a, In a (attempts ex_state_orphan) -> attempt_id a <> lit "a9")
  /\ groups (removeAttempt (lit "a9") ex_state_orphan) = [ex_group]
  /\ removeAttempt (lit "a9") ex_state_orphan <> ex_state_orphan
  /\ ~ (forall id s, (forall t, In t (tanks s) -> tank_id t <> id) ->
                     removeTank id s = s).
Proof.
  assert (H1 : forall t, In t (tanks ex_state) -> tank_id t <> []).
  { intros t [<-|[]]. discriminate. }
  assert (H2 : removeTank [] ex_state <> ex_state).
  { intros E. apply (f_equal log) in E. discriminate E. }
  split; [exact H1|]. split; [reflexivity|]. split; [exact H2|].
  split; [intros a [<-|[]]; discriminate|].
  split; [reflexivity|].
  split; [intros E; apply (f_equal groups) in E; discriminate E|].
  intros H. apply H2. now apply H.
Qed.

(** C8, amended.  [removeTank id] returns the document unmodified exactly
    when no tank has id [id], no attempt lists [id], every attempt has a
    tank, and no group, water entry or log entry has [tankId = id];
    [removeAttempt id] exactly when no attempt has id [id] and no group or
    log entry has [attemptId = id]; [removeGroup], [removeWater] and
    [removeLog] with an id that is not in their collection return the
    document unmodified. *)
Theorem removal_of_unknown_id (id : jsstring) (s : AppState) :
  (removeTank id s = s
   <-> (forall t, In t (tanks s) -> tank_id t <> id)
       /\ (forall a, In a (attempts s) -> ~ In id (tankIds a) /\ tankIds a <> [])
       /\ (forall g, In g (groups s) -> group_tankId g <> id)
       /\ (forall w, In w (water s) -> water_tankId w <> id)
       /\ (forall e, In e (log s) -> log_tankId e <> id))
  /\ (removeAttempt id s = s
      <-> (forall a, In a (attempts s) -> attempt_id a <> id)
          /\ (forall g, In g (groups s) -> group_attemptId g <> id)
          /\ (forall e, In e (log s) -> log_attemptId e <> id))
  /\ (removeGroup id s = s <-> forall g, In g (groups s) -> group_id g <> id)
  /\ (removeWater id s = s <-> forall w, In w (water s) -> water_id w <> id)
  /\ (removeLog id s = s <-> forall e, In e (log s) -> log_id e <> id).
Proof.
  split; [apply removeTank_fixed|]. split; [apply removeAttempt_fixed|].
  rewrite <- (filter_key_fixed group_id), <- (filter_key_fixed water_id),
    <- (filter_key_fixed log_id).
  destruct s as [st tk ln at_ gr wa lg].
  unfold removeGroup, removeWater, removeLog. simpl.
  repeat split; intros H; try (injection H as H; exact H); now rewrite H.
Qed.

(** On [ex_state], removing the tank ["t9"], which nothing mentions, changes
    nothing. *)
Lemma removal_of_unknown_id_witness : removeTank (lit "t9") ex_state = ex_state.
Proof.
  apply (proj1 (removal_of_unknown_id (lit "t9") ex_state)).
  split; [intros t [<-|[]]; discriminate|].
  split; [intros a [<-|[]]; split; [intros [H|[]]|]; discriminate|].
  split; [intros g [<-|[]]; discriminate|].
  split; [intros w []|].
  intros e [<-|[<-|[]]]; discriminate.
Defined.

(** ** Upserts *)

Section Upsert.

Context {A : Type} (key : A -> jsstring) (merge : A -> A -> A).

(** The list an upsert builds, for tanks and for attempts alike. *)
Let upserted (e : A) (l : list A) : list A :=
  if existsb (fun x => str_eqb (key x) (key e)) l
  then map (fun x => if str_eqb (key x) (key e) then merge x e else x) l
  else e :: l.

Lemma upserted_existing (e : A) (l : list A) :
  (exists x, In x l /\ key x = key e) ->
  List.length (upserted e l) = List.length l
  /\ forall i x, nth_error l i = Some x ->
       nth_error (upserted e l) i
       = Some (if str_eqb (key x) (key e) then merge x e else x).
Proof.
  intros (x & Hx & Hk). unfold upserted.
  replace (existsb (fun y => str_eqb (key y) (key e)) l) with true.
  - split; [apply length_map|]. intros i y Hy.
    now rewrite nth_error_map, Hy.
  - symmetry. apply existsb_exists. exists x. split; [exact Hx|].
    now apply str_eqb_eq.
Qed.

Lemma upserted_new (e : A) (l : list A) :
  (forall x, In x l -> key x <> key e) -> upserted e l = e :: l.
Proof.
  intros H. unfold upserted.
  replace (existsb (fun y => str_eqb (key y) (key e)) l) with false;
    [reflexivity|].
  symmetry. apply not_true_is_false. intros E.
  apply existsb_exists in E as (x & Hx & Hk). apply str_eqb_eq in Hk.
  now apply (H x).
Qed.

End Upsert.

(** [upsertTank]: merge in place when the id is there, else put in front;
    the rest of the document stays. *)
Lemma upsertTank_merges_or_prepends (tank : Tank) (s : AppState) :
  ((exists t, In t (tanks s) /\ tank_id t = tank_id tank) ->
   List.length (tanks (upsertTank tank s)) = List.length (tanks s)
   /\ forall i t, nth_error (tanks s) i = Some t ->
        nth_error (tanks (upsertTank tank s)) i
        = Some (if str_eqb (tank_id t) (tank_id tank) then merge_tank t tank else t))
  /\ ((forall t, In t (tanks s) -> tank_id t <> tank_id tank) ->
      tanks (upsertTank tank s) = tank :: tanks s)
  /\ (forall t, merge_tank t tank = tank)
  /\ attempts (upsertTank tank s) = attempts s
  /\ groups (upsertTank tank s) = groups s.
Proof.
  split; [apply (upserted_existing tank_id merge_tank)|].
  split; [apply (upserted_new tank_id merge_tank)|].
  split; [now destruct tank|]. split; reflexivity.
Qed.

Lemma upsertAttempt_merges_or_prepends (a : Attempt) (s : AppState) :
  ((exists x, In x (attempts s) /\ attempt_id x = attempt_id a) ->
   List.length (attempts (upsertAttempt a s)) = List.length (attempts s)
   /\ forall i x, nth_error (attempts s) i = Some x ->
        nth_error (attempts (upsertAttempt a s)) i
        = Some (if str_eqb (attempt_id x) (attempt_id a) then merge_attempt x a else x))
  /\ ((forall x, In x (attempts s) -> attempt_id x <> attempt_id a) ->
      attempts (upsertAttempt a s) = a :: attempts s)
  /\ (forall x, merge_attempt x a = a)
  /\ tanks (upsertAttempt a s) = tanks s
  /\ groups (upsertAttempt a s) = groups s.
Proof.
  split; [apply (upserted_existing attempt_id merge_attempt)|].
  split; [apply (upserted_new attempt_id merge_attempt)|].
  split; [now destruct a|]. split; reflexivity.
Qed.

(** C3, as stated, fails for groups.  [upsertGroup] does not look for the
    id: on [ex_state], which holds [ex_group] under the id ["g1"], upserting
    [ex_group_edit], of the same id, leaves [ex_group] as it was and adds a
    second record of that id, so nothing is merged into the record in
    place. *)
Lemma upsertGroup_existing_id_duplicates :
  (forall g s, groups (upsertGroup g s) = g :: groups s)
  /\ group_id ex_group_edit = group_id ex_group
  /\ In ex_group (groups ex_state)
  /\ groups (upsertGroup ex_group_edit ex_state) = [ex_group_edit; ex_group]
  /\ List.length (groups (upsertGroup ex_group_edit ex_state))
     = S (List.length (groups ex_state))
  /\ ~ (forall g s, (exists x, In x (groups s) /\ group_id x = group_id g) ->
          List.length (groups (upsertGroup g s)) = List.length (groups s)).
Proof.
  split; [reflexivity|]. split; [reflexivity|].
  split; [now left|]. split; [reflexivity|]. split; [reflexivity|].
  intros C.
  assert (H : List.length (groups (upsertGroup ex_group_edit ex_state))
              = List.length (groups ex_state)).
  { apply C. exists ex_group. split; [now left | reflexivity]. }
  discriminate H.
Qed.

(** C3, amended.  For tanks and attempts, [upsert] merges into the records
    of the same id, each at its place (the merged record is the new one),
    when there is one, and puts the record at the head otherwise.  For
    groups, [upsertGroup] puts the record at the head whatever its id and
    leaves the rest of the document; the group form, its only caller, hands
    it the id it has just drawn. *)
Theorem upsert_merges_or_prepends
  (Number : jsstring -> number) (tank : Tank) (a : Attempt) (g : Group)
  (s : AppState) :
  ((exists t, In t (tanks s) /\ tank_id t = tank_id tank) ->
   List.length (tanks (upsertTank tank s)) = List.length (tanks s)
   /\ forall i t, nth_error (tanks s) i = Some t ->
        nth_error (tanks (upsertTank tank s)) i
        = Some (if str_eqb (tank_id t) (tank_id tank) then tank else t))
  /\ ((forall t, In t (tanks s) -> tank_id t <> tank_id tank) ->
      tanks (upsertTank tank s) = tank :: tanks s)
  /\ ((exists x, In x (attempts s) /\ attempt_id x = attempt_id a) ->
      List.length (attempts (upsertAttempt a s)) = List.length (attempts s)
      /\ forall i x, nth_error (attempts s) i = Some x ->
           nth_error (attempts (upsertAttempt a s)) i
           = Some (if str_eqb (attempt_id x) (attempt_id a) then a else x))
  /\ ((forall x, In x (attempts s) -> attempt_id x <> attempt_id a) ->
      attempts (upsertAttempt a s) = a :: attempts s)
  /\ groups (upsertGroup g s) = g :: groups s
  /\ (settings (upsertGroup g s), tanks (upsertGroup g s), lines (upsertGroup g s),
      attempts (upsertGroup g s), water (upsertGroup g s), log (upsertGroup g s))
     = (settings s, tanks s, lines s, attempts s, water s, log s)
  /\ (forall fresh sel gName gTankId gM gF gNotes g',
        newGroup Number fresh sel gName gTankId gM gF gNotes = Some g' ->
        group_id g' = fresh).
Proof.
  destruct (upsertTank_merges_or_prepends tank s) as (T1 & T2 & T3 & _).
  destruct (upsertAttempt_merges_or_prepends a s) as (A1 & A2 & A3 & _).
  split; [|split; [exact T2|split; [|split; [exact A2|]]]].
  - intros H. destruct (T1 H) as [L N]. split; [exact L|].
    intros i t Hi. rewrite (N i t Hi), T3. now destruct (str_eqb _ _).
  - intros H. destruct (A1 H) as [L N]. split; [exact L|].
    intros i x Hi. rewrite (N i x Hi), A3. now destruct (str_eqb _ _).
  - split; [reflexivity|]. split; [reflexivity|].
    intros fresh sel gName gTankId gM gF gNotes g' H. unfold newGroup in H.
    destruct (str_eqb gTankId []); [discriminate|]. now inversion H.
Qed.

(** ** Removing a line *)

Lemma linkedCount_pos (atts : list Attempt) (id : jsstring) :
  (0 < linkedCount atts id)%nat
  <-> exists a, In a atts /\ lineId a = id /\ attempt_archived a = false.
Proof.
  unfold linkedCount. split.
  - destruct (filter _ atts) as [|a l] eqn:E; simpl; [lia|]. intros _.
    assert (Ha : In a (filter (fun a => str_eqb (lineId a) id
                                        && negb (attempt_archived a)) atts))
      by (rewrite E; now left).
    apply filter_In in Ha as [Ha Hc]. apply andb_true_iff in Hc as [H1 H2].
    exists a. split; [exact Ha|]. split; [now apply str_eqb_eq|].
    now apply negb_true_iff.
  - intros (a & Ha & Hid & Harch).
    assert (Hf : In a (filter (fun a => str_eqb (lineId a) id
                                        && negb (attempt_archived a)) atts)).
    { apply filter_In. split; [exact Ha|].
      rewrite Harch. rewrite (proj2 (str_eqb_eq _ _) Hid). reflexivity. }
    destruct (filter _ atts); [contradiction | simpl; lia].
Qed.

(** C5. [removeLine id], as the spec describes it: when a non-archived
    attempt has [lineId = id], every line of id [id] is still there, at its
    place, with [archived = true], and the other lines are as before; when
    none has, no line of id [id] is left and the other lines stay.  Nothing
    but the lines changes. *)
Theorem removeLine_archives_or_removes (id : jsstring) (s : AppState) :
  ((exists a, In a (attempts s) /\ lineId a = id /\ attempt_archived a = false) ->
   List.length (lines (removeLine id s)) = List.length (lines s)
   /\ (forall i l, nth_error (lines s) i = Some l ->
         nth_error (lines (removeLine id s)) i
         = Some (if str_eqb (line_id l) id then with_archived l true else l))
   /\ (forall l, In l (lines s) -> line_id l = id ->
         In (with_archived l true) (lines (removeLine id s)))
   /\ (forall l, In l (lines (removeLine id s)) -> line_id l = id ->
         line_archived l = true))
  /\ ((forall a, In a (attempts s) -> lineId a = id -> attempt_archived a = true) ->
      forall l, In l (lines (removeLine id s))
                <-> In l (lines s) /\ line_id l <> id)
  /\ tanks (removeLine id s) = tanks s
  /\ attempts (removeLine id s) = attempts s
  /\ groups (removeLine id s) = groups s
  /\ water (removeLine id s) = water s
  /\ log (removeLine id s) = log s
  /\ settings (removeLine id s) = settings s.
Proof.
  split; [|split].
  - intros Hex. apply linkedCount_pos in Hex. apply Nat.ltb_lt in Hex.
    unfold removeLine. cbn [lines]. rewrite Hex.
    split; [apply length_map|].
    split; [intros i l Hl; now rewrite nth_error_map, Hl|].
    split.
    + intros l Hl Hid. apply in_map_iff. exists l. split; [|exact Hl].
      now rewrite (proj2 (str_eqb_eq _ _) Hid).
    + intros l Hl Hid. apply in_map_iff in Hl as (l0 & <- & _).
      destruct (str_eqb (line_id l0) id) eqn:E; [reflexivity|].
      apply str_eqb_neq in E. contradiction.
  - intros Hnone.
    assert (Hz : (0 <? linkedCount (attempts s) id)%nat = false).
    { apply Nat.ltb_ge. destruct (linkedCount (attempts s) id) eqn:E; [lia|].
      exfalso. assert (Hp : (0 < linkedCount (attempts s) id)%nat) by lia.
      apply linkedCount_pos in Hp as (a & Ha & Hid & Harch).
      rewrite (Hnone a Ha Hid) in Harch. discriminate. }
    intros l. unfold removeLine. cbn [lines]. rewrite Hz.
    apply (In_filter_key line_id).
  - repeat split.
Qed.

(** On [ex_state] the attempt ["a1"] is of the line ["l1"]: the line is
    archived, not removed. *)
Lemma removeLine_archives_or_removes_witness :
  In (with_archived ex_line true) (lines (removeLine (lit "l1") ex_state)).
Proof.
  assert (Hex : exists a, In a (attempts ex_state) /\ lineId a = lit "l1"
                          /\ attempt_archived a = false).
  { exists ex_attempt. split; [now left|]. split; reflexivity. }
  destruct (proj1 (removeLine_archives_or_removes (lit "l1") ex_state) Hex)
    as (_ & _ & H & _).
  apply H; [now left | reflexivity].
Defined.

(** ** The dashboard *)

Lemma filter_none {A} (f : A -> bool) (l : list A) :
  (forall y, In y l -> f y = false) -> filter f l = [].
Proof.
  induction l as [|x l IH]; intros H; simpl; [reflexivity|].
  rewrite (H x (or_introl eq_refl)). apply IH. intros y Hy. apply H. now right.
Qed.

Section InsertionSort.

Variable cmp : LogEntry -> LogEntry -> Z.

Let before (x y : LogEntry) : Prop := (cmp x y <= 0)%Z.

Lemma insert_front_perm (p : LogEntry) (l : list LogEntry) :
  Permutation (p :: l) (insert_front cmp p l).
Proof.
  induction l as [|e l IH]; simpl; [apply Permutation_refl|].
  destruct (cmp p e <? 0)%Z; [apply Permutation_refl|].
  eapply perm_trans; [apply perm_swap|]. now apply perm_skip.
Qed.

Lemma fold_insert_perm (l acc : list LogEntry) :
  Permutation (l ++ acc) (fold_left (fun a p => insert_front cmp p a) l acc).
Proof.
  revert acc; induction l as [|p l IH]; intros acc; simpl;
    [apply Permutation_refl|].
  eapply perm_trans; [|apply IH].
  eapply perm_trans; [apply Permutation_middle|].
  apply Permutation_app_head. apply insert_front_perm.
Qed.

Hypothesis before_trans : forall x y z, before x y -> before y z -> before x z.
Hypothesis before_total : forall x y, (cmp x y < 0)%Z \/ before y x.

Lemma insert_front_sorted (p : LogEntry) (l : list LogEntry) :
  StronglySorted before l -> StronglySorted before (insert_front cmp p l).
Proof.
  induction l as [|e l IH]; simpl; intros Hs.
  - constructor; constructor.
  - inversion Hs as [|? ? Hl He]; subst.
    destruct (Z.ltb_spec (cmp p e) 0) as [Hlt|Hge].
    + constructor; [exact Hs|]. constructor; [unfold before; lia|].
      apply Forall_forall. intros y Hy.
      apply (before_trans p e y); [unfold before; lia|].
      now apply (proj1 (Forall_forall _ _) He).
    + constructor; [now apply IH|].
      apply (Permutation_Forall (insert_front_perm p l)).
      constructor; [|exact He].
      destruct (before_total p e) as [H|H]; [lia | exact H].
Qed.

Lemma fold_insert_sorted (l acc : list LogEntry) :
  StronglySorted before acc ->
  StronglySorted before (fold_left (fun a p => insert_front cmp p a) l acc).
Proof.
  revert acc; induction l as [|p l IH]; intros acc Hs; simpl; [exact Hs|].
  apply IH. now apply insert_front_sorted.
Qed.

End InsertionSort.

Section InsertionStable.

Variable cmp : LogEntry -> LogEntry -> Z.
Hypothesis cmp_consistent : consistent cmp.

Lemma consistent_lt_le (x y z : LogEntry) :
  (cmp x y < 0)%Z -> (cmp y z <= 0)%Z -> (cmp x z < 0)%Z.
Proof.
  destruct cmp_consistent as (_ & Hsym & Hflip & Heq & Hlt).
  intros Hxy Hyz.
  destruct (Z.lt_trichotomy (cmp y z) 0) as [H|[H|H]]; [now apply (Hlt x y z)| |lia].
  destruct (Z.lt_trichotomy (cmp x z) 0) as [G|[G|G]]; [exact G| |].
  - pose proof (Heq y z x H (Hsym _ _ G)) as E.
    apply Hsym in E. lia.
  - assert (F : (cmp z x < 0)%Z) by (apply Hflip; lia).
    pose proof (Hlt z x y F Hxy) as K. apply Hsym in H. lia.
Qed.

Lemma consistent_before_trans (x y z : LogEntry) :
  (cmp x y <= 0)%Z -> (cmp y z <= 0)%Z -> (cmp x z <= 0)%Z.
Proof.
  destruct cmp_consistent as (_ & Hsym & Hflip & Heq & Hlt).
  intros Hxy Hyz.
  destruct (Z.lt_trichotomy (cmp x y) 0) as [H|[H|H]]; [| |lia].
  - pose proof (consistent_lt_le x y z H Hyz). lia.
  - destruct (Z.lt_trichotomy (cmp y z) 0) as [G|[G|G]]; [| |lia].
    + apply Hsym in H.
      assert (F : (cmp z y > 0)%Z) by (apply Hflip; exact G).
      assert (K : (cmp z x > 0)%Z).
      { destruct (Z.lt_trichotomy (cmp z x) 0) as [K|[K|K]]; [| |lia].
        - pose proof (consistent_lt_le z x y K ltac:(apply Hsym in H; lia)). lia.
        - pose proof (Heq _ _ _ K (Hsym _ _ H)). lia. }
      apply Hflip in K. lia.
    + rewrite (Heq x y z H G). lia.
Qed.

Lemma consistent_total (x y : LogEntry) : (cmp x y < 0)%Z \/ (cmp y x <= 0)%Z.
Proof.
  destruct cmp_consistent as (_ & Hsym & Hflip & _).
  destruct (Z.lt_trichotomy (cmp x y) 0) as [H|[H|H]]; [now left| |].
  - right. rewrite (Hsym _ _ H). lia.
  - right. assert (cmp y x < 0)%Z by (apply Hflip; lia). lia.
Qed.

(** Placing [p] leaves the elements that compare equal to [x] in their order,
    [p] after those already placed. *)
Lemma insert_front_stable (x p : LogEntry) (l : list LogEntry) :
  StronglySorted (fun a b => (cmp a b <= 0)%Z) l ->
  filter (fun y => (cmp x y =? 0)%Z) (insert_front cmp p l)
  = filter (fun y => (cmp x y =? 0)%Z) l ++ filter (fun y => (cmp x y =? 0)%Z) [p].
Proof.
  destruct cmp_consistent as (_ & Hsym & Hflip & Heq & Hlt).
  induction l as [|e l IH]; intros Hs; [reflexivity|].
  inversion Hs as [|? ? Hl He]; subst.
  cbn [insert_front]. destruct (Z.ltb_spec (cmp p e) 0) as [Hlt'|Hge].
  - destruct (Z.eqb_spec (cmp x p) 0) as [Hxp|Hxp].
    + assert (Hnone : filter (fun y => (cmp x y =? 0)%Z) (e :: l) = []).
      { apply filter_none. intros y Hy.
        apply Z.eqb_neq. intros Hxy.
        assert (Hpy : (cmp p y < 0)%Z).
        { destruct Hy as [<-|Hy]; [exact Hlt'|].
          apply (consistent_lt_le p e y Hlt').
          now apply (proj1 (Forall_forall _ _) He). }
        pose proof (Heq p x y (Hsym _ _ Hxp) Hxy). lia. }
      cbn [filter] in *. rewrite (proj2 (Z.eqb_eq _ _) Hxp).
      rewrite Hnone. reflexivity.
    + cbn [filter]. rewrite (proj2 (Z.eqb_neq _ _) Hxp).
      now rewrite app_nil_r.
  - cbn [filter]. rewrite (IH Hl). cbn [filter].
    destruct (cmp x e =? 0)%Z; reflexivity.
Qed.

Lemma fold_insert_stable (x : LogEntry) (l acc : list LogEntry) :
  StronglySorted (fun a b => (cmp a b <= 0)%Z) acc ->
  filter (fun y => (cmp x y =? 0)%Z)
         (fold_left (fun a p => insert_front cmp p a) l acc)
  = filter (fun y => (cmp x y =? 0)%Z) acc ++ filter (fun y => (cmp x y =? 0)%Z) l.
Proof.
  revert acc; induction l as [|p l IH]; intros acc Hs; simpl fold_left.
  - now rewrite app_nil_r.
  - rewrite IH.
    + rewrite (insert_front_stable x p acc Hs). rewrite <- app_assoc.
      cbn [filter]. now destruct (cmp x p =? 0)%Z.
    + apply insert_front_sorted;
        [apply consistent_before_trans | apply consistent_total | exact Hs].
Qed.

End InsertionStable.

(** The insertion sort meets the contract. *)
Lemma insertion_sort_contract : sort_contract insertion_sort.
Proof.
  intros cmp l. unfold insertion_sort. split; [|split].
  - rewrite <- (app_nil_r l) at 1. apply fold_insert_perm.
  - intros Ht Hto. apply fold_insert_sorted; [exact Ht | exact Hto | constructor].
  - intros Hc x. rewrite (fold_insert_stable cmp Hc x l []); [reflexivity|constructor].
Qed.

Section InsertionPast.

Variable cmp : LogEntry -> LogEntry -> Z.

Lemma insert_past_perm (x : LogEntry) (l : list LogEntry) :
  Permutation (x :: l) (insert_past cmp x l).
Proof.
  induction l as [|e l IH]; simpl; [apply Permutation_refl|].
  destruct (0 <? cmp x e)%Z; [|apply Permutation_refl].
  eapply perm_trans; [apply perm_swap|]. now apply perm_skip.
Qed.

Lemma insert_past_sorted (x : LogEntry) (l : list LogEntry) :
  (forall a b c, (cmp a b <= 0)%Z -> (cmp b c <= 0)%Z -> (cmp a c <= 0)%Z) ->
  (forall a b, (cmp a b < 0)%Z \/ (cmp b a <= 0)%Z) ->
  StronglySorted (fun a b => (cmp a b <= 0)%Z) l ->
  StronglySorted (fun a b => (cmp a b <= 0)%Z) (insert_past cmp x l).
Proof.
  intros Htrans Htotal. induction l as [|e l IH]; simpl; intros Hs.
  - constructor; constructor.
  - inversion Hs as [|? ? Hl He]; subst.
    destruct (Z.ltb_spec 0 (cmp x e)) as [Hgt|Hle].
    + constructor; [now apply IH|].
      apply (Permutation_Forall (insert_past_perm x l)).
      constructor; [|exact He].
      destruct (Htotal e x) as [H|H]; lia.
    + constructor; [exact Hs|]. constructor; [exact Hle|].
      apply Forall_forall. intros y Hy.
      apply (Htrans x e y Hle). now apply (proj1 (Forall_forall _ _) He).
Qed.

(** Placing [x] in front of [l] leaves the elements that compare equal in
    their order, [x] before those of [l]. *)
Lemma insert_past_stable (Hc : consistent cmp) (z x : LogEntry) (l : list LogEntry) :
  filter (fun y => (cmp z y =? 0)%Z) (insert_past cmp x l)
  = filter (fun y => (cmp z y =? 0)%Z) (x :: l).
Proof.
  destruct Hc as (_ & Hsym & Hflip & Heq & Hlt).
  induction l as [|e l IH]; [reflexivity|].
  cbn [insert_past]. destruct (Z.ltb_spec 0 (cmp x e)) as [Hgt|Hle];
    [|reflexivity].
  cbn [filter] in *. rewrite IH.
  destruct (Z.eqb_spec (cmp z e) 0) as [Hze|Hze];
    destruct (Z.eqb_spec (cmp z x) 0) as [Hzx|Hzx]; try reflexivity.
  pose proof (Heq x z e (Hsym _ _ Hzx) Hze). lia.
Qed.

End InsertionPast.

Lemma insertion_sort_past_contract : sort_contract insertion_sort_past.
Proof.
  intros cmp l. unfold insertion_sort_past. split; [|split].
  - induction l as [|x l IH]; simpl; [constructor|].
    eapply perm_trans; [apply perm_skip, IH | apply insert_past_perm].
  - intros Ht Hto. induction l as [|x l IH]; simpl; [constructor|].
    now apply insert_past_sorted.
  - intros Hc z. induction l as [|x l IH]; [reflexivity|].
    cbn [fold_right]. rewrite (insert_past_stable cmp Hc).
    cbn [filter]. now rewrite IH.
Qed.

(** On the comparator of the dashboard this sort is the stable descending
    sort by date. *)
Lemma insertion_sort_past_stable_desc (l : list LogEntry) :
  insertion_sort_past byDateDesc l = stable_sort_desc l.
Proof.
  unfold insertion_sort_past, stable_sort_desc.
  induction l as [|x l IH]; [reflexivity|]. cbn [fold_right]. rewrite IH.
  generalize (fold_right insert_stable_desc [] l). intros m.
  induction m as [|e m IHm]; [reflexivity|].
  cbn [insert_past insert_stable_desc]. unfold byDateDesc at 1.
  destruct (str_ltb (log_date x) (log_date e)); cbn [Z.ltb Z.compare];
    [now rewrite IHm | reflexivity].
Qed.

Lemma byDateDesc_le (a b : LogEntry) :
  (byDateDesc a b <= 0)%Z <-> str_ltb (log_date a) (log_date b) = false.
Proof.
  unfold byDateDesc. destruct (str_ltb (log_date a) (log_date b));
    split; intros H; try lia; try discriminate; reflexivity.
Qed.

Lemma byDateDesc_trans (x y z : LogEntry) :
  (byDateDesc x y <= 0)%Z -> (byDateDesc y z <= 0)%Z -> (byDateDesc x z <= 0)%Z.
Proof. rewrite !byDateDesc_le. apply str_ltb_false_trans. Qed.

Lemma byDateDesc_total (x y : LogEntry) :
  (byDateDesc x y < 0)%Z \/ (byDateDesc y x <= 0)%Z.
Proof.
  rewrite byDateDesc_le. unfold byDateDesc.
  destruct (str_ltb (log_date x) (log_date y)) eqn:E; [|left; lia].
  right. now apply str_ltb_asym.
Qed.

(** The comparator never answers 0, so it is not a consistent one and the
    stability of [sort] does not bear on it. *)
Lemma byDateDesc_not_consistent : ~ consistent byDateDesc.
Proof.
  intros (Hrefl & _). specialize (Hrefl ex_log_tank). discriminate Hrefl.
Qed.

(** C7, as stated, fails on its tie-break.  The log of [ex_state] holds two
    entries of one date, [ex_log_tank] first.  The stable descending sort of
    the claim selects [ex_log_tank]; the source sorts with a comparator that
    answers -1 on equal dates whichever way it is asked, and of two sorts
    that meet the contract, stability included, one returns [ex_log_tank]
    first and the other [ex_log_general]: the selection among entries of the
    latest date is not fixed by the source. *)
Lemma lastLog_tie_not_insertion_order :
  log ex_state = [ex_log_tank; ex_log_general]
  /\ log_date ex_log_tank = log_date ex_log_general
  /\ byDateDesc ex_log_tank ex_log_general = (-1)%Z
  /\ byDateDesc ex_log_general ex_log_tank = (-1)%Z
  /\ sort_contract insertion_sort
  /\ sort_contract insertion_sort_past
  /\ lastLog insertion_sort ex_state = Some ex_log_general
  /\ lastLog insertion_sort_past ex_state = Some ex_log_tank
  /\ lastLog_stable ex_state = Some ex_log_tank
  /\ ~ (forall sort, sort_contract sort ->
          lastLog sort ex_state = lastLog_stable ex_state).
Proof.
  split; [reflexivity|]. split; [reflexivity|].
  split; [reflexivity|]. split; [reflexivity|].
  split; [apply insertion_sort_contract|].
  split; [apply insertion_sort_past_contract|].
  split; [reflexivity|]. split; [reflexivity|]. split; [reflexivity|].
  intros H. specialize (H insertion_sort insertion_sort_contract).
  discriminate H.
Qed.

(** C7, amended.  For every [sort] that meets the contract: the active
    attempts are those with [active] and not [archived], counted; the active
    tanks those with [active], counted; the last entry is absent exactly when
    the log is empty, and otherwise is an entry of the log whose date no
    other entry's date exceeds; it is the entry of the latest date when that
    entry is the only one of its date.  Over an empty document the
    aggregates are 0, 0 and no entry. *)
Theorem dashboard_aggregates
  (sort : (LogEntry -> LogEntry -> Z) -> list LogEntry -> list LogEntry)
  (Hsort : sort_contract sort) (s : AppState) (st : Settings) :
  activeAttempts s
  = List.length (filter (fun a => attempt_active a && negb (attempt_archived a))
                        (attempts s))
  /\ (forall a, In a (filter (fun a => attempt_active a && negb (attempt_archived a))
                             (attempts s))
                <-> In a (attempts s) /\ attempt_active a = true
                    /\ attempt_archived a = false)
  /\ activeTanks s = List.length (filter tank_active (tanks s))
  /\ (lastLog sort s = None <-> log s = [])
  /\ (forall e, lastLog sort s = Some e ->
        In e (log s)
        /\ forall e', In e' (log s) -> str_ltb (log_date e) (log_date e') = false)
  /\ (forall e, In e (log s) ->
        (forall e', In e' (log s) ->
           e' = e \/ str_ltb (log_date e') (log_date e) = true) ->
        lastLog sort s = Some e)
  /\ activeAttempts (empty_state st) = 0%nat
  /\ activeTanks (empty_state st) = 0%nat
  /\ lastLog sort (empty_state st) = None.
Proof.
  destruct (Hsort byDateDesc (log s)) as (Hperm & Hsorted & _).
  specialize (Hsorted byDateDesc_trans byDateDesc_total).
  assert (Hnone : lastLog sort s = None <-> log s = []).
  { unfold lastLog. split.
    - intros H. destruct (sort byDateDesc (log s)) eqn:E; [|discriminate].
      apply Permutation_sym in Hperm. now apply Permutation_nil in Hperm.
    - intros H. rewrite H in *. apply Permutation_nil in Hperm.
      now rewrite Hperm. }
  assert (Hmax : forall e, lastLog sort s = Some e ->
            In e (log s)
            /\ forall e', In e' (log s) ->
                 str_ltb (log_date e) (log_date e') = false).
  { unfold lastLog. intros e He.
    destruct (sort byDateDesc (log s)) as [|e0 rest] eqn:E; [discriminate|].
    injection He as ->. split.
    - apply (Permutation_in _ (Permutation_sym Hperm)). now left.
    - intros e' He'. apply (Permutation_in _ Hperm) in He'.
      destruct He' as [<-|He']; [apply str_ltb_irrefl|].
      apply byDateDesc_le. inversion Hsorted as [|? ? _ Hall]; subst.
      now apply (proj1 (Forall_forall _ _) Hall). }
  split; [reflexivity|].
  split.
  { intros a. rewrite filter_In, andb_true_iff, negb_true_iff. tauto. }
  split; [reflexivity|]. split; [exact Hnone|]. split; [exact Hmax|].
  split.
  { intros e He Hmost. destruct (lastLog sort s) as [e0|] eqn:E.
    - destruct (Hmax e0 eq_refl) as [Hin0 Hmax0].
      destruct (Hmost e0 Hin0) as [->|Hlt]; [reflexivity|].
      rewrite (Hmax0 e He) in Hlt. discriminate.
    - rewrite (proj1 Hnone eq_refl) in He. contradiction. }
  split; [reflexivity|]. split; [reflexivity|].
  unfold lastLog, empty_state. cbn [log].
  destruct (Hsort byDateDesc []) as (Hp & _).
  apply Permutation_nil in Hp. now rewrite Hp.
Qed.

(** The insertion sort on [ex_state]: one active attempt, one active tank and
    an entry of the latest date. *)
Lemma dashboard_aggregates_witness :
  activeAttempts ex_state = 1%nat
  /\ activeTanks ex_state = 1%nat
  /\ lastLog insertion_sort (empty_state ex_settings) = None
  /\ forall e, lastLog insertion_sort ex_state = Some e -> In e (log ex_state).
Proof.
  destruct (dashboard_aggregates insertion_sort insertion_sort_contract
              ex_state ex_settings) as (_ & _ & _ & _ & Hmax & _ & _ & _ & Hempty).
  split; [reflexivity|]. split; [reflexivity|]. split; [exact Hempty|].
  intros e He. now apply Hmax.
Defined.

(** ** Loading *)

Lemma bind_Some {A B} (c : M A) (k : A -> M B) (n n' : nat) (b : B) :
  bind c k n = (Some b, n') ->
  exists a n1, c n = (Some a, n1) /\ k a n1 = (Some b, n').
Proof.
  unfold bind. destruct (c n) as [[a|] n1]; [|discriminate].
  intros H. now exists a, n1.
Qed.

Lemma ret_Some {A} (a b : A) (n n' : nat) :
  ret a n = (Some b, n') -> a = b /\ n = n'.
Proof. unfold ret. intros H. now injection H. Qed.

(** Every element of a [map] that did not throw is the image of its element. *)
Lemma mapM_Some {A B} (f : A -> M B) (l : list A) (n n' : nat) (bs : list B) :
  mapM f l n = (Some bs, n') ->
  Forall2 (fun a b => exists n1 n2, f a n1 = (Some b, n2)) l bs.
Proof.
  revert n bs; induction l as [|a l IH]; intros n bs H; simpl in H.
  - apply ret_Some in H as [<- _]. constructor.
  - apply bind_Some in H as (b & n1 & Hb & H).
    apply bind_Some in H as (bs' & n2 & Hbs & H).
    apply ret_Some in H as [<- <-].
    constructor; [now exists n, n1 | now apply (IH n1)].
Qed.

Lemma all_keys (k : ParamKey) : existsb (ParamKey_eqb k) ALL_PARAM_KEYS = true.
Proof. now destruct k. Qed.

Lemma get_fold_waterParams (inc : json) (l : list ParamKey)
  (init : WaterParams) (k : ParamKey) :
  get_param
    (fold_left
       (fun wp k' =>
          match prop inc (key_name k') with
          | Some (JBool b) => set_param wp k' b
          | _ => wp
          end) l init) k
  = if existsb (ParamKey_eqb k) l
    then match prop inc (key_name k) with
         | Some (JBool b) => b
         | _ => get_param init k
         end
    else get_param init k.
Proof.
  revert init; induction l as [|a l IH]; intros init; [reflexivity|].
  cbn [fold_left existsb]. rewrite IH.
  destruct (ParamKey_eqb k a) eqn:E.
  - apply ParamKey_eqb_eq in E. subst a. cbn [orb].
    destruct (prop inc (key_name k)) as [[| b | | | |]|];
      try (now destruct (existsb _ l)).
    rewrite get_set_param, (proj2 (ParamKey_eqb_eq k k) eq_refl).
    now destruct (existsb _ l).
  - cbn [orb].
    assert (Hsame : get_param
                      match prop inc (key_name a) with
                      | Some (JBool b) => set_param init a b
                      | _ => init
                      end k = get_param init k).
    { destruct (prop inc (key_name a)) as [[| b | | | |]|]; try reflexivity.
      now rewrite get_set_param, E. }
    now rewrite Hsame.
Qed.

Lemma get_fold_limits (inc : json) (l : list ParamKey)
  (init : WaterLimits) (k : ParamKey) :
  get_param
    (fold_left
       (fun wl k' =>
          match truthy_opt (prop inc (key_name k')) with
          | Some x => if is_object x then set_param wl k' (limit_of x) else wl
          | None => wl
          end) l init) k
  = if existsb (ParamKey_eqb k) l
    then match truthy_opt (prop inc (key_name k)) with
         | Some x => if is_object x then limit_of x else get_param init k
         | None => get_param init k
         end
    else get_param init k.
Proof.
  revert init; induction l as [|a l IH]; intros init; [reflexivity|].
  cbn [fold_left existsb]. rewrite IH.
  destruct (ParamKey_eqb k a) eqn:E.
  - apply ParamKey_eqb_eq in E. subst a. cbn [orb].
    destruct (truthy_opt (prop inc (key_name k))) as [x|];
      [|now destruct (existsb _ l)].
    destruct (is_object x); [|now destruct (existsb _ l)].
    rewrite get_set_param, (proj2 (ParamKey_eqb_eq k k) eq_refl).
    now destruct (existsb _ l).
  - cbn [orb].
    assert (Hsame : get_param
                      match truthy_opt (prop inc (key_name a)) with
                      | Some x => if is_object x
                                  then set_param init a (limit_of x) else init
                      | None => init
                      end k = get_param init k).
    { destruct (truthy_opt (prop inc (key_name a))) as [x|]; [|reflexivity].
      destruct (is_object x); [|reflexivity].
      now rewrite get_set_param, E. }
    now rewrite Hsame.
Qed.

Lemma makeAllParams_get (b : bool) (k : ParamKey) :
  get_param (makeAllParams b) k = b.
Proof. now destruct k. Qed.

Lemma makeDefaultLimits_get (k : ParamKey) :
  get_param makeDefaultLimits k = mkLimit None None.
Proof. now destruct k. Qed.

Section Loading.

Variable Number : jsstring -> number.
Variable String_other : json -> option jsstring.
Variable Number_other : json -> option number.
Variable uid_at : nat -> jsstring.
Variable iso_t0 iso_t1 : jsstring.

Lemma truthy_opt_str (x : option json) (s : jsstring) :
  x = Some (JStr s) ->
  truthy_opt x = if str_eqb s [] then None else Some (JStr s).
Proof. intros ->. simpl. now destruct (str_eqb s []). Qed.

Lemma lift_Some {A} (x : option A) (n n' : nat) (a : A) :
  lift x n = (Some a, n') -> x = Some a /\ n' = n.
Proof.
  destruct x as [a0|]; simpl; [|discriminate].
  intros H. apply ret_Some in H as [-> ->]. auto.
Qed.

Lemma string_or_Some (x : option json) (dflt s : jsstring) (n n' : nat) :
  string_or String_other x dflt n = (Some s, n') ->
  (truthy_opt x = None -> s = dflt)
  /\ (forall s0, x = Some (JStr s0) -> (s0 = [] -> dflt = []) -> s = s0)
  /\ n' = n.
Proof.
  unfold string_or. destruct (truthy_opt x) as [v|] eqn:E; intros H.
  - apply lift_Some in H as [Hs ->].
    split; [discriminate|]. split; [|reflexivity].
    intros s0 Hx _. rewrite (truthy_opt_str _ _ Hx) in E.
    destruct (str_eqb s0 []); [discriminate|].
    injection E as <-. simpl in Hs. congruence.
  - apply ret_Some in H as [<- <-].
    split; [reflexivity|]. split; [|reflexivity].
    intros s0 Hx Hd. rewrite (truthy_opt_str _ _ Hx) in E.
    destruct (str_eqb s0 []) eqn:F; [|discriminate].
    apply str_eqb_eq in F. subst s0. now apply Hd.
Qed.

(** A tank that [normalizeTank] returns carries the defaults of the source. *)
Lemma normalizeTank_normalizes (t : json) (n n' : nat) (tk : Tank) :
  normalizeTank Number String_other Number_other uid_at t n = (Some tk, n') ->
  tank_normalized uid_at t tk.
Proof.
  unfold normalizeTank. intros H.
  apply bind_Some in H as (id & n1 & Hid & H).
  apply bind_Some in H as (name & n2 & Hname & H).
  apply bind_Some in H as (vol & n3 & Hvol & H).
  apply bind_Some in H as (loc & n4 & Hloc & H).
  apply bind_Some in H as (pur & n5 & Hpur & H).
  apply ret_Some in H as [<- _].
  apply string_or_Some in Hname as (Hn1 & Hn2 & _).
  apply string_or_Some in Hloc as (Hl1 & Hl2 & _).
  apply string_or_Some in Hpur as (Hp1 & Hp2 & _).
  unfold tank_normalized. cbn [tank_id tank_name volumeL location purpose
                               tank_active waterParams].
  split; [|split].
  { intros E. rewrite E in Hid. unfold uid in Hid. injection Hid as <- _.
    now exists n. }
  { intros s Hs Hne. rewrite (truthy_opt_str _ _ Hs) in Hid.
    destruct (str_eqb s []) eqn:F; [apply str_eqb_eq in F; contradiction|].
    apply lift_Some in Hid as [Hid _]. simpl in Hid. congruence. }
  split; [exact Hn1|].
  split; [intros s Hs Hne; apply (Hn2 s Hs); intros; contradiction|].
  split.
  { destruct (prop t "volumeL") as [[| b | v | s | l | fs]|];
      try (apply ret_Some in Hvol as [<- _]; reflexivity);
      intros E; rewrite E in Hvol; now apply ret_Some in Hvol as [<- _]. }
  split; [exact Hl1|].
  split; [intros s Hs; now apply (Hl2 s Hs)|].
  split; [exact Hp1|].
  split; [intros s Hs; now apply (Hp2 s Hs)|].
  split.
  { destruct (prop t "active") as [[|[|]| | | |]|]; split; congruence. }
  intros k. rewrite get_fold_waterParams, all_keys, makeAllParams_get.
  destruct (truthy_opt (prop t "waterParams")); [reflexivity|].
  simpl. now destruct k.
Qed.

Lemma prop_guarded (parsed : json) (k : string) :
  (if truthy parsed then prop parsed k else None) = prop parsed k.
Proof. destruct parsed as [| b | x | x | l | fs]; simpl; try reflexivity;
         now destruct (negb _) || now destruct b. Qed.

(** A document that [loadParsed] returns: settings and tanks carry the
    defaults, the five other collections are the stored arrays or empty. *)
Lemma loadParsed_loads (parsed : json) (n n' : nat) (r : LoadedState) :
  loadParsed Number String_other Number_other uid_at parsed n = (Some r, n') ->
  parsed <> JNull
  /\ settings_normalized parsed (ld_settings r)
  /\ Forall2 (tank_normalized uid_at)
             (array_or_empty (prop parsed "tanks")) (ld_tanks r)
  /\ ld_lines r = array_or_empty (prop parsed "lines")
  /\ ld_attempts r = array_or_empty (prop parsed "attempts")
  /\ ld_groups r = array_or_empty (prop parsed "groups")
  /\ ld_water r = array_or_empty (prop parsed "water")
  /\ ld_log r = array_or_empty (prop parsed "log").
Proof.
  unfold loadParsed. rewrite prop_guarded. intros H.
  assert (Hnn : parsed <> JNull) by (intros ->; discriminate H).
  split; [exact Hnn|].
  assert (H' : exists tks n1,
             match prop parsed "tanks" with
             | Some (JArr items) =>
                 mapM (normalizeTank Number String_other Number_other uid_at) items
             | _ => ret []
             end n = (Some tks, n1)
             /\ r = mkLoadedState
                      (mkSettings
                         match
                           prop match truthy_opt (prop parsed "settings") with
                                | Some v => v
                                | None => JObj []
                                end "breederName"
                         with Some (JStr s) => s | _ => [] end
                         match
                           prop match truthy_opt (prop parsed "settings") with
                                | Some v => v
                                | None => JObj []
                                end "maxPhotoMB"
                         with Some (JNum x) => x | _ => num_ratio 15 10 end
                         match
                           match
                             truthy_opt
                               (prop match truthy_opt (prop parsed "settings") with
                                     | Some v => v
                                     | None => JObj []
                                     end "waterLimits")
                           with
                           | Some v => if is_object v then Some v else None
                           | None => None
                           end
                         with
                         | Some inc =>
                             fold_left
                               (fun wl k =>
                                  match truthy_opt (prop inc (key_name k)) with
                                  | Some x => if is_object x
                                              then set_param wl k (limit_of x)
                                              else wl
                                  | None => wl
                                  end) ALL_PARAM_KEYS makeDefaultLimits
                         | None => makeDefaultLimits
                         end)
                      tks
                      (array_or_empty (prop parsed "lines"))
                      (array_or_empty (prop parsed "attempts"))
                      (array_or_empty (prop parsed "groups"))
                      (array_or_empty (prop parsed "water"))
                      (array_or_empty (prop parsed "log"))).
  { destruct parsed; try contradiction;
      apply bind_Some in H as (tks & n1 & Htk & H);
      apply ret_Some in H as [<- _]; now exists tks, n1. }
  clear H. destruct H' as (tks & n1 & Htk & ->).
  cbn [ld_settings ld_tanks ld_lines ld_attempts ld_groups ld_water ld_log].
  split; [|split; [|repeat split]].
  - unfold settings_normalized.
    cbn [breederName maxPhotoMB waterLimits].
    split; [reflexivity|]. split; [reflexivity|]. intros k.
    destruct (truthy_opt (prop _ "waterLimits")) as [inc|];
      [|apply makeDefaultLimits_get].
    destruct (is_object inc) eqn:Hobj.
    + rewrite get_fold_limits, all_keys, makeDefaultLimits_get. reflexivity.
    + rewrite makeDefaultLimits_get.
      assert (Hp : prop inc (key_name k) = None)
        by (destruct inc; try reflexivity; discriminate).
      now rewrite Hp.
  - destruct (prop parsed "tanks") as [[| b | x | x | items | fs]|];
      try (apply ret_Some in Htk as [<- _]; constructor).
    apply mapM_Some in Htk. cbn [array_or_empty].
    eapply Forall2_impl; [|exact Htk].
    intros t tk (m1 & m2 & Hn). now apply (normalizeTank_normalizes _ _ _ _ Hn).
Qed.

(** [loadParsed] throws on [null] and when normalizing a tank throws, and
    never otherwise. *)
Lemma loadParsed_throws (parsed : json) (n : nat) :
  fst (loadParsed Number String_other Number_other uid_at parsed n) = None
  <-> parsed = JNull
      \/ fst (mapM (normalizeTank Number String_other Number_other uid_at)
                   (array_or_empty (prop parsed "tanks")) n) = None.
Proof.
  assert (E : match prop parsed "tanks" with
              | Some (JArr items) =>
                  mapM (normalizeTank Number String_other Number_other uid_at) items
              | _ => ret []
              end
              = mapM (normalizeTank Number String_other Number_other uid_at)
                     (array_or_empty (prop parsed "tanks"))).
  { now destruct (prop parsed "tanks") as [[| b | x | x | items | fs]|]. }
  unfold loadParsed. rewrite E.
  generalize (mapM (normalizeTank Number String_other Number_other uid_at)
                   (array_or_empty (prop parsed "tanks"))).
  intros c. unfold bind, ret.
  destruct parsed as [| b | x | x | l | fs]; cbn [fst throw].
  1: (split; [now left | reflexivity]).
  all: destruct (c n) as [[tks|] n1]; cbn [fst];
    (split; [intros H; try discriminate H; now right
            | intros [H|H]; try discriminate H; reflexivity]).
Qed.

(** A tank is normalized without a throw when the conversions [String] and
    [Number] are defined on what it holds. *)
Lemma normalizeTank_returns (t : json) (n : nat) :
  (forall v, String_other v <> None) -> (forall v, Number_other v <> None) ->
  fst (normalizeTank Number String_other Number_other uid_at t n) <> None.
Proof.
  intros HS HN.
  assert (Hs : forall v m, exists s, lift (js_String String_other v) m = (Some s, m)).
  { intros v m. destruct (js_String String_other v) as [s|] eqn:E; [now exists s|].
    exfalso. destruct v as [| [|] | x | x | l | fs]; try discriminate E;
      now apply (HS _ E). }
  assert (Hn : forall v m, exists x, lift (js_Number Number Number_other v) m
                                     = (Some x, m)).
  { intros v m. destruct (js_Number Number Number_other v) as [x|] eqn:E;
      [now exists x|].
    exfalso. destruct v as [| [|] | x | x | l | fs]; try discriminate E;
      now apply (HN _ E). }
  assert (Hso : forall x d m, exists s, string_or String_other x d m = (Some s, m)).
  { intros x d m. unfold string_or. destruct (truthy_opt x) as [v|];
      [apply Hs | now exists d]. }
  unfold normalizeTank, bind.
  destruct (truthy_opt (prop t "id")) as [v|].
  - destruct (Hs v n) as (i & ->).
    destruct (Hso (prop t "name") (lit "Becken") n) as (nm & ->).
    assert (Hv : exists x,
               match prop t "volumeL" with
               | Some (JNum x) => ret x
               | other => match truthy_opt other with
                          | Some v0 => lift (js_Number Number Number_other v0)
                          | None => ret (num_of_Z 0)
                          end
               end n = (Some x, n)).
    { destruct (prop t "volumeL") as [[| b | x | x | l | fs]|];
        try (destruct (truthy_opt _); [apply Hn | now eexists]).
      now eexists. }
    destruct Hv as (x & ->).
    destruct (Hso (prop t "location") [] n) as (lo & ->).
    destruct (Hso (prop t "purpose") [] n) as (pu & ->).
    discriminate.
  - unfold uid.
    destruct (Hso (prop t "name") (lit "Becken") (S n)) as (nm & ->).
    assert (Hv : exists x,
               match prop t "volumeL" with
               | Some (JNum x) => ret x
               | other => match truthy_opt other with
                          | Some v0 => lift (js_Number Number Number_other v0)
                          | None => ret (num_of_Z 0)
                          end
               end (S n) = (Some x, S n)).
    { destruct (prop t "volumeL") as [[| b | x | x | l | fs]|];
        try (destruct (truthy_opt _); [apply Hn | now eexists]).
      now eexists. }
    destruct Hv as (x & ->).
    destruct (Hso (prop t "location") [] (S n)) as (lo & ->).
    destruct (Hso (prop t "purpose") [] (S n)) as (pu & ->).
    discriminate.
Qed.

Lemma mapM_returns {A B} (f : A -> M B) (l : list A) (n : nat) :
  (forall a m, fst (f a m) <> None) -> fst (mapM f l n) <> None.
Proof.
  intros Hf. revert n. induction l as [|a l IH]; intros n; [discriminate|].
  cbn [mapM]. unfold bind at 1. pose proof (Hf a n) as Ha.
  destruct (f a n) as [[b|] n1]; [|now contradiction Ha].
  unfold bind at 1. pose proof (IH n1) as Hl.
  destruct (mapM f l n1) as [[bs|] n2]; [discriminate | now contradiction Hl].
Qed.

Section LoadStateTotal.

Variable JSON_parse : jsstring -> option json.

(** C2, amended.  [loadState] returns a document for every slot content (a
    throw inside is caught and answered with the seed document).  It
    returns the seed document when the slot is absent or empty, when
    [JSON.parse] throws, when the parsed value is [null] and when
    normalizing a tank throws, and in no other case; normalizing does not
    throw where [String] and [Number] are defined on the stored values.
    Otherwise it returns a document whose settings and tanks are rebuilt
    with the defaults of the source (tank name ["Becken"], [active] true
    unless stored as [false], water parameters false, breeder name empty,
    photo size 1.5, limits [null]) and whose lines, attempts, groups, water
    entries and log are the stored arrays themselves, elements untouched, or
    empty lists when what is stored is not an array. *)
Theorem loadState_total_and_normalizes (raw : option jsstring) (n : nat) :
  match fst (loadState Number String_other Number_other uid_at iso_t0 iso_t1
                       JSON_parse raw n) with
  | Seeded s => exists m, s = fst (seed uid_at iso_t0 iso_t1 m)
  | Loaded r =>
      exists text parsed,
        raw = Some text /\ text <> [] /\ JSON_parse text = Some parsed
        /\ parsed <> JNull
        /\ settings_normalized parsed (ld_settings r)
        /\ Forall2 (tank_normalized uid_at)
                   (array_or_empty (prop parsed "tanks")) (ld_tanks r)
        /\ ld_lines r = array_or_empty (prop parsed "lines")
        /\ ld_attempts r = array_or_empty (prop parsed "attempts")
        /\ ld_groups r = array_or_empty (prop parsed "groups")
        /\ ld_water r = array_or_empty (prop parsed "water")
        /\ ld_log r = array_or_empty (prop parsed "log")
  end
  /\ (forall x, array_or_empty x
                = match x with Some (JArr items) => items | _ => [] end)
  /\ (forall t tk, tank_normalized uid_at t tk ->
        (prop t "name" = None -> tank_name tk = lit "Becken")
        /\ (prop t "active" = None -> tank_active tk = true)
        /\ (prop t "waterParams" = None ->
            forall k, get_param (waterParams tk) k = false))
  /\ ((exists s, fst (loadState Number String_other Number_other uid_at iso_t0 iso_t1
                                JSON_parse raw n) = Seeded s)
      <-> raw = None \/ raw = Some []
          \/ exists text, raw = Some text
               /\ (JSON_parse text = None \/ JSON_parse text = Some JNull
                   \/ exists parsed, JSON_parse text = Some parsed
                        /\ fst (mapM (normalizeTank Number String_other
                                                    Number_other uid_at)
                                     (array_or_empty (prop parsed "tanks")) n)
                           = None))
  /\ ((forall v, String_other v <> None) -> (forall v, Number_other v <> None) ->
      forall text parsed,
        raw = Some text -> text <> [] -> JSON_parse text = Some parsed ->
        parsed <> JNull ->
        exists r, fst (loadState Number String_other Number_other uid_at
                                 iso_t0 iso_t1 JSON_parse raw n) = Loaded r).
Proof.
  assert (Hseed : (exists s, fst (loadState Number String_other Number_other uid_at
                                            iso_t0 iso_t1 JSON_parse raw n) = Seeded s)
                  <-> raw = None \/ raw = Some []
                      \/ exists text, raw = Some text
                           /\ (JSON_parse text = None \/ JSON_parse text = Some JNull
                               \/ exists parsed, JSON_parse text = Some parsed
                                    /\ fst (mapM (normalizeTank Number String_other
                                                                Number_other uid_at)
                                                 (array_or_empty (prop parsed "tanks"))
                                                 n) = None)).
  { unfold loadState, seeded.
    destruct raw as [text|]; [|split; [now left | now eexists]].
    destruct (str_eqb text []) eqn:Ht.
    { apply str_eqb_eq in Ht. subst text.
      split; [intros _; right; now left | now eexists]. }
    apply str_eqb_neq in Ht.
    destruct (JSON_parse text) as [parsed|] eqn:Hp.
    2:{ split; [|now eexists]. intros _. right. right. exists text.
        split; [reflexivity|]. left. exact Hp. }
    pose proof (loadParsed_throws parsed n) as Hthrow.
    destruct (loadParsed _ _ _ _ parsed n) as [[r|] n'] eqn:Hl; cbn [fst] in *.
    - split; [intros (s & Hs); discriminate Hs|].
      intros [H|[H|(text' & Ht' & H)]]; [discriminate H| |].
      + injection H as ->. contradiction.
      + injection Ht' as <-. rewrite Hp in H.
        destruct H as [H|[H|(parsed' & Hp' & H)]]; [discriminate H| |].
        * injection H as ->.
          assert (C : Some r = None) by (apply Hthrow; now left). discriminate C.
        * injection Hp' as <-.
          assert (C : Some r = None) by (apply Hthrow; now right). discriminate C.
    - split; [|now eexists]. intros _. right. right. exists text.
      split; [reflexivity|]. right. rewrite Hp.
      destruct (proj1 Hthrow eq_refl) as [->|H]; [now left|].
      right. now exists parsed. }
  split; [|split; [|split; [|split; [exact Hseed|]]]].
  - unfold loadState, seeded.
    destruct raw as [text|]; [|now exists n].
    destruct (str_eqb text []) eqn:Ht; [now exists n|].
    destruct (JSON_parse text) as [parsed|] eqn:Hp; [|now exists n].
    destruct (loadParsed _ _ _ _ parsed n) as [[r|] n'] eqn:Hl; [|now exists n'].
    cbn [fst]. exists text, parsed.
    split; [reflexivity|]. split; [now apply str_eqb_neq|].
    split; [exact Hp|]. now apply (loadParsed_loads _ _ _ _ Hl).
  - reflexivity.
  - intros t tk (_ & _ & Hname & _ & _ & _ & _ & _ & _ & Hact & Hwp).
    split; [|split].
    + intros E. apply Hname. now rewrite E.
    + intros E. destruct (tank_active tk); [reflexivity|].
      pose proof (proj1 Hact eq_refl). congruence.
    + intros E k. rewrite Hwp, E. reflexivity.
  - intros HS HN text parsed Hraw Hne Hp Hnn.
    destruct (fst (loadState Number String_other Number_other uid_at iso_t0 iso_t1
                             JSON_parse raw n)) as [s|r] eqn:E; [|now exists r].
    exfalso. assert (Hs : exists s0, Seeded s = Seeded s0) by now exists s.
    apply Hseed in Hs. destruct Hs as [H|[H|(text' & Ht' & H)]]; [congruence|congruence|].
    assert (text' = text) by congruence. subst text'. rewrite Hp in H.
    destruct H as [H|[H|(parsed' & Hp' & H)]]; [discriminate H|congruence|].
    injection Hp' as <-.
    apply (mapM_returns (normalizeTank Number String_other Number_other uid_at)
             (array_or_empty (prop parsed "tanks")) n); [|exact H].
    intros t m. now apply normalizeTank_returns.
Qed.

End LoadStateTotal.

End Loading.

(** C2, as stated, fails.  The stored text [{"attempts":[5]}] parses to
    [bad_parsed]; [loadState] returns the document [bad_loaded], whose
    attempts hold the number 5: no attempt, no field of [Attempt] present.
    Only settings and tanks are re-typed. *)
Lemma loadState_keeps_malformed_entities :
  structurally_valid bad_loaded = false
  /\ (forall Number String_other Number_other uid_at n,
        loadParsed Number String_other Number_other uid_at bad_parsed n
        = (Some bad_loaded, n))
  /\ (forall Number String_other Number_other uid_at iso_t0 iso_t1
             JSON_parse text n,
        text <> [] -> JSON_parse text = Some bad_parsed ->
        loadState Number String_other Number_other uid_at iso_t0 iso_t1
                  JSON_parse (Some text) n
        = (Loaded bad_loaded, n))
  /\ ~ (forall parsed n r n',
          loadParsed Number_plain (fun _ => None) (fun _ => None)
                     (fun _ => []) parsed n = (Some r, n') ->
          structurally_valid r = true).
Proof.
  split; [reflexivity|]. split; [reflexivity|]. split.
  - intros Number String_other Number_other uid_at iso_t0 iso_t1 JSON_parse
      text n Ht Hp.
    unfold loadState. apply str_eqb_neq in Ht. rewrite Ht, Hp. reflexivity.
  - intros H. specialize (H bad_parsed 0%nat bad_loaded 0%nat eq_refl).
    discriminate H.
Qed.

(* ===================================================================== *)
(** * Further properties of the store *)

Lemma filter_filter_comm {A} (f g : A -> bool) (l : list A) :
  filter f (filter g l) = filter g (filter f l).
Proof.
  induction l as [|x l IH]; simpl; [reflexivity|].
  destruct (f x) eqn:F, (g x) eqn:G; simpl; rewrite ?F, ?G, IH; reflexivity.
Qed.

Lemma filter_map_gen {A B} (p : B -> bool) (g : A -> B) (l : list A) :
  filter p (map g l) = map g (filter (fun x => p (g x)) l).
Proof.
  induction l as [|x l IH]; simpl; [reflexivity|].
  destruct (p (g x)); simpl; now rewrite IH.
Qed.

Lemma filter_ext_all {A} (f g : A -> bool) (l : list A) :
  (forall x, f x = g x) -> filter f l = filter g l.
Proof.
  intros H. induction l as [|x l IH]; simpl; [reflexivity|].
  now rewrite H, IH.
Qed.


Lemma strip_tank_comm (t1 t2 : jsstring) (a : Attempt) :
  strip_tank t1 (strip_tank t2 a) = strip_tank t2 (strip_tank t1 a).
Proof.
  unfold strip_tank, with_tankIds. cbn [tankIds attempt_id attempt_name lineId
    startDate endDate goal attempt_notes attempt_active attempt_archived].
  now rewrite filter_filter_comm.
Qed.

Lemma existsb_filter {A} (f g : A -> bool) (l : list A) :
  existsb f (filter g l) = existsb (fun x => g x && f x) l.
Proof.
  induction l as [|x l IH]; simpl; [reflexivity|].
  destruct (g x); simpl; now rewrite IH.
Qed.

Lemma existsb_ext_all {A} (f g : A -> bool) (l : list A) :
  (forall x, f x = g x) -> existsb f l = existsb g l.
Proof.
  intros H. induction l as [|x l IH]; simpl; [reflexivity|].
  now rewrite H, IH.
Qed.

(** ** Removals: idempotent, and in any order *)

(** X1. Every removal is idempotent: removing the same id a second time
    changes nothing more. *)
Theorem removals_idempotent (id : jsstring) (s : AppState) :
  removeTank id (removeTank id s) = removeTank id s
  /\ removeAttempt id (removeAttempt id s) = removeAttempt id s
  /\ removeGroup id (removeGroup id s) = removeGroup id s
  /\ removeWater id (removeWater id s) = removeWater id s
  /\ removeLog id (removeLog id s) = removeLog id s.
Proof.
  split; [|split; [|split; [|split]]].
  - apply removeTank_fixed.
    split; [intros t Ht; now apply (In_filter_key tank_id) in Ht|].
    split.
    { intros a Ha. rewrite removeTank_attempts in Ha.
      apply in_map_iff in Ha as (a0 & <- & Ha0).
      apply filter_In in Ha0 as [_ Hk]. split.
      - apply filter_neq_not_In.
      - rewrite <- keeps_a_tank_length in Hk. intros E. rewrite E in Hk.
        discriminate. }
    split; [intros g Hg; now apply (In_filter_key group_tankId) in Hg|].
    split; [intros w Hw; now apply (In_filter_key water_tankId) in Hw|].
    intros e He; now apply (In_filter_key log_tankId) in He.
  - apply removeAttempt_fixed.
    split; [intros a Ha; now apply (In_filter_key attempt_id) in Ha|].
    split; [intros g Hg; now apply (In_filter_key group_attemptId) in Hg|].
    intros e He; now apply (In_filter_key log_attemptId) in He.
  - unfold removeGroup. cbn [groups settings tanks lines attempts water log].
    f_equal. apply filter_all. intros g Hg.
    now apply filter_In in Hg.
  - unfold removeWater. cbn [groups settings tanks lines attempts water log].
    f_equal. apply filter_all. intros w Hw. now apply filter_In in Hw.
  - unfold removeLog. cbn [groups settings tanks lines attempts water log].
    f_equal. apply filter_all. intros e He. now apply filter_In in He.
Qed.

(** The attempts after removing two tanks: those with a tank other than both,
    without both. *)
Lemma removeTank_twice_attempts (t1 t2 : jsstring) (l : list Attempt) :
  filter (fun a => (0 <? List.length (tankIds a))%nat)
    (map (strip_tank t1)
       (filter (fun a => (0 <? List.length (tankIds a))%nat)
          (map (strip_tank t2) l)))
  = map (fun a => strip_tank t1 (strip_tank t2 a))
      (filter (fun a => existsb (fun x => negb (str_eqb x t1) && negb (str_eqb x t2))
                                (tankIds a)) l).
Proof.
  rewrite !filter_map_gen, map_map. f_equal.
  assert (K1 : forall a, keeps_a_tank t1 (strip_tank t2 a)
                 = existsb (fun x => negb (str_eqb x t1) && negb (str_eqb x t2))
                           (tankIds a)).
  { intros a. unfold keeps_a_tank, strip_tank. cbn [tankIds with_tankIds].
    rewrite existsb_filter. apply existsb_ext_all. intros x. apply andb_comm. }
  assert (K2 : forall a,
             existsb (fun x => negb (str_eqb x t1) && negb (str_eqb x t2))
                     (tankIds a) = true -> keeps_a_tank t2 a = true).
  { intros a E. apply existsb_exists in E as (x & Hx & Hc).
    apply andb_true_iff in Hc as [_ Hc].
    apply existsb_exists. now exists x. }
  induction l as [|a l IH]; [reflexivity|]. cbn [filter].
  rewrite (keeps_a_tank_length t2 a).
  destruct (keeps_a_tank t2 a) eqn:E2.
  - cbn [filter]. rewrite (keeps_a_tank_length t1 (strip_tank t2 a)), K1.
    destruct (existsb _ (tankIds a)); now rewrite IH.
  - destruct (existsb (fun x => negb (str_eqb x t1) && negb (str_eqb x t2))
                      (tankIds a)) eqn:E; [|exact IH].
    rewrite (K2 a E) in E2. discriminate.
Qed.

(** X2. Removals commute: a tank and an attempt, or two tanks, removed in
    either order leave the same document. *)
Theorem removals_commute (t1 t2 a : jsstring) (s : AppState) :
  removeTank t1 (removeAttempt a s) = removeAttempt a (removeTank t1 s)
  /\ removeTank t1 (removeTank t2 s) = removeTank t2 (removeTank t1 s)
  /\ removeAttempt t1 (removeAttempt t2 s) = removeAttempt t2 (removeAttempt t1 s).
Proof.
  split; [|split].
  - unfold removeTank, removeAttempt.
    cbn [groups settings tanks lines attempts water log].
    f_equal; try apply filter_filter_comm.
    rewrite (filter_filter_comm (fun a0 => negb (str_eqb (attempt_id a0) a))).
    f_equal. rewrite filter_map_gen. f_equal.
  - unfold removeTank.
    cbn [groups settings tanks lines attempts water log].
    f_equal; try apply filter_filter_comm.
    rewrite !removeTank_twice_attempts.
    rewrite (filter_ext_all
               (fun a0 => existsb (fun x => negb (str_eqb x t2) && negb (str_eqb x t1))
                                  (tankIds a0))
               (fun a0 => existsb (fun x => negb (str_eqb x t1) && negb (str_eqb x t2))
                                  (tankIds a0)))
      by (intros a0; apply existsb_ext_all; intros x; apply andb_comm).
    apply map_ext. intros a0. apply strip_tank_comm.
  - unfold removeAttempt.
    cbn [groups settings tanks lines attempts water log].
    f_equal; apply filter_filter_comm.
Qed.

(** ** References across the cascades *)

Lemma In_map_filter_key {A} (key : A -> jsstring) (id x : jsstring) (l : list A) :
  In x (map key l) -> x <> id ->
  In x (map key (filter (fun y => negb (str_eqb (key y) id)) l)).
Proof.
  intros Hin Hne. apply in_map_iff in Hin as (y & <- & Hy).
  apply in_map_iff. exists y. split; [reflexivity|].
  now apply (In_filter_key key).
Qed.

(** X3. [removeAttempt] keeps the references whole: when every reference to
    a tank and to an attempt resolves before, it does after. *)
Theorem removeAttempt_keeps_references (id : jsstring) (s : AppState)
  (Ht : tank_refs_ok s) (Ha : attempt_refs_ok s) :
  tank_refs_ok (removeAttempt id s) /\ attempt_refs_ok (removeAttempt id s).
Proof.
  destruct Ht as (Ht1 & Ht2 & Ht3 & Ht4). destruct Ha as (Ha1 & Ha2).
  unfold tank_refs_ok, attempt_refs_ok, removeAttempt.
  cbn [groups settings tanks lines attempts water log].
  split; [split; [|split; [|split]] | split].
  - intros a x Hin Hx. apply filter_In in Hin as [Hin _]. now apply (Ht1 a).
  - intros g Hg. apply filter_In in Hg as [Hg _]. now apply Ht2.
  - exact Ht3.
  - intros e He. apply filter_In in He as [He _]. now apply Ht4.
  - intros g Hg. apply (In_filter_key group_attemptId) in Hg as [Hg Hne].
    apply In_map_filter_key; auto.
  - intros e He. apply (In_filter_key log_attemptId) in He as [He Hne].
    apply In_map_filter_key; auto.
Qed.

Lemma removeAttempt_keeps_references_witness :
  tank_refs_ok (removeAttempt (lit "a1") ex_state)
  /\ attempt_refs_ok (removeAttempt (lit "a1") ex_state).
Proof.
  apply removeAttempt_keeps_references.
  - split; [|split; [|split]].
    + intros a x [<-|[]] [<-|[]]. now left.
    + intros g [<-|[]]. now left.
    + intros w [].
    + intros e [<-|[<-|[]]]; [right; now left | now left].
  - split.
    + intros g [<-|[]]. now left.
    + intros e [<-|[<-|[]]]; now left.
Defined.

(** X4. [removeTank] keeps the references to tanks whole: what still names a
    tank afterwards names one that is still there. *)
Theorem removeTank_keeps_tank_references (id : jsstring) (s : AppState)
  (Ht : tank_refs_ok s) :
  tank_refs_ok (removeTank id s).
Proof.
  destruct Ht as (Ht1 & Ht2 & Ht3 & Ht4).
  unfold tank_refs_ok.
  assert (Htk : forall x, In x (map tank_id (tanks s)) -> x <> id ->
                In x (map tank_id (tanks (removeTank id s)))).
  { intros x Hx Hne. unfold removeTank. cbn [tanks].
    now apply In_map_filter_key. }
  split; [|split; [|split]].
  - intros a x Hin Hx. rewrite removeTank_attempts in Hin.
    apply in_map_iff in Hin as (a0 & <- & Ha0).
    apply filter_In in Ha0 as [Ha0 _].
    unfold strip_tank in Hx. cbn [tankIds with_tankIds] in Hx.
    apply filter_In in Hx as [Hx Hne]. apply negb_str_eqb_true in Hne.
    apply Htk; [now apply (Ht1 a0) | exact Hne].
  - intros g Hg. unfold removeTank in Hg. cbn [groups] in Hg.
    apply (In_filter_key group_tankId) in Hg as [Hg Hne].
    apply Htk; auto.
  - intros w Hw. unfold removeTank in Hw. cbn [water] in Hw.
    apply (In_filter_key water_tankId) in Hw as [Hw Hne].
    apply Htk; auto.
  - intros e He. unfold removeTank in He. cbn [log] in He.
    apply (In_filter_key log_tankId) in He as [He Hne].
    destruct (Ht4 e He) as [H|H]; [now left | right; apply Htk; auto].
Qed.

Lemma removeTank_keeps_tank_references_witness :
  tank_refs_ok (removeTank (lit "t1") ex_state).
Proof.
  apply removeTank_keeps_tank_references.
  split; [|split; [|split]].
  - intros a x [<-|[]] [<-|[]]. now left.
  - intros g [<-|[]]. now left.
  - intros w [].
  - intros e [<-|[<-|[]]]; [right; now left | now left].
Defined.





(** ** Adding and removing, upserting and looking up *)

(** X7. An entry added under an id that is not yet in its collection and
    removed again leaves the document as it was (water entries, log entries
    and groups alike). *)
Theorem add_then_remove (fresh : jsstring) (s : AppState)
  (pw : WaterPayload) (pl : LogPayload) (g : Group) :
  ((forall w, In w (water s) -> water_id w <> fresh) ->
   removeWater fresh (addWater fresh pw s) = s)
  /\ ((forall e, In e (log s) -> log_id e <> fresh) ->
      removeLog fresh (addLog fresh pl s) = s)
  /\ ((forall g', In g' (groups s) -> group_id g' <> group_id g) ->
      removeGroup (group_id g) (upsertGroup g s) = s).
Proof.
  destruct s as [st tk ln at_ gr wa lg].
  unfold removeWater, addWater, removeLog, addLog, removeGroup, upsertGroup.
  cbn [groups settings tanks lines attempts water log].
  split; [|split]; intros H; f_equal; cbn [filter water_id log_id];
    rewrite str_eqb_refl; cbn [negb];
    now apply (proj2 (filter_key_fixed _ _ _)).
Qed.

Lemma add_then_remove_witness :
  removeLog (lit "e9")
    (addLog (lit "e9")
       (mkLogPayload (lit "a1") [] (lit "2025-01-20") Futter (lit "Artemia") [])
       ex_state) = ex_state.
Proof.
  apply (proj1 (proj2 (add_then_remove (lit "e9") ex_state
                         (mkWaterPayload [] [] [] (all_params None))
                         (mkLogPayload (lit "a1") [] (lit "2025-01-20") Futter
                                       (lit "Artemia") [])
                         ex_group))).
  intros e [<-|[<-|[]]]; discriminate.
Defined.

Section UpsertList.

Context {A : Type} (key : A -> jsstring) (merge : A -> A -> A).
Hypothesis merge_takes_new : forall x e, merge x e = e.

#[local] Abbreviation upsert_list := (upsert_list key merge).

Lemma upsert_map_keys (e : A) (l : list A) :
  map key (map (fun x => if str_eqb (key x) (key e) then merge x e else x) l)
  = map key l.
Proof.
  rewrite map_map. apply map_ext. intros x.
  destruct (str_eqb (key x) (key e)) eqn:E; [|reflexivity].
  rewrite merge_takes_new. symmetry. now apply str_eqb_eq.
Qed.

Lemma upsert_list_keys (e : A) (l : list A) :
  map key (upsert_list e l)
  = if existsb (fun x => str_eqb (key x) (key e)) l
    then map key l else key e :: map key l.
Proof.
  unfold upsert_list. destruct (existsb _ l); [apply upsert_map_keys | reflexivity].
Qed.

Lemma existsb_key_In (k : jsstring) (l : list A) :
  existsb (fun x => str_eqb (key x) k) l = true <-> In k (map key l).
Proof.
  rewrite existsb_exists, in_map_iff. split; intros (x & H1 & H2).
  - exists x. split; [now apply str_eqb_eq | exact H1].
  - exists x. split; [exact H2 | now apply str_eqb_eq].
Qed.

Lemma upsert_list_exists (e : A) (l : list A) :
  existsb (fun x => str_eqb (key x) (key e)) (upsert_list e l) = true.
Proof.
  apply existsb_key_In. rewrite upsert_list_keys.
  destruct (existsb _ l) eqn:E; [now apply existsb_key_In | now left].
Qed.

Lemma upsert_list_same (e x : A) (l : list A) :
  In x (upsert_list e l) -> key x = key e -> x = e.
Proof.
  unfold upsert_list. destruct (existsb _ l) eqn:E; intros Hin Hk.
  - apply in_map_iff in Hin as (y & Hy & _).
    destruct (str_eqb (key y) (key e)) eqn:F.
    + now rewrite merge_takes_new in Hy.
    + subst y. apply str_eqb_neq in F. contradiction.
  - destruct Hin as [->|Hin]; [reflexivity|]. exfalso.
    apply not_true_iff_false in E. apply E. apply existsb_key_In.
    rewrite <- Hk. now apply in_map.
Qed.

Lemma upsert_list_In (e : A) (l : list A) : In e (upsert_list e l).
Proof.
  pose proof (upsert_list_exists e l) as H.
  apply existsb_exists in H as (x & Hx & Hk). apply str_eqb_eq in Hk.
  pose proof (upsert_list_same e x l Hx Hk) as E. now subst x.
Qed.

Lemma upsert_list_idem (e : A) (l : list A) :
  upsert_list e (upsert_list e l) = upsert_list e l.
Proof.
  unfold upsert_list at 1. rewrite upsert_list_exists.
  apply map_all_fixed. intros x Hx.
  destruct (str_eqb (key x) (key e)) eqn:F; [|reflexivity].
  rewrite merge_takes_new. symmetry.
  apply (upsert_list_same e x l Hx). now apply str_eqb_eq.
Qed.

Lemma upsert_list_NoDup (e : A) (l : list A) :
  NoDup (map key l) -> NoDup (map key (upsert_list e l)).
Proof.
  intros H. rewrite upsert_list_keys.
  destruct (existsb _ l) eqn:E; [exact H|].
  constructor; [|exact H]. intros Hin. apply existsb_key_In in Hin. congruence.
Qed.

Lemma upsert_list_others (e x : A) (l : list A) :
  key x <> key e -> (In x (upsert_list e l) <-> In x l).
Proof.
  intros Hne. unfold upsert_list. destruct (existsb _ l).
  - rewrite in_map_iff. split.
    + intros (y & Hy & Hin). destruct (str_eqb (key y) (key e)) eqn:F.
      * rewrite merge_takes_new in Hy. subst x. contradiction.
      * now subst y.
    + intros Hin. exists x. split; [|exact Hin].
      now rewrite (proj2 (str_eqb_neq _ _) Hne).
  - split; [intros [->|H]; [contradiction | exact H] | now right].
Qed.

Lemma upsert_list_find (e : A) (l : list A) :
  find (fun x => str_eqb (key x) (key e)) (upsert_list e l) = Some e.
Proof.
  destruct (find _ (upsert_list e l)) as [x|] eqn:F.
  - apply find_some in F as [Hin Hk]. apply str_eqb_eq in Hk.
    now rewrite (upsert_list_same e x l Hin Hk).
  - exfalso. pose proof (find_none _ _ F e (upsert_list_In e l)) as H.
    simpl in H. now rewrite str_eqb_refl in H.
Qed.

End UpsertList.

Lemma merge_tank_new (x e : Tank) : merge_tank x e = e.
Proof. now destruct e. Qed.

Lemma merge_attempt_new (x e : Attempt) : merge_attempt x e = e.
Proof. now destruct e. Qed.

Lemma upsertTank_tanks (t : Tank) (s : AppState) :
  tanks (upsertTank t s) = upsert_list tank_id merge_tank t (tanks s).
Proof. reflexivity. Qed.

Lemma upsertAttempt_attempts (a : Attempt) (s : AppState) :
  attempts (upsertAttempt a s) = upsert_list attempt_id merge_attempt a (attempts s).
Proof. reflexivity. Qed.

(** X8. [upsertTank] and [upsertAttempt] are idempotent, put the record into
    the collection, leave no other record under its id, keep the records of
    other ids, and keep the ids free of duplicates when they were. *)
Theorem upserts_keep_ids_unique (t : Tank) (a : Attempt) (s : AppState) :
  upsertTank t (upsertTank t s) = upsertTank t s
  /\ upsertAttempt a (upsertAttempt a s) = upsertAttempt a s
  /\ In t (tanks (upsertTank t s))
  /\ In a (attempts (upsertAttempt a s))
  /\ (forall x, In x (tanks (upsertTank t s)) -> tank_id x = tank_id t -> x = t)
  /\ (forall x, In x (attempts (upsertAttempt a s)) ->
        attempt_id x = attempt_id a -> x = a)
  /\ (forall x, tank_id x <> tank_id t ->
        (In x (tanks (upsertTank t s)) <-> In x (tanks s)))
  /\ (forall x, attempt_id x <> attempt_id a ->
        (In x (attempts (upsertAttempt a s)) <-> In x (attempts s)))
  /\ (NoDup (map tank_id (tanks s)) ->
      NoDup (map tank_id (tanks (upsertTank t s))))
  /\ (NoDup (map attempt_id (attempts s)) ->
      NoDup (map attempt_id (attempts (upsertAttempt a s)))).
Proof.
  split; [|split].
  - pose proof (upsert_list_idem tank_id merge_tank merge_tank_new t (tanks s)) as H.
    unfold upsertTank at 1.
    cbn [groups settings tanks lines attempts water log].
    fold (upsert_list tank_id merge_tank t (tanks (upsertTank t s))).
    rewrite upsertTank_tanks, H. reflexivity.
  - pose proof (upsert_list_idem attempt_id merge_attempt merge_attempt_new
                                 a (attempts s)) as H.
    unfold upsertAttempt at 1.
    cbn [groups settings tanks lines attempts water log].
    fold (upsert_list attempt_id merge_attempt a (attempts (upsertAttempt a s))).
    rewrite upsertAttempt_attempts, H. reflexivity.
  - rewrite upsertTank_tanks, upsertAttempt_attempts.
    split; [apply upsert_list_In; apply merge_tank_new|].
    split; [apply upsert_list_In; apply merge_attempt_new|].
    split; [intros x; apply upsert_list_same; apply merge_tank_new|].
    split; [intros x; apply upsert_list_same; apply merge_attempt_new|].
    split; [intros x; apply upsert_list_others; apply merge_tank_new|].
    split; [intros x; apply upsert_list_others; apply merge_attempt_new|].
    split; [apply upsert_list_NoDup; apply merge_tank_new|].
    apply upsert_list_NoDup; apply merge_attempt_new.
Qed.

Lemma tanksById_snoc (l : list Tank) (t : Tank) (k : jsstring) :
  tanksById (l ++ [t]) k = if str_eqb k (tank_id t) then Some t else tanksById l k.
Proof. unfold tanksById. now rewrite fold_left_app. Qed.

(** [tanksById] returns a tank of that id from the list, the last one. *)
Lemma tanksById_Some (l : list Tank) (k : jsstring) (t : Tank) :
  tanksById l k = Some t -> In t l /\ tank_id t = k.
Proof.
  induction l as [|x l IH] using rev_ind; [discriminate|].
  rewrite tanksById_snoc. destruct (str_eqb k (tank_id x)) eqn:E.
  - intros H. injection H as <-. apply str_eqb_eq in E.
    split; [apply in_or_app; right; now left | now symmetry].
  - intros H. destruct (IH H) as [Hin Hk].
    split; [apply in_or_app; now left | exact Hk].
Qed.

Lemma tanksById_None (l : list Tank) (k : jsstring) :
  tanksById l k = None <-> ~ In k (map tank_id l).
Proof.
  induction l as [|x l IH] using rev_ind; [now split|].
  rewrite tanksById_snoc, map_app, in_app_iff. cbn [map In].
  destruct (str_eqb k (tank_id x)) eqn:E.
  - apply str_eqb_eq in E. split; [discriminate|]. intros H. exfalso.
    apply H. right. left. now symmetry.
  - apply str_eqb_neq in E. rewrite IH. split.
    + intros H [G|[G|[]]]; [now apply H | now apply E].
    + intros H G. apply H. now left.
Qed.

(** X9. After [upsertTank t], looking [t]'s id up in [tanksById] gives [t];
    after [upsertAttempt a], the attempt found under [a]'s id, and so the
    selected attempt once the editor has selected that id, is [a]. *)
Theorem lookup_after_upsert (t : Tank) (a : Attempt) (s : AppState) :
  tanksById (tanks (upsertTank t s)) (tank_id t) = Some t
  /\ find_attempt (attempts (upsertAttempt a s)) (attempt_id a) = Some a
  /\ (attempt_id a <> [] ->
      selected (attempts (upsertAttempt a s)) (attempt_id a) = Some a).
Proof.
  assert (Hf : find_attempt (attempts (upsertAttempt a s)) (attempt_id a) = Some a).
  { unfold find_attempt. rewrite upsertAttempt_attempts.
    apply upsert_list_find. apply merge_attempt_new. }
  split; [|split; [exact Hf|]].
  - destruct (tanksById (tanks (upsertTank t s)) (tank_id t)) as [x|] eqn:E.
    + apply tanksById_Some in E as [Hin Hk]. rewrite upsertTank_tanks in Hin.
      now rewrite (upsert_list_same tank_id merge_tank merge_tank_new t x _ Hin Hk).
    + exfalso. apply tanksById_None in E. apply E.
      apply in_map. rewrite upsertTank_tanks.
      apply upsert_list_In. apply merge_tank_new.
  - intros Hne. unfold selected.
    now rewrite (proj2 (str_eqb_neq _ _) Hne).
Qed.

Lemma lookup_after_upsert_witness :
  selected (attempts (upsertAttempt ex_attempt ex_state)) (lit "a1")
  = Some ex_attempt.
Proof.
  apply (proj2 (proj2 (lookup_after_upsert ex_tank ex_attempt ex_state))).
  discriminate.
Defined.

(** ** The attempt editor's tank list *)

(** X10. [toggleTank id] flips whether [id] is in the list and nothing else:
    the other ids stay, in their order; a list without duplicates stays
    without; toggling twice an id that was not there gives the list back. *)
Theorem toggleTank_flips (id : jsstring) (prev : list jsstring) :
  (In id (toggleTank id prev) <-> ~ In id prev)
  /\ (forall x, x <> id -> (In x (toggleTank id prev) <-> In x prev))
  /\ filter (fun x => negb (str_eqb x id)) (toggleTank id prev)
     = filter (fun x => negb (str_eqb x id)) prev
  /\ (NoDup prev -> NoDup (toggleTank id prev))
  /\ (~ In id prev -> toggleTank id (toggleTank id prev) = prev)
  /\ (In id prev ->
      toggleTank id (toggleTank id prev)
      = filter (fun x => negb (str_eqb x id)) prev ++ [id]).
Proof.
  assert (Hex : existsb (fun x => str_eqb x id) prev = true <-> In id prev).
  { rewrite existsb_exists. split.
    - intros (x & Hx & E). apply str_eqb_eq in E. now subst.
    - intros H. exists id. split; [exact H | apply str_eqb_refl]. }
  assert (Hnot : forall l, ~ In id l -> existsb (fun x => str_eqb x id) l = false).
  { intros l H. apply not_true_iff_false. intros E.
    apply existsb_exists in E as (x & Hx & E). apply str_eqb_eq in E.
    subst. contradiction. }
  assert (Hfid : forall l, ~ In id l -> filter (fun x => negb (str_eqb x id)) l = l).
  { intros l H. apply filter_all. intros x Hx. apply negb_str_eqb_true.
    intros ->. contradiction. }
  unfold toggleTank at 1 2 3 4.
  destruct (existsb (fun x => str_eqb x id) prev) eqn:E.
  - assert (Hin : In id prev) by now apply Hex.
    split; [split; [intros H; now apply filter_neq_not_In in H | contradiction]|].
    split.
    { intros x Hne. rewrite filter_In, negb_str_eqb_true. tauto. }
    split.
    { apply filter_all. intros x Hx. now apply filter_In in Hx. }
    split; [apply NoDup_filter|].
    split; [contradiction|]. intros _.
    unfold toggleTank. rewrite E.
    now rewrite (Hnot _ (filter_neq_not_In id prev)).
  - assert (Hnin : ~ In id prev).
    { intros H. apply Hex in H. congruence. }
    split; [split; [auto | intros _; apply in_or_app; right; now left]|].
    split.
    { intros x Hne. rewrite in_app_iff. cbn [In]. split; [|tauto].
      intros [H|[H|[]]]; [exact H | congruence]. }
    split.
    { rewrite filter_app. cbn [filter]. rewrite str_eqb_refl. cbn [negb].
      apply app_nil_r. }
    split.
    { intros Hnd. apply NoDup_app; auto.
      - constructor; [intros [] | constructor].
      - intros x Hx [<-|[]]. contradiction. }
    split; [|contradiction]. intros _.
    unfold toggleTank. rewrite E.
    assert (E2 : existsb (fun x => str_eqb x id) (prev ++ [id]) = true).
    { rewrite existsb_app. cbn [existsb]. rewrite str_eqb_refl.
      now rewrite orb_true_r. }
    rewrite E2, filter_app. cbn [filter]. rewrite str_eqb_refl. cbn [negb].
    rewrite app_nil_r. now apply Hfid.
Qed.

(** ** The parameters of a tank *)

(** X11. [activeParams] is never empty and has no duplicates; it holds the
    keys enabled on the tank, in the order of the catalog, and [temp] alone
    when none is enabled; without a tank it is the whole catalog. *)
Theorem activeParams_never_empty (tank : option Tank) (k : ParamKey) :
  activeParams tank <> []
  /\ NoDup (activeParams tank)
  /\ (In k (activeParams tank)
      <-> match tank with
          | Some t =>
              get_param (waterParams t) k = true
              \/ ((forall k', get_param (waterParams t) k' = false) /\ k = temp)
          | None => True
          end)
  /\ activeParams tank
     = filter (fun k' => existsb (ParamKey_eqb k') (activeParams tank)) ALL_PARAM_KEYS
  /\ activeParams None = ALL_PARAM_KEYS.
Proof.
  assert (Hall : forall k', In k' ALL_PARAM_KEYS) by (intros []; simpl; tauto).
  assert (Hnd : NoDup ALL_PARAM_KEYS).
  { repeat constructor; simpl; intuition discriminate. }
  assert (Hgen : forall wp : WaterParams,
            let l := filter (fun k' => get_param wp k') ALL_PARAM_KEYS in
            let r := match l with [] => [temp] | _ :: _ => l end in
            r <> [] /\ NoDup r
            /\ (In k r <-> get_param wp k = true
                           \/ ((forall k', get_param wp k' = false) /\ k = temp))
            /\ r = filter (fun k' => existsb (ParamKey_eqb k') r) ALL_PARAM_KEYS).
  { intros wp l r.
    assert (Hl : forall k', In k' l <-> get_param wp k' = true).
    { intros k'. unfold l. rewrite filter_In. split; [tauto | auto]. }
    assert (Hndl : NoDup l) by (apply NoDup_filter; exact Hnd).
    assert (Hfl : l = filter (fun k' => existsb (ParamKey_eqb k') l) ALL_PARAM_KEYS).
    { unfold l at 1. apply filter_ext_in. intros k' _.
      destruct (get_param wp k') eqn:G.
      - symmetry. apply existsb_exists. exists k'.
        split; [now apply Hl | now apply ParamKey_eqb_eq].
      - symmetry. apply not_true_iff_false. intros E.
        apply existsb_exists in E as (k2 & Hk2 & E2).
        apply ParamKey_eqb_eq in E2. subst k2. apply Hl in Hk2. congruence. }
    destruct l as [|k0 l'] eqn:El; subst r.
    - split; [discriminate|]. split; [repeat constructor; intros []|].
      split; [|reflexivity].
      assert (Hoff : forall k', get_param wp k' = false).
      { intros k'. destruct (get_param wp k') eqn:G; [|reflexivity].
        apply Hl in G. contradiction. }
      cbn [In]. split.
      + intros [<-|[]]. now right.
      + intros [G|[_ ->]]; [rewrite Hoff in G; discriminate | now left].
    - split; [discriminate|]. split; [exact Hndl|]. split; [|exact Hfl].
      rewrite Hl. split; [now left|]. intros [G|[Hoff _]]; [exact G|].
      exfalso. assert (G : In k0 (k0 :: l')) by now left.
      apply Hl in G. rewrite Hoff in G. discriminate. }
  destruct tank as [t|].
  - destruct (Hgen (waterParams t)) as (H1 & H2 & H3 & H4).
    unfold activeParams.
    split; [exact H1|]. split; [exact H2|]. split; [exact H3|].
    split; [exact H4 | reflexivity].
  - unfold activeParams.
    change (filter (fun k' => get_param (makeAllParams true) k') ALL_PARAM_KEYS)
      with ALL_PARAM_KEYS.
    cbn [ALL_PARAM_KEYS]. fold ALL_PARAM_KEYS.
    split; [discriminate|]. split; [exact Hnd|].
    split; [split; [auto | intros _; apply Hall]|].
    split; [|reflexivity]. now vm_compute.
Qed.

(* ===================================================================== *)
(** * Dates as strings *)

Lemma forallb_range (P : N -> bool) (lo len : nat) :
  forallb P (map N.of_nat (seq lo len)) = true ->
  forall n, (lo <= N.to_nat n < lo + len)%nat -> P n = true.
Proof.
  intros H n Hn. rewrite forallb_forall in H. apply H.
  apply in_map_iff. exists (N.to_nat n). split; [apply N2Nat.id|].
  apply in_seq. exact Hn.
Qed.

Lemma dec_value_bound (s : jsstring) :
  forallb is_digit s = true -> (dec_value s < 10 ^ N.of_nat (List.length s))%N.
Proof.
  induction s as [|c s IH]; intros H; [simpl; lia|].
  cbn [forallb] in H. apply andb_true_iff in H as [Hc Hs].
  specialize (IH Hs). unfold is_digit in Hc.
  apply andb_true_iff in Hc as [H1 H2]. apply N.leb_le in H1, H2.
  cbn [dec_value List.length]. rewrite Nat2N.inj_succ, N.pow_succ_r'.
  nia.
Qed.

(** Strings of digits of one length are ordered as the numbers they write. *)
Lemma digits_order (a b : jsstring) :
  forallb is_digit a = true -> forallb is_digit b = true ->
  List.length a = List.length b ->
  str_ltb a b = (dec_value a <? dec_value b)%N
  /\ str_eqb a b = (dec_value a =? dec_value b)%N.
Proof.
  revert b; induction a as [|x a IH]; intros [|y b] Ha Hb Hlen;
    try discriminate Hlen; [now split|].
  cbn [forallb] in Ha, Hb.
  apply andb_true_iff in Ha as [Hx Ha]. apply andb_true_iff in Hb as [Hy Hb].
  injection Hlen as Hlen. destruct (IH b Ha Hb Hlen) as [IH1 IH2].
  pose proof (dec_value_bound a Ha) as Ba.
  pose proof (dec_value_bound b Hb) as Bb.
  unfold is_digit in Hx, Hy.
  apply andb_true_iff in Hx as [Hx1 Hx2]. apply andb_true_iff in Hy as [Hy1 Hy2].
  apply N.leb_le in Hx1, Hx2, Hy1, Hy2.
  cbn [str_ltb str_eqb dec_value]. rewrite IH1, IH2, <- Hlen in *.
  set (p := (10 ^ N.of_nat (List.length a))%N) in *.
  destruct (N.ltb_spec x y) as [L|L]; destruct (N.eqb_spec x y) as [E|E];
    cbn [andb]; try lia.
  - split; [symmetry; apply N.ltb_lt; nia | symmetry; apply N.eqb_neq; nia].
  - subst y. split.
    + destruct (N.ltb_spec (dec_value a) (dec_value b));
        symmetry; [apply N.ltb_lt | apply N.ltb_ge]; lia.
    + destruct (N.eqb_spec (dec_value a) (dec_value b));
        symmetry; [apply N.eqb_eq | apply N.eqb_neq]; lia.
  - split; [symmetry; apply N.ltb_ge; nia | symmetry; apply N.eqb_neq; nia].
Qed.

(** Two strings that start with fields of one length are ordered by the
    fields first. *)
Lemma str_ltb_app (a b x y : jsstring) :
  List.length a = List.length b ->
  str_ltb (a ++ x) (b ++ y) = if str_eqb a b then str_ltb x y else str_ltb a b.
Proof.
  revert b; induction a as [|c a IH]; intros [|d b] Hlen;
    try discriminate Hlen; [reflexivity|].
  injection Hlen as Hlen. cbn [app str_ltb str_eqb].
  destruct (N.ltb_spec c d); destruct (N.eqb_spec c d); cbn [andb];
    try reflexivity; try lia.
  - now apply IH.
Qed.

Lemma str_eqb_app (a b x y : jsstring) :
  List.length a = List.length b ->
  str_eqb (a ++ x) (b ++ y) = str_eqb a b && str_eqb x y.
Proof.
  revert b; induction a as [|c a IH]; intros [|d b] Hlen;
    try discriminate Hlen; [reflexivity|].
  injection Hlen as Hlen. cbn [app str_eqb].
  now rewrite (IH b Hlen), andb_assoc.
Qed.

(** [pad2] of a number below 100: its two digits. *)
Lemma pad2_two_digits (n : N) :
  (n < 100)%N ->
  List.length (pad2 n) = 2%nat /\ forallb is_digit (pad2 n) = true
  /\ dec_value (pad2 n) = n.
Proof.
  intros Hn.
  assert (H : ((List.length (pad2 n) =? 2)%nat && forallb is_digit (pad2 n)
               && (dec_value (pad2 n) =? n)%N) = true).
  { apply (forallb_range
             (fun n => (List.length (pad2 n) =? 2)%nat && forallb is_digit (pad2 n)
                       && (dec_value (pad2 n) =? n)%N) 0 100);
      [vm_compute; reflexivity | lia]. }
  apply andb_true_iff in H as [H H3]. apply andb_true_iff in H as [H1 H2].
  apply Nat.eqb_eq in H1. apply N.eqb_eq in H3. auto.
Qed.

(** [String] of a year of four digits: four digits that write it. *)
Lemma year_four_digits (y : Z) :
  (1000 <= y <= 9999)%Z ->
  List.length (String_of_Z y) = 4%nat /\ forallb is_digit (String_of_Z y) = true
  /\ dec_value (String_of_Z y) = Z.to_N y.
Proof.
  intros Hy. unfold String_of_Z.
  destruct (Z.ltb_spec y 0) as [Hneg|Hpos]; [lia|].
  assert (H : ((List.length (String_of_N (Z.to_N y)) =? 4)%nat
               && forallb is_digit (String_of_N (Z.to_N y))
               && (dec_value (String_of_N (Z.to_N y)) =? Z.to_N y)%N) = true).
  { apply (forallb_range
             (fun n => (List.length (String_of_N n) =? 4)%nat
                       && forallb is_digit (String_of_N n)
                       && (dec_value (String_of_N n) =? n)%N) 1000 (9 * 1000));
      [vm_compute; reflexivity | lia]. }
  apply andb_true_iff in H as [H H3]. apply andb_true_iff in H as [H1 H2].
  apply Nat.eqb_eq in H1. apply N.eqb_eq in H3. auto.
Qed.

Lemma four_digit_date_spec (f : DateFields) :
  four_digit_date f = true ->
  (1000 <= getFullYear f <= 9999)%Z /\ (getMonth f + 1 < 100)%N
  /\ (getDate f < 100)%N.
Proof.
  unfold four_digit_date. rewrite !andb_true_iff.
  intros ((((H1 & H2) & H3) & H4) & H5).
  apply Z.leb_le in H1, H2. apply N.leb_le in H3, H4, H5. lia.
Qed.

Section DateStrings.

Variable Date_parse : jsstring -> option DateFields.

(** X12. [toISODate] of an invalid date is the empty string; of a date with a
    year of four digits it is ten units long, [YYYY-MM-DD]: the digits of the
    year, of the month counted from 1 and of the day, with hyphens at the
    fifth and eighth place. *)
Theorem toISODate_shape (f : DateFields) (Hf : four_digit_date f = true) :
  toISODate Date_parse (ADate None) = []
  /\ List.length (toISODate Date_parse (ADate (Some f))) = 10%nat
  /\ (exists y m d,
        toISODate Date_parse (ADate (Some f)) = y ++ [45%N] ++ m ++ [45%N] ++ d
        /\ List.length y = 4%nat /\ List.length m = 2%nat /\ List.length d = 2%nat
        /\ forallb is_digit (y ++ m ++ d) = true
        /\ dec_value y = Z.to_N (getFullYear f)
        /\ dec_value m = (getMonth f + 1)%N
        /\ dec_value d = getDate f)
  /\ (forall s, Date_parse s = Some f ->
        toISODate Date_parse (AString s) = toISODate Date_parse (ADate (Some f)))
  /\ (forall s, Date_parse s = None -> toISODate Date_parse (AString s) = []).
Proof.
  destruct (four_digit_date_spec f Hf) as (Hy & Hm & Hd).
  destruct (year_four_digits _ Hy) as (Y1 & Y2 & Y3).
  destruct (pad2_two_digits _ Hm) as (M1 & M2 & M3).
  destruct (pad2_two_digits _ Hd) as (D1 & D2 & D3).
  split; [reflexivity|]. split; [|split; [|split]].
  - unfold toISODate. rewrite !length_app, Y1, M1, D1. reflexivity.
  - exists (String_of_Z (getFullYear f)), (pad2 (getMonth f + 1)), (pad2 (getDate f)).
    split; [reflexivity|].
    rewrite !forallb_app, Y2, M2, D2. auto 10.
  - intros s Hs. unfold toISODate. now rewrite Hs.
  - intros s Hs. unfold toISODate. now rewrite Hs.
Qed.

(** X13. For dates with years of four digits the strings of [toISODate] are
    ordered as the dates are: [a < b] on the strings says that the first
    date is the earlier one, and the strings are equal only for the same day.
    (It is the order the comparators of the log and of the attempts sort
    by.) *)
Theorem toISODate_order (f g : DateFields)
  (Hf : four_digit_date f = true) (Hg : four_digit_date g = true) :
  str_ltb (toISODate Date_parse (ADate (Some f)))
          (toISODate Date_parse (ADate (Some g))) = date_ltb f g
  /\ (toISODate Date_parse (ADate (Some f)) = toISODate Date_parse (ADate (Some g))
      <-> f = g).
Proof.
  destruct (four_digit_date_spec f Hf) as (Hy & Hm & Hd).
  destruct (four_digit_date_spec g Hg) as (Hy' & Hm' & Hd').
  destruct (year_four_digits _ Hy) as (Y1 & Y2 & Y3).
  destruct (pad2_two_digits _ Hm) as (M1 & M2 & M3).
  destruct (pad2_two_digits _ Hd) as (D1 & D2 & D3).
  destruct (year_four_digits _ Hy') as (Y1' & Y2' & Y3').
  destruct (pad2_two_digits _ Hm') as (M1' & M2' & M3').
  destruct (pad2_two_digits _ Hd') as (D1' & D2' & D3').
  destruct (digits_order _ _ Y2 Y2' (eq_trans Y1 (eq_sym Y1'))) as [Yl Ye].
  destruct (digits_order _ _ M2 M2' (eq_trans M1 (eq_sym M1'))) as [Ml Me].
  destruct (digits_order _ _ D2 D2' (eq_trans D1 (eq_sym D1'))) as [Dl De].
  rewrite Y3, Y3' in Yl, Ye. rewrite M3, M3' in Ml, Me. rewrite D3, D3' in Dl, De.
  assert (Hlt : str_ltb (toISODate Date_parse (ADate (Some f)))
                        (toISODate Date_parse (ADate (Some g))) = date_ltb f g).
  { unfold toISODate, date_ltb.
    rewrite str_ltb_app by congruence. rewrite Ye, Yl.
    change (lit "-") with [45%N]. cbn [app str_ltb].
    rewrite N.ltb_irrefl, N.eqb_refl.
    rewrite str_ltb_app by congruence. rewrite Me, Ml.
    cbn [app str_ltb]. rewrite N.ltb_irrefl, N.eqb_refl, Dl.
    destruct (Z.eqb_spec (getFullYear f) (getFullYear g)) as [E|E].
    - rewrite E, N.eqb_refl.
      destruct (N.eqb_spec (getMonth f) (getMonth g)) as [E2|E2].
      + rewrite E2, N.eqb_refl. reflexivity.
      + destruct (N.eqb_spec (getMonth f + 1) (getMonth g + 1)); [lia|].
        destruct (N.ltb_spec (getMonth f + 1) (getMonth g + 1));
          destruct (N.ltb_spec (getMonth f) (getMonth g)); lia || reflexivity.
    - destruct (N.eqb_spec (Z.to_N (getFullYear f)) (Z.to_N (getFullYear g)));
        [lia|].
      destruct (N.ltb_spec (Z.to_N (getFullYear f)) (Z.to_N (getFullYear g)));
        destruct (Z.ltb_spec (getFullYear f) (getFullYear g)); lia || reflexivity. }
  split; [exact Hlt|]. split; [|now intros ->].
  intros E. apply str_eqb_eq in E. unfold toISODate in E.
  rewrite str_eqb_app in E by congruence.
  apply andb_true_iff in E as [E1 E].
  change (lit "-") with [45%N] in E. cbn [app str_eqb] in E.
  rewrite N.eqb_refl in E. cbn [andb] in E.
  rewrite str_eqb_app in E by congruence.
  apply andb_true_iff in E as [E2 E]. cbn [app str_eqb] in E.
  rewrite N.eqb_refl in E. cbn [andb] in E.
  rewrite Ye in E1. rewrite Me in E2. rewrite De in E.
  apply N.eqb_eq in E1, E2, E.
  destruct f as [fy fm fd], g as [gy gm gd]. cbn in *.
  f_equal; lia.
Qed.

(** X14. [formatShort] shows the dash for a text that is no date, and for a
    date with a year of four digits the day, the month counted from 1 and
    the last two digits of the year, [DD.MM.YY]: eight units. *)
Theorem formatShort_shape (iso : jsstring) (f : DateFields)
  (Hp : Date_parse iso = Some f) (Hf : four_digit_date f = true) :
  formatShort Date_parse iso
  = pad2 (getDate f) ++ [46%N] ++ pad2 (getMonth f + 1) ++ [46%N]
    ++ pad2 (Z.to_N (getFullYear f) mod 100)
  /\ List.length (formatShort Date_parse iso) = 8%nat
  /\ (forall s, Date_parse s = None -> formatShort Date_parse s = [8211%N]).
Proof.
  destruct (four_digit_date_spec f Hf) as (Hy & Hm & Hd).
  destruct (pad2_two_digits _ Hm) as (M1 & _).
  destruct (pad2_two_digits _ Hd) as (D1 & _).
  assert (Hyy : slice_last2 (String_of_Z (getFullYear f))
                = pad2 (Z.to_N (getFullYear f) mod 100)).
  { unfold String_of_Z. destruct (Z.ltb_spec (getFullYear f) 0); [lia|].
    apply str_eqb_eq.
    apply (forallb_range
             (fun n => str_eqb (slice_last2 (String_of_N n)) (pad2 (n mod 100)))
             1000 (9 * 1000)); [vm_compute; reflexivity | lia]. }
  assert (Hlen : List.length (pad2 (Z.to_N (getFullYear f) mod 100)) = 2%nat).
  { apply pad2_two_digits. apply N.mod_lt. discriminate. }
  assert (E : formatShort Date_parse iso
              = pad2 (getDate f) ++ [46%N] ++ pad2 (getMonth f + 1) ++ [46%N]
                ++ pad2 (Z.to_N (getFullYear f) mod 100)).
  { unfold formatShort, fromISO. rewrite Hp, Hyy. reflexivity. }
  split; [exact E|]. split.
  - rewrite E, !length_app, D1, M1, Hlen. reflexivity.
  - intros s Hs. unfold formatShort, fromISO. now rewrite Hs.
Qed.

End DateStrings.

Lemma toISODate_shape_witness :
  List.length (toISODate (fun _ => None) (ADate (Some (mkDate 2025 0 15)))) = 10%nat.
Proof.
  apply (proj1 (proj2 (toISODate_shape (fun _ => None) (mkDate 2025 0 15) eq_refl))).
Defined.

Lemma toISODate_order_witness :
  str_ltb (toISODate (fun _ => None) (ADate (Some (mkDate 2024 11 31))))
          (toISODate (fun _ => None) (ADate (Some (mkDate 2025 0 1)))) = true.
Proof.
  exact (proj1 (toISODate_order (fun _ => None) (mkDate 2024 11 31) (mkDate 2025 0 1)
                                eq_refl eq_refl)).
Defined.

Lemma formatShort_shape_witness :
  List.length (formatShort (fun _ => Some (mkDate 2025 0 15)) (lit "2025-01-15"))
  = 8%nat.
Proof.
  exact (proj1 (proj2 (formatShort_shape (fun _ => Some (mkDate 2025 0 15))
                         (lit "2025-01-15") (mkDate 2025 0 15) eq_refl eq_refl))).
Defined.

(* ===================================================================== *)
(** * The forms *)

Lemma trimStart_idem (s : jsstring) : trimStart (trimStart s) = trimStart s.
Proof.
  pose proof (trimStart_head s) as H.
  destruct (trimStart s) as [|c u]; [reflexivity|]. simpl. now rewrite H.
Qed.

Lemma trimEnd_idem (s : jsstring) : trimEnd (trimEnd s) = trimEnd s.
Proof. unfold trimEnd. now rewrite rev_involutive, trimStart_idem. Qed.

(** [trimEnd] drops a suffix of white space. *)
Lemma trimEnd_split (s : jsstring) :
  exists w, s = trimEnd s ++ w /\ forallb is_ws w = true.
Proof.
  destruct (trimStart_split (rev s)) as (w & Hs & Hw).
  exists (rev w). split.
  - unfold trimEnd. rewrite <- rev_app_distr, <- Hs. symmetry.
    apply rev_involutive.
  - apply forallb_forall. intros c Hc. apply in_rev in Hc.
    now apply (proj1 (forallb_forall _ _) Hw).
Qed.

(** Trimming is idempotent: a trimmed string has no white space at either
    end. *)
Lemma trim_idem (s : jsstring) : trim (trim s) = trim s.
Proof.
  unfold trim at 1. fold (trim s).
  assert (H : trimStart (trim s) = trim s).
  { unfold trim. pose proof (trimStart_head s) as Hh.
    destruct (trimEnd_split (trimStart s)) as (w & Hs & _).
    destruct (trimEnd (trimStart s)) as [|c u] eqn:E; [reflexivity|].
    rewrite Hs in Hh. simpl in Hh. simpl. now rewrite Hh. }
  rewrite H. unfold trim. apply trimEnd_idem.
Qed.

Lemma trim_ws_prefix (w t : jsstring) :
  forallb is_ws w = true -> trim (w ++ t) = trim t.
Proof.
  intros Hw. unfold trim. f_equal.
  induction w as [|c w IH]; [reflexivity|].
  cbn [forallb] in Hw. apply andb_true_iff in Hw as [Hc Hw].
  cbn [app trimStart]. rewrite Hc. now apply IH.
Qed.

Lemma length_pos_nonempty {A} (l : list A) :
  (0 <? List.length l)%nat = true <-> l <> [].
Proof.
  destruct l; simpl; split; intros H; try reflexivity; try discriminate;
    congruence.
Qed.

Section FormProperties.

Variable Number : jsstring -> number.

Lemma saveTank_Some editing fresh name vol loc pur params t :
  saveTank Number editing fresh name vol loc pur params = Some t ->
  tank_name t = trim name /\ trim name <> []
  /\ tank_id t = match editing with Some e => tank_id e | None => fresh end
  /\ tank_active t = match editing with Some e => tank_active e | None => true end
  /\ waterParams t = params /\ location t = loc /\ purpose t = pur.
Proof.
  unfold saveTank. destruct (0 <? List.length (trim name))%nat eqn:E; [|discriminate].
  intros H. injection H as <-. apply length_pos_nonempty in E. auto 10.
Qed.

Lemma saveAttempt_Some edit fresh today aName aLineId aTanks aStart aGoal aNotes a :
  saveAttempt edit fresh today aName aLineId aTanks aStart aGoal aNotes = Some a ->
  attempt_name a = trim aName /\ trim aName <> [] /\ lineId a = aLineId
  /\ aLineId <> [] /\ tankIds a = aTanks /\ aTanks <> []
  /\ attempt_id a = match edit with Some e => attempt_id e | None => fresh end
  /\ attempt_active a = match edit with Some e => attempt_active e | None => true end
  /\ attempt_archived a
     = match edit with Some e => attempt_archived e | None => false end
  /\ endDate a = match edit with Some e => endDate e | None => [] end.
Proof.
  unfold saveAttempt.
  destruct (str_eqb (trim aName) []) eqn:E1; [discriminate|].
  destruct (str_eqb aLineId []) eqn:E2; [discriminate|].
  destruct (List.length aTanks =? 0)%nat eqn:E3; [discriminate|].
  cbn [orb]. intros H. injection H as <-.
  apply str_eqb_neq in E1, E2. apply Nat.eqb_neq in E3.
  assert (aTanks <> []) by (intros ->; now apply E3).
  cbn. auto 12.
Qed.

Lemma wk_upsertTank (t : Tank) (s : AppState) :
  well_kept s -> tank_name t <> [] -> trim (tank_name t) = tank_name t ->
  well_kept (upsertTank t s).
Proof.
  intros (K1 & K2 & K3 & K4 & K5) Hn Ht.
  split; [|split; [exact K2 | split; [exact K3 | split; [exact K4 | exact K5]]]].
  intros x Hx. rewrite upsertTank_tanks in Hx.
  destruct (str_eqb (tank_id x) (tank_id t)) eqn:E.
  - apply str_eqb_eq in E.
    rewrite (upsert_list_same tank_id merge_tank merge_tank_new t x _ Hx E). auto.
  - apply str_eqb_neq in E.
    apply K1.
    exact (proj1 (upsert_list_others tank_id merge_tank merge_tank_new t x _ E) Hx).
Qed.

Lemma wk_setTankActive (id : jsstring) (v : bool) (s : AppState) :
  well_kept s -> well_kept (setTankActive id v s).
Proof.
  intros (K1 & K2 & K3 & K4 & K5).
  split; [|split; [exact K2 | split; [exact K3 | split; [exact K4 | exact K5]]]].
  intros x Hx. unfold setTankActive in Hx. cbn [tanks] in Hx.
  apply in_map_iff in Hx as (y & Hy & Hin).
  destruct (str_eqb (tank_id y) id); subst x; exact (K1 y Hin).
Qed.

Lemma wk_removeTank (id : jsstring) (s : AppState) :
  well_kept s -> well_kept (removeTank id s).
Proof.
  intros (K1 & K2 & K3 & K4 & K5).
  split; [|split; [|split; [|split]]].
  - intros t Ht. unfold removeTank in Ht. cbn [tanks] in Ht.
    apply filter_In in Ht as [Ht _]. now apply K1.
  - intros a Ha. rewrite removeTank_attempts in Ha.
    apply in_map_iff in Ha as (a0 & <- & Ha0).
    apply filter_In in Ha0 as [Ha0 Hk].
    destruct (K2 a0 Ha0) as (N1 & N2 & _).
    split; [exact N1|]. split; [exact N2|].
    rewrite <- keeps_a_tank_length in Hk. intros E. rewrite E in Hk.
    discriminate.
  - intros g Hg. unfold removeTank in Hg. cbn [groups] in Hg.
    apply filter_In in Hg as [Hg _]. now apply K3.
  - intros e He. unfold removeTank in He. cbn [log] in He.
    apply filter_In in He as [He _]. now apply K4.
  - intros w k n Hw. unfold removeTank in Hw. cbn [water] in Hw.
    apply filter_In in Hw as [Hw _]. now apply K5.
Qed.

Lemma wk_upsertAttempt (a : Attempt) (s : AppState) :
  well_kept s -> attempt_name a <> [] -> lineId a <> [] -> tankIds a <> [] ->
  well_kept (upsertAttempt a s).
Proof.
  intros (K1 & K2 & K3 & K4 & K5) H1 H2 H3.
  split; [exact K1|]. split; [|split; [exact K3 | split; [exact K4 | exact K5]]].
  intros x Hx. rewrite upsertAttempt_attempts in Hx.
  destruct (str_eqb (attempt_id x) (attempt_id a)) eqn:E.
  - apply str_eqb_eq in E.
    rewrite (upsert_list_same attempt_id merge_attempt merge_attempt_new a x _ Hx E).
    auto.
  - apply str_eqb_neq in E.
    apply K2.
    exact (proj1 (upsert_list_others attempt_id merge_attempt merge_attempt_new
                                     a x _ E) Hx).
Qed.

Lemma wk_removeAttempt (id : jsstring) (s : AppState) :
  well_kept s -> well_kept (removeAttempt id s).
Proof.
  intros (K1 & K2 & K3 & K4 & K5).
  split; [exact K1|]. split; [|split; [|split; [|exact K5]]].
  - intros a Ha. unfold removeAttempt in Ha. cbn [attempts] in Ha.
    apply filter_In in Ha as [Ha _]. now apply K2.
  - intros g Hg. unfold removeAttempt in Hg. cbn [groups] in Hg.
    apply filter_In in Hg as [Hg _]. now apply K3.
  - intros e He. unfold removeAttempt in He. cbn [log] in He.
    apply filter_In in He as [He _]. now apply K4.
Qed.

Lemma wk_upsertGroup (g : Group) (s : AppState) :
  well_kept s -> group_name g <> [] -> group_tankId g <> [] ->
  well_kept (upsertGroup g s).
Proof.
  intros (K1 & K2 & K3 & K4 & K5) H1 H2.
  split; [exact K1|]. split; [exact K2|]. split; [|split; [exact K4 | exact K5]].
  intros x [<-|Hx]; [auto | now apply K3].
Qed.

Lemma wk_removeGroup (id : jsstring) (s : AppState) :
  well_kept s -> well_kept (removeGroup id s).
Proof.
  intros (K1 & K2 & K3 & K4 & K5).
  split; [exact K1|]. split; [exact K2|]. split; [|split; [exact K4 | exact K5]].
  intros g Hg. unfold removeGroup in Hg. cbn [groups] in Hg.
  apply filter_In in Hg as [Hg _]. now apply K3.
Qed.

Lemma wk_addWater (fresh : jsstring) (p : WaterPayload) (s : AppState) :
  well_kept s ->
  (forall k n, get_param (payload_values p) k = Some (Some n) -> isFinite n = true) ->
  well_kept (addWater fresh p s).
Proof.
  intros (K1 & K2 & K3 & K4 & K5) Hp.
  split; [exact K1|]. split; [exact K2|]. split; [exact K3|]. split; [exact K4|].
  intros w k n [<-|Hw]; [apply Hp | now apply (K5 w k n)].
Qed.

Lemma wk_removeWater (id : jsstring) (s : AppState) :
  well_kept s -> well_kept (removeWater id s).
Proof.
  intros (K1 & K2 & K3 & K4 & K5).
  split; [exact K1|]. split; [exact K2|]. split; [exact K3|]. split; [exact K4|].
  intros w k n Hw. unfold removeWater in Hw. cbn [water] in Hw.
  apply filter_In in Hw as [Hw _]. now apply K5.
Qed.

Lemma wk_addLog (fresh : jsstring) (p : LogPayload) (s : AppState) :
  well_kept s -> lp_title p <> [] -> well_kept (addLog fresh p s).
Proof.
  intros (K1 & K2 & K3 & K4 & K5) Hp.
  split; [exact K1|]. split; [exact K2|]. split; [exact K3|]. split; [|exact K5].
  intros e [<-|He]; [exact Hp | now apply K4].
Qed.

Lemma wk_removeLog (id : jsstring) (s : AppState) :
  well_kept s -> well_kept (removeLog id s).
Proof.
  intros (K1 & K2 & K3 & K4 & K5).
  split; [exact K1|]. split; [exact K2|]. split; [exact K3|]. split; [|exact K5].
  intros e He. unfold removeLog in He. cbn [log] in He.
  apply filter_In in He as [He _]. now apply K4.
Qed.

Lemma newWaterPayload_finite today tankId date note values active k n :
  get_param (payload_values
               (newWaterPayload Number today tankId date note values active)) k
  = Some (Some n) -> isFinite n = true.
Proof.
  unfold newWaterPayload. cbn [payload_values].
  rewrite (get_fold_set_param
             (fun k' => Some (parseNumOrNull Number (or_empty (values k'))))).
  destruct (existsb (ParamKey_eqb k) active); [|now destruct k].
  intros E. injection E as E.
  destruct (parseNumOrNull_cases Number (or_empty (values k)))
    as [G|(m & G & Hm)]; rewrite G in E; [discriminate|].
  now injection E as <-.
Qed.

(** X15. The forms keep the records well formed: if every tank has a
    non-empty, trimmed name, every attempt a name, a line and at least one
    tank, every group a name and a tank, every log entry a title and every
    water entry only finite numbers, then this is still so after any
    sequence of saves, toggles and removals. *)
Theorem forms_keep_records_well_formed (s s' : AppState)
  (Hs : well_kept s) (Hsteps : steps Number s s') :
  well_kept s'.
Proof.
  induction Hsteps as [s|s s1 s2 _ IH Hstep]; [exact Hs|].
  specialize (IH Hs). clear Hs. destruct Hstep.
  - match goal with
    | H : saveTank _ _ _ _ _ _ _ _ = Some _ |- _ =>
        apply saveTank_Some in H as (Hn & Hne & _)
    end.
    apply wk_upsertTank; [exact IH | congruence | rewrite Hn; apply trim_idem].
  - now apply wk_setTankActive.
  - now apply wk_removeTank.
  - match goal with
    | H : saveAttempt _ _ _ _ _ _ _ _ _ = Some _ |- _ =>
        apply saveAttempt_Some in H as (Hn & Hne & Hl & Hlne & Ht & Htne & _)
    end.
    apply wk_upsertAttempt; [exact IH | congruence | congruence | congruence].
  - now apply wk_removeAttempt.
  - match goal with
    | H : newGroup _ _ _ _ _ _ _ _ = Some _ |- _ =>
        unfold newGroup in H;
        destruct (str_eqb gTankId []) eqn:E; [discriminate|];
        injection H as <-
    end.
    apply str_eqb_neq in E.
    apply wk_upsertGroup; [exact IH | | exact E].
    cbn [group_name].
    destruct (str_eqb (trim gName) []) eqn:F; [discriminate|].
    now apply str_eqb_neq.
  - now apply wk_removeGroup.
  - apply wk_addWater; [exact IH|]. intros k n.
    apply newWaterPayload_finite.
  - now apply wk_removeWater.
  - apply wk_addLog; [exact IH|]. cbn [lp_title newLogPayload].
    destruct (str_eqb (trim lTitle) []) eqn:F; [discriminate|].
    now apply str_eqb_neq.
  - now apply wk_removeLog.
  - destruct IH as (K1 & K2 & K3 & K4 & K5). repeat split;
      try (now apply K1); try (now apply K2); try (now apply K3);
      try (now apply K4); try (intros; eapply K5; eassumption).
Qed.

End FormProperties.

Lemma ex_state_well_kept : well_kept ex_state.
Proof.
  split; [|split; [|split; [|split]]].
  - intros t [<-|[]]. split; [discriminate | reflexivity].
  - intros a [<-|[]]. repeat split; discriminate.
  - intros g [<-|[]]. split; discriminate.
  - intros e [<-|[<-|[]]]; discriminate.
  - intros w k n [].
Qed.

Lemma forms_keep_records_well_formed_witness :
  well_kept (removeTank (lit "t1") ex_state).
Proof.
  apply (forms_keep_records_well_formed Number_plain ex_state
           (removeTank (lit "t1") ex_state) ex_state_well_kept).
  eapply steps_next; [apply steps_refl | apply step_removeTank].
Defined.

Lemma count_map_same {A} (p : A -> bool) (f : A -> A) (l : list A) :
  (forall x, In x l -> p (f x) = p x) ->
  List.length (filter p (map f l)) = List.length (filter p l).
Proof.
  induction l as [|x l IH]; intros H; [reflexivity|].
  cbn [map filter]. rewrite (H x (or_introl eq_refl)).
  destruct (p x); cbn [List.length]; rewrite IH; auto;
    intros y Hy; apply H; now right.
Qed.

Lemma NoDup_key_same {A} (key : A -> jsstring) (l : list A) (x y : A) :
  NoDup (map key l) -> In x l -> In y l -> key x = key y -> x = y.
Proof.
  induction l as [|z l IH]; intros Hnd Hx Hy Hk; [contradiction|].
  cbn [map] in Hnd. inversion Hnd as [|? ? Hnin Hnd']; subst.
  destruct Hx as [->|Hx], Hy as [->|Hy]; auto.
  - exfalso. apply Hnin. rewrite Hk. now apply in_map.
  - exfalso. apply Hnin. rewrite <- Hk. now apply in_map.
Qed.

Section FormEdits.

Variable Number : jsstring -> number.

(** X16. Editing a record through its form does not move the dashboard.
    Saving the tank editor opened on a tank of the document keeps the number
    of tanks and of active tanks when the ids of the tanks are not
    duplicated; saving the attempt editor opened on an attempt keeps the
    number of attempts and of active attempts when the ids of the attempts
    are not duplicated (the editors carry [active], [archived] and the id
    over).  Each editor leaves the counts of the other collection. *)
Theorem form_edit_keeps_dashboard_counts (s : AppState) :
  (forall (e : Tank) (fresh name vol loc pur : jsstring) (params : WaterParams)
          (t : Tank),
      In e (tanks s) -> NoDup (map tank_id (tanks s)) ->
      saveTank Number (Some e) fresh name vol loc pur params = Some t ->
      List.length (tanks (upsertTank t s)) = List.length (tanks s)
      /\ activeTanks (upsertTank t s) = activeTanks s
      /\ activeAttempts (upsertTank t s) = activeAttempts s)
  /\ (forall (x : Attempt) (fresh today aName aLineId : jsstring)
             (aTanks : list jsstring) (aStart aGoal aNotes : jsstring) (a : Attempt),
        In x (attempts s) -> NoDup (map attempt_id (attempts s)) ->
        saveAttempt (Some x) fresh today aName aLineId aTanks aStart aGoal aNotes
        = Some a ->
        List.length (attempts (upsertAttempt a s)) = List.length (attempts s)
        /\ activeAttempts (upsertAttempt a s) = activeAttempts s
        /\ activeTanks (upsertAttempt a s) = activeTanks s).
Proof.
  split.
  - intros e fresh name vol loc pur params t He Hnd Ht.
    apply saveTank_Some in Ht as (_ & _ & Hid & Hact & _).
    assert (Et : existsb (fun y => str_eqb (tank_id y) (tank_id t)) (tanks s) = true).
    { apply existsb_exists. exists e. split; [exact He|].
      apply str_eqb_eq. now symmetry. }
    unfold activeTanks, activeAttempts.
    rewrite upsertTank_tanks. unfold upsert_list. rewrite Et.
    split; [apply length_map|]. split; [|reflexivity].
    apply count_map_same. intros y Hy.
    destruct (str_eqb (tank_id y) (tank_id t)) eqn:E; [|reflexivity].
    apply str_eqb_eq in E. rewrite merge_tank_new, Hact. f_equal.
    apply (NoDup_key_same tank_id (tanks s)); auto. congruence.
  - intros x fresh today aName aLineId aTanks aStart aGoal aNotes a Hx Hnda Ha.
    apply saveAttempt_Some in Ha
      as (_ & _ & _ & _ & _ & _ & Hida & Hacta & Harch & _).
    assert (Ea : existsb (fun y => str_eqb (attempt_id y) (attempt_id a)) (attempts s)
                 = true).
    { apply existsb_exists. exists x. split; [exact Hx|].
      apply str_eqb_eq. now symmetry. }
    unfold activeTanks, activeAttempts.
    rewrite upsertAttempt_attempts. unfold upsert_list. rewrite Ea.
    split; [apply length_map|]. split; [|reflexivity].
    apply (count_map_same
             (fun a0 => attempt_active a0 && negb (attempt_archived a0))).
    intros y Hy.
    destruct (str_eqb (attempt_id y) (attempt_id a)) eqn:E; [|reflexivity].
    apply str_eqb_eq in E. rewrite merge_attempt_new, Hacta, Harch.
    assert (x = y) as ->; [|reflexivity].
    apply (NoDup_key_same attempt_id (attempts s)); auto. congruence.
Qed.

End FormEdits.

(** The tank editor saved on a document without attempts, and the attempt
    editor on [ex_state]. *)
Lemma form_edit_keeps_dashboard_counts_witness :
  activeTanks
    (upsertTank (mkTank (lit "t1") (lit "Becken A") (num_of_Z 60) [] [] true
                        (makeAllParams false))
                (mkAppState ex_settings [ex_tank] [] [] [] [] []))
  = activeTanks (mkAppState ex_settings [ex_tank] [] [] [] [] [])
  /\ activeAttempts
       (upsertAttempt (mkAttempt (lit "a1") (lit "Ansatz B") (lit "l1") [lit "t1"]
                                 (lit "2025-01-22") [] [] [] true false) ex_state)
     = activeAttempts ex_state.
Proof.
  split.
  - refine (proj1 (proj2
      (proj1 (form_edit_keeps_dashboard_counts Number_plain
                (mkAppState ex_settings [ex_tank] [] [] [] [] []))
             ex_tank [] (lit " Becken A ") (lit "60") [] [] (makeAllParams false)
             (mkTank (lit "t1") (lit "Becken A") (num_of_Z 60) [] [] true
                     (makeAllParams false))
             (or_introl eq_refl) _ eq_refl))).
    repeat constructor; intros [].
  - refine (proj1 (proj2
      (proj2 (form_edit_keeps_dashboard_counts Number_plain ex_state)
             ex_attempt [] (lit "2025-01-22") (lit "Ansatz B") (lit "l1") [lit "t1"]
             [] [] []
             (mkAttempt (lit "a1") (lit "Ansatz B") (lit "l1") [lit "t1"]
                        (lit "2025-01-22") [] [] [] true false)
             (or_introl eq_refl) _ eq_refl))).
    repeat constructor; intros [].
Defined.

(** ** The traits field of the line editor *)

Lemma split_on_no_sep (c : N) (s : jsstring) :
  forallb (fun x => negb (x =? c)%N) s = true -> split_on c s = [s].
Proof.
  induction s as [|x s IH]; intros H; [reflexivity|].
  cbn [forallb] in H. apply andb_true_iff in H as [Hx Hs].
  apply negb_true_iff in Hx. cbn [split_on]. now rewrite Hx, (IH Hs).
Qed.

Lemma split_on_app_sep (c : N) (a rest : jsstring) :
  forallb (fun x => negb (x =? c)%N) a = true ->
  split_on c (a ++ c :: rest) = a :: split_on c rest.
Proof.
  induction a as [|x a IH]; intros H.
  - cbn [app split_on]. now rewrite N.eqb_refl.
  - cbn [forallb] in H. apply andb_true_iff in H as [Hx Ha].
    apply negb_true_iff in Hx. cbn [app split_on]. now rewrite Hx, (IH Ha).
Qed.

Lemma ws_not_comma (w : jsstring) :
  forallb is_ws w = true -> forallb (fun x => negb (x =? 44)%N) w = true.
Proof.
  apply forallb_impl. intros c Hc. apply negb_true_iff.
  destruct (N.eqb_spec c 44) as [->|]; [discriminate Hc | reflexivity].
Qed.

Lemma traits_read_back (ts : list jsstring) (w : jsstring) :
  forallb trait_ok ts = true -> ts <> [] -> forallb is_ws w = true ->
  map trim (split_on 44 (w ++ join (lit ", ") ts)) = ts.
Proof.
  revert w; induction ts as [|t ts IH]; intros w Hts Hne Hw; [contradiction|].
  cbn [forallb] in Hts. apply andb_true_iff in Hts as [Ht Hts].
  unfold trait_ok in Ht. apply andb_true_iff in Ht as [Ht Hc].
  apply andb_true_iff in Ht as [_ Htrim]. apply str_eqb_eq in Htrim.
  assert (Hwt : forallb (fun x => negb (x =? 44)%N) (w ++ t) = true)
    by (rewrite forallb_app, (ws_not_comma w Hw), Hc; reflexivity).
  destruct ts as [|t2 ts'].
  - cbn [join]. rewrite (split_on_no_sep _ _ Hwt). cbn [map].
    now rewrite (trim_ws_prefix w t Hw), Htrim.
  - change (join (lit ", ") (t :: t2 :: ts'))
      with (t ++ 44%N :: [32%N] ++ join (lit ", ") (t2 :: ts')).
    rewrite app_assoc, (split_on_app_sep _ _ _ Hwt). cbn [map].
    rewrite (trim_ws_prefix w t Hw), Htrim. f_equal.
    apply IH; [exact Hts | discriminate | reflexivity].
Qed.

(** X17. The traits of a line survive the editor: the text the field shows
    for the traits ([join(", ")]), read back as saving does (split at the
    commas, trimmed, empty pieces dropped), is the list of traits again,
    when each trait is non-empty, trimmed and free of commas; and whatever
    the text, the traits read from it are non-empty and trimmed. *)
Theorem traits_round_trip (ts : list jsstring) (text : jsstring)
  (Hts : forallb trait_ok ts = true) :
  traits_of_text (traits_text ts) = ts
  /\ (forall t, In t (traits_of_text text) -> t <> [] /\ trim t = t).
Proof.
  split.
  - unfold traits_of_text, traits_text, non_empty.
    destruct ts as [|t ts']; [reflexivity|].
    pose proof (traits_read_back (t :: ts') [] Hts
                  ltac:(discriminate) eq_refl) as R.
    cbn [app] in R. rewrite R.
    apply filter_all. intros x Hx.
    apply (proj1 (forallb_forall _ _) Hts) in Hx. unfold trait_ok in Hx.
    apply andb_true_iff in Hx as [Hx _]. now apply andb_true_iff in Hx as [Hx _].
  - intros t Ht. unfold traits_of_text, non_empty in Ht.
    apply filter_In in Ht as [Ht Hne]. apply negb_str_eqb_true in Hne.
    split; [exact Hne|]. apply in_map_iff in Ht as (p & <- & _).
    apply trim_idem.
Qed.

Lemma traits_round_trip_witness :
  traits_of_text (traits_text [lit "Japan Blue"; lit "Endler"])
  = [lit "Japan Blue"; lit "Endler"].
Proof.
  exact (proj1 (traits_round_trip [lit "Japan Blue"; lit "Endler"] [] eq_refl)).
Defined.

(** ** The limit fields of the settings *)

Lemma inRange_low_iff (v : number) (lim : Limit) :
  inRange (Some v) lim = low
  <-> exists m, lim_min lim = Some m /\ num_lt v m = true.
Proof.
  unfold inRange. destruct (lim_min lim) as [m|].
  - destruct (num_lt v m) eqn:E.
    + split; [exists m; auto | reflexivity].
    + split.
      * destruct (match lim_max lim with Some mx => num_gt v mx | None => false end);
          discriminate.
      * intros (m' & Hm & Hlt). congruence.
  - split.
    + destruct (match lim_max lim with Some mx => num_gt v mx | None => false end);
        discriminate.
    + intros (m' & Hm & _). discriminate.
Qed.

Lemma inRange_high_only_with_max (v : number) (lim : Limit) :
  inRange (Some v) lim = high ->
  exists m, lim_max lim = Some m /\ num_gt v m = true.
Proof.
  unfold inRange.
  destruct (match lim_min lim with Some mn => num_lt v mn | None => false end);
    [discriminate|].
  destruct (lim_max lim) as [m|]; [|discriminate].
  destruct (num_gt v m) eqn:E; [|discriminate]. intros _. now exists m.
Qed.

Section LimitFields.

Variable Number : jsstring -> number.

(** X18. Typing into the minimum of a parameter changes that bound alone:
    the maximum of the parameter, the limits of the other parameters and the
    rest of the settings stay; the bound becomes what [parseNumOrNull] reads,
    a finite number or none; a reading is then [low] exactly when that number
    is there and above it, so an emptied field makes no reading [low].  The
    same holds of the maximum and [high], and the two fields do not
    interfere. *)
Theorem limit_fields_change_one_bound
  (k k' : ParamKey) (text text' : jsstring) (st : Settings) (v : number) :
  (k' <> k ->
   get_param (waterLimits (setLimitMin Number k text st)) k'
   = get_param (waterLimits st) k'
   /\ get_param (waterLimits (setLimitMax Number k text st)) k'
      = get_param (waterLimits st) k')
  /\ get_param (waterLimits (setLimitMin Number k text st)) k
     = mkLimit (parseNumOrNull Number text) (lim_max (get_param (waterLimits st) k))
  /\ get_param (waterLimits (setLimitMax Number k text st)) k
     = mkLimit (lim_min (get_param (waterLimits st) k)) (parseNumOrNull Number text)
  /\ (inRange (Some v) (get_param (waterLimits (setLimitMin Number k text st)) k) = low
      <-> exists m, parseNumOrNull Number text = Some m /\ isFinite m = true
                    /\ num_lt v m = true)
  /\ (forallb is_ws text = true ->
      inRange (Some v) (get_param (waterLimits (setLimitMin Number k text st)) k)
      <> low
      /\ inRange (Some v) (get_param (waterLimits (setLimitMax Number k text st)) k)
         <> high)
  /\ setLimitMax Number k text' (setLimitMin Number k text st)
     = setLimitMin Number k text (setLimitMax Number k text' st)
  /\ breederName (setLimitMin Number k text st) = breederName st
  /\ maxPhotoMB (setLimitMin Number k text st) = maxPhotoMB st.
Proof.
  unfold setLimitMin, setLimitMax. cbn [waterLimits breederName maxPhotoMB].
  split; [|split; [|split; [|split; [|split; [|split]]]]].
  - intros Hne. rewrite !get_set_param.
    destruct (ParamKey_eqb k' k) eqn:E; [|split; reflexivity].
    apply ParamKey_eqb_eq in E. contradiction.
  - rewrite get_set_param. now rewrite (proj2 (ParamKey_eqb_eq k k) eq_refl).
  - rewrite get_set_param. now rewrite (proj2 (ParamKey_eqb_eq k k) eq_refl).
  - rewrite get_set_param, (proj2 (ParamKey_eqb_eq k k) eq_refl).
    rewrite inRange_low_iff. cbn [lim_min]. split.
    + intros (m & Hm & Hlt). exists m. split; [exact Hm|]. split; [|exact Hlt].
      destruct (parseNumOrNull_cases Number text) as [G|(m' & G & Hf)];
        congruence.
    + intros (m & Hm & _ & Hlt). now exists m.
  - intros Hws.
    assert (Hnone : parseNumOrNull Number text = None).
    { unfold parseNumOrNull. now rewrite (trim_all_ws _ Hws). }
    rewrite !get_set_param, (proj2 (ParamKey_eqb_eq k k) eq_refl), Hnone. split.
    + intros H. apply inRange_low_iff in H as (m & Hm & _). discriminate.
    + intros H. apply inRange_high_only_with_max in H as (m & Hm & _).
      discriminate.
  - f_equal. rewrite !get_set_param, (proj2 (ParamKey_eqb_eq k k) eq_refl).
    cbn [lim_min lim_max]. now destruct k.
  - split; reflexivity.
Qed.

End LimitFields.

(** ** The newest log entry *)

Section NewestEntry.

Variable sort : (LogEntry -> LogEntry -> Z) -> list LogEntry -> list LogEntry.
Hypothesis sort_ok : sort_contract sort.



End NewestEntry.


(** ** Stored values that are no document *)

Section NoDocument.

Variable Number : jsstring -> number.
Variable String_other : json -> option jsstring.
Variable Number_other : json -> option number.
Variable uid_at : nat -> jsstring.

(** X20. The import accepts every array and every object and nothing else;
    and a stored value that is an array (which the import accepts), a
    number, a string, a boolean or the empty object loads as the document
    without any record and with the default settings, not as the seed
    document, and draws no id. *)
Theorem array_loads_as_empty_document (parsed : json) (n : nat) :
  import_accepts parsed
  = match parsed with JArr _ | JObj _ => true | _ => false end
  /\ match parsed with
     | JNull => fst (loadParsed Number String_other Number_other uid_at parsed n) = None
     | JObj (_ :: _) => True
     | _ => loadParsed Number String_other Number_other uid_at parsed n
            = (Some empty_loaded, n)
     end.
Proof.
  split.
  - destruct parsed as [| b | x | x | l | fs]; try reflexivity.
    + unfold import_accepts. cbn. now destruct b.
    + unfold import_accepts. cbn. now destruct (negb _).
    + unfold import_accepts. cbn. now destruct (negb _).
  - destruct parsed as [| b | x | x | l | [|f fs]]; try reflexivity; try exact I.
    + unfold loadParsed. cbn [truthy prop]. now destruct b.
    + unfold loadParsed. cbn [truthy prop]. now destruct (negb _).
    + unfold loadParsed. cbn [truthy prop]. now destruct (negb _).
Qed.

End NoDocument.

(* ===================================================================== *)
(** * Saving and loading *)

Lemma PerParam_ext {A} (r r' : PerParam A) :
  (forall k, get_param r k = get_param r' k) -> r = r'.
Proof.
  intros H. destruct r, r'.
  pose proof (H temp). pose proof (H ph). pose proof (H gh). pose proof (H kh).
  pose proof (H no2). pose proof (H no3). pose proof (H tds). pose proof (H cond).
  cbn in *. congruence.
Qed.

Lemma stored_number_kept (v : number) :
  keeps_number v = true -> stored_number v = JNum v.
Proof. destruct v as [[|]| | |]; simpl; congruence. Qed.

Lemma stored_per_param_prop {A} (enc : A -> json) (r : PerParam A) (k : ParamKey) :
  prop (stored_per_param enc r) (key_name k) = Some (enc (get_param r k)).
Proof. now destruct k. Qed.

Lemma limit_of_stored (l : Limit) :
  keeps_bound (lim_min l) = true -> keeps_bound (lim_max l) = true ->
  limit_of (stored_limit l) = l.
Proof.
  destruct l as [[mn|] [mx|]]; cbn [keeps_bound lim_min lim_max]; intros H1 H2;
    unfold limit_of, stored_limit; cbn [stored_bound lim_min lim_max];
    rewrite ?(stored_number_kept _ H1), ?(stored_number_kept _ H2); reflexivity.
Qed.

Section StorageRoundTrip.

Variable Number : jsstring -> number.
Variable String_other : json -> option jsstring.
Variable Number_other : json -> option number.
Variable uid_at : nat -> jsstring.

Lemma string_or_stored (s dflt : jsstring) (n : nat) :
  (s = [] -> dflt = []) ->
  string_or String_other (Some (JStr s)) dflt n = (Some s, n).
Proof.
  intros H. unfold string_or. cbn [truthy_opt truthy].
  destruct (str_eqb s []) eqn:E; cbn [negb].
  - apply str_eqb_eq in E. subst s. now rewrite (H eq_refl).
  - reflexivity.
Qed.

(** A stored tank that storage keeps is read back as it was, and no id is
    drawn for it. *)
Lemma normalizeTank_stored (t : Tank) (n : nat) :
  tank_storable t = true ->
  normalizeTank Number String_other Number_other uid_at (stored_tank t) n
  = (Some t, n).
Proof.
  unfold tank_storable. rewrite !andb_true_iff, !negb_true_iff.
  intros [[Hid Hname] Hvol].
  unfold normalizeTank.
  change (prop (stored_tank t) "id") with (Some (JStr (tank_id t))).
  change (prop (stored_tank t) "name") with (Some (JStr (tank_name t))).
  change (prop (stored_tank t) "volumeL") with (Some (stored_number (volumeL t))).
  change (prop (stored_tank t) "location") with (Some (JStr (location t))).
  change (prop (stored_tank t) "purpose") with (Some (JStr (purpose t))).
  change (prop (stored_tank t) "active") with (Some (JBool (tank_active t))).
  change (prop (stored_tank t) "waterParams")
    with (Some (stored_per_param JBool (waterParams t))).
  change (truthy_opt (Some (stored_per_param JBool (waterParams t))))
    with (Some (stored_per_param JBool (waterParams t))).
  rewrite (stored_number_kept _ Hvol).
  cbn [truthy_opt truthy]. rewrite Hid. cbn [negb].
  unfold bind. cbn [lift js_String ret].
  rewrite string_or_stored
    by (intros E; rewrite E in Hname; discriminate Hname).
  cbn [ret]. rewrite !string_or_stored by auto.
  unfold ret. f_equal. f_equal.
  assert (Hwp : fold_left
                  (fun wp k =>
                     match prop (stored_per_param JBool (waterParams t)) (key_name k) with
                     | Some (JBool b) => set_param wp k b
                     | _ => wp
                     end) ALL_PARAM_KEYS (makeAllParams false)
                = waterParams t).
  { apply PerParam_ext. intros k.
    rewrite get_fold_waterParams, all_keys, stored_per_param_prop. reflexivity. }
  rewrite Hwp. destruct t as [i nm v l p a w]. cbn. now destruct a.
Qed.

Lemma mapM_normalizeTank_stored (tks : list Tank) (n : nat) :
  forallb tank_storable tks = true ->
  mapM (normalizeTank Number String_other Number_other uid_at)
       (map stored_tank tks) n
  = (Some tks, n).
Proof.
  induction tks as [|t tks IH]; intros H; [reflexivity|].
  cbn [forallb] in H. apply andb_true_iff in H as [Ht Htks].
  cbn [map mapM]. unfold bind at 1. rewrite (normalizeTank_stored t n Ht).
  unfold bind at 1. rewrite (IH Htks). reflexivity.
Qed.

(** X21. Settings and tanks survive saving and loading: a stored document
    whose [settings] and [tanks] are those that were written is loaded with
    the same settings and the same tanks, in their order, and no id is
    drawn, when every tank has an id and a name that are not empty and the
    numbers (volumes, photo size, limits) are finite and no negative zero;
    a tank stored with an empty name comes back named ["Becken"]. *)
Theorem settings_and_tanks_round_trip
  (fields : list (jsstring * json)) (st : Settings) (tks : list Tank) (n : nat)
  (Hset : assoc (lit "settings") fields = Some (stored_settings st))
  (Htks : assoc (lit "tanks") fields = Some (JArr (map stored_tank tks)))
  (Hst : settings_storable st = true)
  (Ht : forallb tank_storable tks = true) :
  (exists r,
     loadParsed Number String_other Number_other uid_at (JObj fields) n
     = (Some r, n)
     /\ ld_settings r = st /\ ld_tanks r = tks)
  /\ (forall t m tk m',
        tank_name t = [] ->
        normalizeTank Number String_other Number_other uid_at (stored_tank t) m
        = (Some tk, m') ->
        tank_name tk = lit "Becken").
Proof.
  split.
  - unfold settings_storable in Hst. apply andb_true_iff in Hst as [Hphoto Hlim].
    unfold loadParsed. cbn [truthy prop]. rewrite Hset, Htks.
    cbn [truthy_opt truthy stored_settings].
    change (prop (stored_settings st) "waterLimits")
      with (Some (stored_per_param stored_limit (waterLimits st))).
    change (prop (stored_settings st) "breederName") with (Some (JStr (breederName st))).
    change (prop (stored_settings st) "maxPhotoMB")
      with (Some (stored_number (maxPhotoMB st))).
    rewrite (stored_number_kept _ Hphoto).
    cbn [truthy_opt truthy is_object stored_per_param].
    fold (stored_per_param stored_limit (waterLimits st)).
    unfold bind. rewrite (mapM_normalizeTank_stored tks n Ht).
    eexists. split; [reflexivity|]. cbn [ld_settings ld_tanks].
    split; [|reflexivity].
    destruct st as [bn mp wl]. cbn [breederName maxPhotoMB waterLimits] in *.
    f_equal. apply PerParam_ext. intros k.
    rewrite get_fold_limits, all_keys, stored_per_param_prop.
    cbn [truthy_opt truthy stored_limit is_object].
    fold (stored_limit (get_param wl k)).
    apply limit_of_stored;
      pose proof (proj1 (forallb_forall _ _) Hlim k
                        ltac:(destruct k; simpl; tauto)) as Hk;
      apply andb_true_iff in Hk; tauto.
  - intros t m tk m' Hname H.
    pose proof (normalizeTank_normalizes _ _ _ _ _ _ _ _ H) as Hn.
    destruct Hn as (_ & _ & Hdef & _). apply Hdef.
    change (prop (stored_tank t) "name") with (Some (JStr (tank_name t))).
    rewrite Hname. reflexivity.
Qed.

End StorageRoundTrip.

Lemma settings_and_tanks_round_trip_witness :
  exists r,
    loadParsed Number_plain (fun _ => None) (fun _ => None) ex_uid
               (JObj [(lit "settings", stored_settings ex_settings);
                      (lit "tanks", JArr (map stored_tank [ex_tank]))]) 0
    = (Some r, 0%nat)
    /\ ld_settings r = ex_settings /\ ld_tanks r = [ex_tank].
Proof.
  exact (proj1 (settings_and_tanks_round_trip
                  Number_plain (fun _ => None) (fun _ => None) ex_uid
                  [(lit "settings", stored_settings ex_settings);
                   (lit "tanks", JArr (map stored_tank [ex_tank]))]
                  ex_settings [ex_tank] 0 eq_refl eq_refl eq_refl eq_refl)).
Defined.

(* ===================================================================== *)
(** * The example document *)

Section SeedDocument.

Variable uid_at : nat -> jsstring.
Variables iso_t0 iso_t1 : jsstring.

(** X22. The example document is whole whatever ids [uid] gives, even equal
    ones: [seed] draws ten ids; every tank, attempt and line that its
    attempt, groups, water entries and log entries name is in the document;
    its settings are kept by storage; and when no id drawn is empty, its
    records are well formed and its tanks are kept by storage. *)
Theorem seed_is_consistent (n : nat) :
  snd (seed uid_at iso_t0 iso_t1 n) = (10 + n)%nat
  /\ tank_refs_ok (fst (seed uid_at iso_t0 iso_t1 n))
  /\ attempt_refs_ok (fst (seed uid_at iso_t0 iso_t1 n))
  /\ (forall a, In a (attempts (fst (seed uid_at iso_t0 iso_t1 n))) ->
        In (lineId a) (map line_id (lines (fst (seed uid_at iso_t0 iso_t1 n)))))
  /\ settings_storable (settings (fst (seed uid_at iso_t0 iso_t1 n))) = true
  /\ ((forall i, uid_at i <> []) ->
      well_kept (fst (seed uid_at iso_t0 iso_t1 n))
      /\ forallb tank_storable (tanks (fst (seed uid_at iso_t0 iso_t1 n))) = true).
Proof.
  unfold seed. cbn [fst snd].
  split; [reflexivity|]. split; [|split; [|split; [|split]]].
  - unfold tank_refs_ok.
    cbn [attempts groups water log tanks map tank_id tankIds group_tankId
         water_tankId log_tankId In].
    repeat split; intros; repeat match goal with
      | H : _ \/ _ |- _ => destruct H
      | H : False |- _ => destruct H
      end; subst; cbn; tauto.
  - unfold attempt_refs_ok.
    cbn [attempts groups log map attempt_id In].
    repeat split; intros; repeat match goal with
      | H : _ \/ _ |- _ => destruct H
      | H : False |- _ => destruct H
      end; subst; cbn; tauto.
  - cbn [attempts lines map In]. intros a [<-|[]]. cbn. tauto.
  - vm_compute. reflexivity.
  - intros Hid. split.
    + unfold well_kept.
      cbn [attempts groups water log tanks In].
      repeat split; intros; repeat match goal with
        | H : _ \/ _ |- _ => destruct H
        | H : False |- _ => destruct H
        end; subst; try discriminate; try reflexivity; try apply Hid.
      all: match goal with
           | H : get_param _ ?k = Some (Some _) |- _ =>
               destruct k; cbn in H; inversion H; subst; reflexivity
           end.
    + cbn [tanks forallb]. unfold tank_storable.
      cbn [tank_id tank_name volumeL].
      assert (H : forall i, negb (str_eqb (uid_at i) []) = true).
      { intros i. apply negb_true_iff, not_true_is_false. intros E.
        apply str_eqb_eq in E. now apply Hid in E. }
      rewrite !H. reflexivity.
Qed.

End SeedDocument.

(* ===================================================================== *)
(** * The chart of the water values *)

Lemma insert_water_perm (cmp : WaterEntry -> WaterEntry -> Z) (x : WaterEntry)
  (l : list WaterEntry) :
  Permutation (x :: l) (insert_water cmp x l).
Proof.
  induction l as [|e l IH]; simpl; [apply Permutation_refl|].
  destruct (0 <? cmp x e)%Z; [|apply Permutation_refl].
  eapply perm_trans; [apply perm_swap|]. now apply perm_skip.
Qed.

Lemma insertion_sort_water_contract : water_sort_contract insertion_sort_water.
Proof.
  intros cmp l. split.
  - induction l as [|x l IH]; [apply Permutation_refl|].
    cbn [insertion_sort_water fold_right].
    eapply perm_trans; [apply perm_skip, IH | apply insert_water_perm].
  - intros Htrans Htotal. induction l as [|x l IH]; [constructor|].
    cbn [insertion_sort_water fold_right].
    fold (insertion_sort_water cmp l).
    generalize dependent (insertion_sort_water cmp l). clear l.
    intros m Hm. induction m as [|e m IHm]; simpl.
    + constructor; constructor.
    + inversion Hm as [|? ? Hs He]; subst.
      destruct (Z.ltb_spec 0 (cmp x e)) as [Hgt|Hle].
      * constructor; [now apply IHm|].
        apply (Permutation_Forall (insert_water_perm cmp x m)).
        constructor; [|exact He].
        destruct (Htotal e x) as [H|H]; lia.
      * constructor; [exact Hm|]. constructor; [exact Hle|].
        apply Forall_forall. intros y Hy.
        apply (Htrans x e y); [exact Hle|].
        now apply (proj1 (Forall_forall _ _) He).
Qed.

Lemma byDateAsc_le (a b : WaterEntry) :
  (byDateAsc a b <= 0)%Z <-> str_ltb (water_date b) (water_date a) = false.
Proof.
  unfold byDateAsc. destruct (str_ltb (water_date b) (water_date a));
    split; intros H; try lia; try discriminate; reflexivity.
Qed.

Section ChartSeries.

Variable sort_water : (WaterEntry -> WaterEntry -> Z) -> list WaterEntry -> list WaterEntry.
Variable Date_parse : jsstring -> option DateFields.
Variable Number : jsstring -> number.
Hypothesis sort_ok : water_sort_contract sort_water.

Lemma waterForTank_perm (l : list WaterEntry) (tankId : jsstring) :
  Permutation (filter (fun w => str_eqb (water_tankId w) tankId) l)
              (waterForTank sort_water l tankId).
Proof. apply sort_ok. Qed.

(** X23. The chart has one series for each active parameter of the tank, in
    their order; every series has one point for each water entry of the
    tank, so the series are aligned: the same place in two series is the
    same entry, with the same label; the numbers of a series are the
    readings of its parameter in the tank's entries, a missing reading
    leaving a gap; the entries run from the earliest date to the latest; a
    series is hidden only when its key has been switched off; an entry of
    another tank does not show; and an entry saved with the form of the tank
    adds one point to every series. *)
Theorem chart_series_are_aligned
  (s : AppState) (tankId : jsstring) (visible : ParamKey -> option bool) :
  let forTank := waterForTank sort_water (water s) tankId in
  let cs := chartSeries Date_parse (activeParams (tanksById (tanks s) tankId))
                        forTank visible in
  map series_key cs = activeParams (tanksById (tanks s) tankId)
  /\ (forall sr, In sr cs ->
        List.length (series_points sr)
        = List.length (filter (fun w => str_eqb (water_tankId w) tankId) (water s))
        /\ map xLabel (series_points sr)
           = map (fun w => formatShort Date_parse (water_date w)) forTank
        /\ map point_y (series_points sr) = map (reading (series_key sr)) forTank
        /\ (series_visible sr = false <-> visible (series_key sr) = Some false))
  /\ (forall w, In w forTank <-> In w (water s) /\ water_tankId w = tankId)
  /\ StronglySorted (fun a b => str_ltb (water_date b) (water_date a) = false) forTank
  /\ (forall fresh today date note values,
        List.length
          (waterForTank sort_water
             (water (addWater fresh
                       (newWaterPayload Number today tankId date note values
                          (activeParams (tanksById (tanks s) tankId))) s))
             tankId)
        = S (List.length forTank)).
Proof.
  intros forTank cs. subst cs.
  pose proof (waterForTank_perm (water s) tankId) as Hperm. fold forTank in Hperm.
  split; [|split; [|split; [|split]]].
  - unfold chartSeries. rewrite map_map. cbn [series_key]. apply map_id.
  - intros sr Hsr. unfold chartSeries in Hsr.
    apply in_map_iff in Hsr as (k & <- & _). cbn [series_points series_key series_visible].
    split; [|split; [|split]].
    + rewrite length_map. symmetry. now apply Permutation_length.
    + rewrite map_map. reflexivity.
    + rewrite map_map. reflexivity.
    + destruct (visible k) as [[|]|]; split; intros H; congruence.
  - intros w. split.
    + intros Hw. apply (Permutation_in _ (Permutation_sym Hperm)) in Hw.
      apply filter_In in Hw as [Hw E]. now apply str_eqb_eq in E.
    + intros [Hw E]. apply (Permutation_in _ Hperm). apply filter_In.
      split; [exact Hw|]. now apply str_eqb_eq.
  - destruct (sort_ok byDateAsc
                (filter (fun w => str_eqb (water_tankId w) tankId) (water s)))
      as [_ Hsorted].
    assert (Hs : StronglySorted (fun x y => (byDateAsc x y <= 0)%Z) forTank).
    { apply Hsorted.
      - intros x y z. rewrite !byDateAsc_le. intros H1 H2.
        exact (str_ltb_false_trans _ _ _ H2 H1).
      - intros x y. rewrite byDateAsc_le. unfold byDateAsc.
        destruct (str_ltb (water_date y) (water_date x)) eqn:E; [|left; lia].
        right. now apply str_ltb_asym. }
    clear -Hs. induction Hs as [|a l Hl IH Ha]; constructor; [exact IH|].
    apply Forall_forall. intros y Hy.
    apply byDateAsc_le. now apply (proj1 (Forall_forall _ _) Ha).
  - intros fresh today date note values.
    rewrite <- (Permutation_length Hperm).
    rewrite <- (Permutation_length (waterForTank_perm _ tankId)).
    unfold addWater, newWaterPayload.
    cbn [water filter water_tankId payload_tankId].
    now rewrite str_eqb_refl.
Qed.

End ChartSeries.

Lemma chart_series_are_aligned_witness :
  map series_key
      (chartSeries (fun _ => None) (activeParams (tanksById (tanks ex_state) (lit "t1")))
                   (waterForTank insertion_sort_water (water ex_state) (lit "t1"))
                   (fun _ => None))
  = activeParams (tanksById (tanks ex_state) (lit "t1")).
Proof.
  exact (proj1 (chart_series_are_aligned insertion_sort_water (fun _ => None)
                  Number_plain insertion_sort_water_contract ex_state (lit "t1")
                  (fun _ => None))).
Defined.

(* ===================================================================== *)
(** * The journal of the selected attempt *)

Lemma selected_Some (atts : list Attempt) (selectedId : jsstring) (a : Attempt) :
  selected atts selectedId = Some a ->
  In a atts /\ attempt_id a = selectedId /\ selectedId <> [].
Proof.
  unfold selected, find_attempt. destruct (str_eqb selectedId []) eqn:E; [discriminate|].
  intros H. apply find_some in H as [Hin Hid]. apply str_eqb_eq in Hid.
  repeat split; [exact Hin | exact Hid |]. now apply str_eqb_neq.
Qed.

Section JournalOfSelected.

Variable sort : (LogEntry -> LogEntry -> Z) -> list LogEntry -> list LogEntry.
Variable Number : jsstring -> number.
Hypothesis sort_ok : sort_contract sort.

Lemma sort_nil (cmp : LogEntry -> LogEntry -> Z) : sort cmp [] = [].
Proof.
  destruct (sort_ok cmp []) as [Hperm _]. now apply Permutation_nil.
Qed.

(** X24. The journal shows the selected attempt and nothing else: its log
    is the entries of the document with the id of that attempt, no entry
    standing before one of a later date, and its groups are the groups of
    that attempt that are not archived; a group or a log entry saved with
    the forms of the journal shows in it; and after [removeAttempt] of the
    selected id nothing is selected and the groups and the log shown for the
    attempt are empty. *)
Theorem journal_shows_selected_attempt
  (s : AppState) (selectedId : jsstring) (a : Attempt)
  (Hsel : selected (attempts s) selectedId = Some a) :
  attempt_id a = selectedId /\ In a (attempts s)
  /\ (forall e, In e (logForAttempt sort (log s) (Some a))
                <-> In e (log s) /\ log_attemptId e = selectedId)
  /\ StronglySorted (fun x y => str_ltb (log_date x) (log_date y) = false)
                    (logForAttempt sort (log s) (Some a))
  /\ (forall g, In g (groupsForAttempt (groups s) (Some a))
                <-> In g (groups s) /\ group_attemptId g = selectedId
                    /\ group_archived g = false)
  /\ (forall fresh gName gTankId gM gF gNotes g,
        newGroup Number fresh a gName gTankId gM gF gNotes = Some g ->
        In g (groupsForAttempt (groups (upsertGroup g s)) (Some a)))
  /\ (forall fresh today lTankId lDate lKind lTitle lNotes,
        exists e,
          In e (logForAttempt sort
                  (log (addLog fresh
                          (newLogPayload a today lTankId lDate lKind lTitle lNotes) s))
                  (Some a))
          /\ log_id e = fresh)
  /\ selected (attempts (removeAttempt selectedId s)) selectedId = None
  /\ groupsForAttempt (groups (removeAttempt selectedId s)) (Some a) = []
  /\ logForAttempt sort (log (removeAttempt selectedId s)) (Some a) = [].
Proof.
  destruct (selected_Some _ _ _ Hsel) as (Hin & Hid & Hne).
  assert (Hperm : forall lg, Permutation (logEntriesOf lg (Some a))
                                         (logForAttempt sort lg (Some a))).
  { intros lg. unfold logForAttempt. apply sort_ok. }
  split; [exact Hid|]. split; [exact Hin|].
  split; [|split; [|split; [|split; [|split; [|split; [|split]]]]]].
  - intros e. split.
    + intros He. apply (Permutation_in _ (Permutation_sym (Hperm _))) in He.
      cbn [logEntriesOf] in He. apply filter_In in He as [He E].
      apply str_eqb_eq in E. split; [exact He | congruence].
    + intros [He E]. apply (Permutation_in _ (Hperm _)).
      cbn [logEntriesOf]. apply filter_In. split; [exact He|].
      apply str_eqb_eq. congruence.
  - unfold logForAttempt.
    destruct (sort_ok byDateDesc (logEntriesOf (log s) (Some a))) as (_ & Hsorted & _).
    specialize (Hsorted byDateDesc_trans byDateDesc_total).
    induction Hsorted as [|x l Hl IH Hx]; constructor; [exact IH|].
    apply Forall_forall. intros y Hy. apply byDateDesc_le.
    now apply (proj1 (Forall_forall _ _) Hx).
  - intros g. cbn [groupsForAttempt]. rewrite filter_In, andb_true_iff, negb_true_iff.
    rewrite str_eqb_eq, Hid. tauto.
  - intros fresh gName gTankId gM gF gNotes g Hg. unfold newGroup in Hg.
    destruct (str_eqb gTankId []); [discriminate|]. inversion Hg; subst g.
    cbn [groupsForAttempt upsertGroup groups filter group_attemptId group_archived].
    rewrite str_eqb_refl. cbn [negb andb]. now left.
  - intros fresh today lTankId lDate lKind lTitle lNotes.
    eexists. split.
    + apply (Permutation_in _ (Hperm _)).
      cbn [logEntriesOf addLog log filter log_attemptId newLogPayload lp_attemptId].
      rewrite str_eqb_refl. left. reflexivity.
    + reflexivity.
  - unfold selected, find_attempt. destruct (str_eqb selectedId []); [reflexivity|].
    destruct (find _ _) as [x|] eqn:F; [|reflexivity]. exfalso.
    apply find_some in F as [Fin Fid]. cbn [removeAttempt attempts] in Fin.
    apply filter_In in Fin as [_ Fne]. now rewrite Fid in Fne.
  - cbn [groupsForAttempt removeAttempt groups]. apply filter_none.
    intros g Hg. apply filter_In in Hg as [_ Hg]. rewrite Hid.
    apply negb_true_iff in Hg. now rewrite Hg.
  - unfold logForAttempt.
    assert (E : logEntriesOf (log (removeAttempt selectedId s)) (Some a) = []).
    { cbn [logEntriesOf removeAttempt log]. apply filter_none.
      intros e He. apply filter_In in He as [_ He]. rewrite Hid.
      now apply negb_true_iff in He. }
    rewrite E. apply sort_nil.
Qed.

End JournalOfSelected.

Lemma journal_shows_selected_attempt_witness :
  attempt_id ex_attempt = lit "a1"
  /\ logForAttempt insertion_sort (log (removeAttempt (lit "a1") ex_state))
                   (Some ex_attempt) = [].
Proof.
  pose proof (journal_shows_selected_attempt insertion_sort Number_plain
                insertion_sort_contract ex_state (lit "a1") ex_attempt eq_refl) as H.
  split; [exact (proj1 H)|].
  exact (proj2 (proj2 (proj2 (proj2 (proj2 (proj2 (proj2 (proj2 (proj2 H))))))))).
Defined.

(* ===================================================================== *)
(** * An editor opened and saved *)

Lemma NoDup_key_inj {A} (key : A -> jsstring) (l : list A) (x y : A) :
  NoDup (map key l) -> In x l -> In y l -> key x = key y -> x = y.
Proof.
  induction l as [|z l IH]; intros Hnd Hx Hy Hk; [contradiction|].
  cbn [map] in Hnd. inversion Hnd as [|? ? Hz Hl]; subst.
  destruct Hx as [->|Hx], Hy as [->|Hy]; [reflexivity| | |now apply IH].
  - exfalso. apply Hz. rewrite Hk. now apply in_map.
  - exfalso. apply Hz. rewrite <- Hk. now apply in_map.
Qed.

Lemma upsert_list_present {A} (key : A -> jsstring) (merge : A -> A -> A)
  (e : A) (l : list A) :
  (forall x y, merge x y = y) ->
  In e l -> NoDup (map key l) -> upsert_list key merge e l = l.
Proof.
  intros Hm Hin Hnd. unfold upsert_list.
  assert (Hex : existsb (fun x => str_eqb (key x) (key e)) l = true).
  { apply existsb_exists. exists e. split; [exact Hin | apply str_eqb_refl]. }
  rewrite Hex. apply map_all_fixed. intros x Hx.
  destruct (str_eqb (key x) (key e)) eqn:E; [|reflexivity].
  apply str_eqb_eq in E. rewrite Hm. symmetry.
  exact (NoDup_key_inj key l x e Hnd Hx Hin E).
Qed.

Lemma traits_of_traits_text (ts : list jsstring) :
  forallb trait_ok ts = true -> traits_of_text (traits_text ts) = ts.
Proof.
  intros Hts. unfold traits_of_text, traits_text, non_empty.
  destruct ts as [|t ts']; [reflexivity|].
  pose proof (traits_read_back (t :: ts') [] Hts
                ltac:(discriminate) eq_refl) as R.
  cbn [app] in R. rewrite R.
  apply filter_all. intros x Hx.
  apply (proj1 (forallb_forall _ _) Hts) in Hx. unfold trait_ok in Hx.
  apply andb_true_iff in Hx as [Hx _]. now apply andb_true_iff in Hx as [Hx _].
Qed.

Section EditorUnchanged.

Variable Number : jsstring -> number.

(** X25. An editor opened on a record and saved without a change gives the
    record back, and the upsert of it leaves the document as it was when the
    ids are not duplicated: for an attempt with a trimmed name, a line,
    tanks and a start date; for a line with a trimmed name and traits that
    are non-empty, trimmed and free of commas; for a tank with a trimmed
    name whose volume is read back from the text the field shows. *)
Theorem editor_saved_unchanged
  (s : AppState) (x : Attempt) (l : Line) (e : Tank) (fresh today volText : jsstring)
  (Hname : attempt_name x <> [] /\ trim (attempt_name x) = attempt_name x)
  (Hrefs : lineId x <> [] /\ tankIds x <> [] /\ startDate x <> []) :
  saveAttempt (Some x) fresh today (attempt_name x) (lineId x) (tankIds x)
              (startDate x) (goal x) (attempt_notes x) = Some x
  /\ (In x (attempts s) -> NoDup (map attempt_id (attempts s)) ->
      upsertAttempt x s = s)
  /\ (line_name l <> [] -> trim (line_name l) = line_name l ->
      forallb trait_ok (traits l) = true ->
      saveLine (Some l) fresh (line_name l) (code l) (traits_text (traits l))
               (line_notes l) = Some l)
  /\ (tank_name e <> [] -> trim (tank_name e) = tank_name e ->
      number_or_zero Number volText = volumeL e ->
      saveTank Number (Some e) fresh (tank_name e) volText (location e) (purpose e)
               (waterParams e) = Some e)
  /\ (In e (tanks s) -> NoDup (map tank_id (tanks s)) -> upsertTank e s = s).
Proof.
  destruct Hname as [Hn Ht]. destruct Hrefs as (Hl & Hts & Hd).
  split; [|split; [|split; [|split]]].
  - unfold saveAttempt. rewrite Ht.
    rewrite (proj2 (str_eqb_neq _ _) Hn), (proj2 (str_eqb_neq _ _) Hl),
            (proj2 (str_eqb_neq _ _) Hd).
    destruct (tankIds x) as [|i ids] eqn:E; [contradiction|].
    cbn [List.length Nat.eqb orb]. rewrite <- E. now destruct x.
  - intros Hin Hnd.
    assert (E : attempts (upsertAttempt x s) = attempts s).
    { rewrite upsertAttempt_attempts.
      apply upsert_list_present; [apply merge_attempt_new | exact Hin | exact Hnd]. }
    unfold upsertAttempt in *. cbn [attempts] in E. rewrite E. now destruct s.
  - intros Hn' Ht' Htr. unfold saveLine. rewrite Ht'.
    rewrite (proj2 (str_eqb_neq _ _) Hn'), (traits_of_traits_text _ Htr).
    now destruct l.
  - intros Hn' Ht' Hv. unfold saveTank. rewrite Ht', Hv.
    destruct (tank_name e) as [|c r] eqn:E; [contradiction|].
    cbn [List.length Nat.ltb Nat.leb]. rewrite <- E. now destruct e.
  - intros Hin Hnd.
    assert (E : tanks (upsertTank e s) = tanks s).
    { rewrite upsertTank_tanks.
      apply upsert_list_present; [apply merge_tank_new | exact Hin | exact Hnd]. }
    unfold upsertTank in *. cbn [tanks] in E. rewrite E. now destruct s.
Qed.

End EditorUnchanged.

Lemma editor_saved_unchanged_witness :
  saveAttempt (Some ex_attempt) [] (lit "2025-01-22") (attempt_name ex_attempt)
              (lineId ex_attempt) (tankIds ex_attempt) (startDate ex_attempt)
              (goal ex_attempt) (attempt_notes ex_attempt) = Some ex_attempt.
Proof.
  refine (proj1 (editor_saved_unchanged Number_plain ex_state ex_attempt ex_line
                   ex_tank [] (lit "2025-01-22") (lit "54") _ _)).
  - split; [discriminate | reflexivity].
  - repeat split; discriminate.
Defined.

(* ===================================================================== *)
(** * The selection *)

Lemma existsb_str_In (cur : jsstring) (ids : list jsstring) :
  existsb (fun i => str_eqb i cur) ids = true <-> In cur ids.
Proof.
  rewrite existsb_exists. split.
  - intros (i & Hi & E). apply str_eqb_eq in E. now subst i.
  - intros H. exists cur. split; [exact H | apply str_eqb_refl].
Qed.

Lemma reselect_In (ids : list jsstring) (cur : jsstring) :
  ids <> [] -> In (reselect ids cur) ids.
Proof.
  destruct ids as [|f r]; [congruence|]. intros _. unfold reselect.
  destruct (str_eqb cur []); [now left|].
  destruct (existsb _ (f :: r)) eqn:E; cbn [negb]; [|now left].
  now apply existsb_str_In.
Qed.

(** X26. The effect that follows the selection up settles in one run; it
    starts from the first record; when there is a record, the selection
    names one afterwards, so the water tab has its tank, and the journal its
    attempt when no attempt has an empty id; a selection that names a record
    stays; without any record the selection stays as it is; and after
    [removeTank] of the selected tank the selection moves to the first tank
    that is left. *)
Theorem selection_follows_document (s : AppState) (ids : list jsstring) (cur : jsstring) :
  reselect ids (reselect ids cur) = reselect ids cur
  /\ reselect ids [] = initial_selection ids
  /\ (ids <> [] -> In (reselect ids cur) ids)
  /\ (In cur ids -> cur <> [] -> reselect ids cur = cur)
  /\ reselect [] cur = cur
  /\ (tanks s <> [] ->
      exists t, tanksById (tanks s) (reselect (map tank_id (tanks s)) cur) = Some t)
  /\ (attempts s <> [] -> (forall a, In a (attempts s) -> attempt_id a <> []) ->
      exists a, selected (attempts s) (reselect (map attempt_id (attempts s)) cur)
                = Some a)
  /\ (tanks (removeTank cur s) <> [] ->
      reselect (map tank_id (tanks (removeTank cur s))) cur
      = initial_selection (map tank_id (tanks (removeTank cur s)))).
Proof.
  split; [|split; [|split; [|split; [|split; [|split; [|split]]]]]].
  - destruct ids as [|f r]; [reflexivity|]. unfold reselect.
    destruct (str_eqb cur []) eqn:E.
    + destruct (str_eqb f []); [reflexivity|].
      cbn [existsb]. now rewrite str_eqb_refl.
    + destruct (existsb _ (f :: r)) eqn:F; cbn [negb].
      * now rewrite E, F.
      * destruct (str_eqb f []); [reflexivity|].
        cbn [existsb]. now rewrite str_eqb_refl.
  - now destruct ids.
  - apply reselect_In.
  - intros Hin Hne. destruct ids as [|f r]; [contradiction|]. unfold reselect.
    rewrite (proj2 (str_eqb_neq _ _) Hne).
    now rewrite (proj2 (existsb_str_In _ _) Hin).
  - reflexivity.
  - intros Hne.
    destruct (tanksById (tanks s) (reselect (map tank_id (tanks s)) cur)) as [t|] eqn:E;
      [now exists t|]. exfalso.
    apply tanksById_None in E. apply E. apply reselect_In.
    destruct (tanks s); [congruence | discriminate].
  - intros Hne Hids.
    assert (Hin : In (reselect (map attempt_id (attempts s)) cur)
                     (map attempt_id (attempts s))).
    { apply reselect_In. destruct (attempts s); [congruence | discriminate]. }
    apply in_map_iff in Hin as (a & Ha & Hin).
    unfold selected, find_attempt. rewrite <- Ha.
    rewrite (proj2 (str_eqb_neq _ _) (Hids a Hin)).
    destruct (find _ (attempts s)) as [x|] eqn:F; [now exists x|]. exfalso.
    pose proof (find_none _ _ F a Hin) as H. cbn beta in H.
    now rewrite str_eqb_refl in H.
  - intros Hne. set (l := tanks (removeTank cur s)) in *.
    assert (Hno : existsb (fun i => str_eqb i cur) (map tank_id l) = false).
    { apply not_true_is_false. intros H. apply existsb_str_In in H.
      apply in_map_iff in H as (t & Ht & Hin). subst l.
      cbn [removeTank tanks] in Hin. apply filter_In in Hin as [_ Hin].
      rewrite Ht, str_eqb_refl in Hin. discriminate Hin. }
    destruct l as [|t r]; [congruence|]. cbn [map] in *. unfold reselect.
    rewrite Hno. cbn [negb initial_selection]. now destruct (str_eqb cur []).
Qed.

(* ===================================================================== *)
(** * clamp *)

Lemma SFcompare_refl (x : number) : is_nan x = false -> SFcompare x x = Some Eq.
Proof.
  destruct x as [s|s| |s m e]; cbn; try discriminate; intros _;
    try (destruct s; reflexivity).
  change (PosDef.Pos.compare_cont Eq m m) with (Pos.compare m m).
  destruct s; rewrite Z.compare_refl, Pos.compare_refl; reflexivity.
Qed.

Lemma SFcompare_Eq_cases (x y : number) :
  SFcompare x y = Some Eq ->
  x = y \/ (exists s s', x = S754_zero s /\ y = S754_zero s').
Proof.
  destruct x as [sx|sx| |sx mx ex], y as [sy|sy| |sy my ey]; cbn;
    try discriminate; intros H;
    try (destruct sx; discriminate H); try (destruct sy; discriminate H).
  - right. now exists sx, sy.
  - left. destruct sx, sy; try discriminate H; reflexivity.
  - left. change (PosDef.Pos.compare_cont Eq mx my) with (Pos.compare mx my) in H.
    destruct sx, sy; try discriminate H;
      destruct (Z.compare_spec ex ey) as [E|E|E]; try discriminate H; subst;
      destruct (Pos.compare_spec mx my) as [F|F|F]; try discriminate H; now subst.
Qed.

Lemma SFcompare_Eq_right (x y z : number) :
  SFcompare x y = Some Eq -> SFcompare z x = SFcompare z y.
Proof.
  intros H. destruct (SFcompare_Eq_cases x y H) as [->|(s & s' & -> & ->)];
    [reflexivity|]. now destruct z.
Qed.

Lemma SFcompare_nan (x y : number) :
  SFcompare x y = None <-> is_nan x = true \/ is_nan y = true.
Proof.
  destruct x as [sx|sx| |sx mx ex], y as [sy|sy| |sy my ey]; cbn;
    split; intros H; try discriminate; try reflexivity; auto;
    destruct H; discriminate.
Qed.

Lemma num_le_compare (x y : number) :
  num_le x y = true <-> SFcompare x y = Some Lt \/ SFcompare x y = Some Eq.
Proof.
  unfold num_le, SFleb. destruct (SFcompare x y) as [[| |]|]; split;
    intros H; try discriminate; auto; destruct H; discriminate.
Qed.

Lemma js_min_le (x y : number) :
  is_nan x = false -> is_nan y = false ->
  num_le (js_min x y) x = true /\ num_le (js_min x y) y = true
  /\ (js_min x y = x \/ js_min x y = y).
Proof.
  intros Hx Hy. unfold js_min.
  destruct (SFcompare x y) as [[| |]|] eqn:E.
  - assert (E' := SFcompare_antisym _ _ _ E). cbn in E'.
    destruct x as [[|]| | |]; repeat split; auto;
      apply num_le_compare; rewrite ?SFcompare_refl by assumption; auto.
  - repeat split; auto; apply num_le_compare;
      rewrite ?SFcompare_refl by assumption; auto.
  - assert (E' := SFcompare_antisym _ _ _ E). cbn in E'.
    repeat split; auto; apply num_le_compare;
      rewrite ?SFcompare_refl by assumption; auto.
  - apply SFcompare_nan in E. destruct E; congruence.
Qed.

Lemma js_max_ge (x y : number) :
  is_nan x = false -> is_nan y = false ->
  num_le x (js_max x y) = true /\ num_le y (js_max x y) = true
  /\ (js_max x y = x \/ js_max x y = y).
Proof.
  intros Hx Hy. unfold js_max.
  destruct (SFcompare x y) as [[| |]|] eqn:E.
  - assert (E' := SFcompare_antisym _ _ _ E). cbn in E'.
    destruct x as [[|]| | |]; repeat split; auto;
      apply num_le_compare; rewrite ?SFcompare_refl by assumption; auto.
  - repeat split; auto; apply num_le_compare;
      rewrite ?SFcompare_refl by assumption; auto.
  - assert (E' := SFcompare_antisym _ _ _ E). cbn in E'.
    repeat split; auto; apply num_le_compare;
      rewrite ?SFcompare_refl by assumption; auto.
  - apply SFcompare_nan in E. destruct E; congruence.
Qed.

Lemma js_min_nan (x y : number) :
  is_nan x = true \/ is_nan y = true -> js_min x y = S754_nan.
Proof. intros H. apply SFcompare_nan in H. unfold js_min. now rewrite H. Qed.

Lemma js_max_nan (x y : number) :
  is_nan x = true \/ is_nan y = true -> js_max x y = S754_nan.
Proof. intros H. apply SFcompare_nan in H. unfold js_max. now rewrite H. Qed.

(** X27. [clamp(n, min, max)] is NaN as soon as one of the three is; else it
    is one of the three and never below [min]; with [min <= max] it is never
    above [max], and a number between the bounds is given back (up to the
    sign of a zero). *)
Theorem clamp_within_bounds (n lo hi : number) :
  (is_nan n || is_nan lo || is_nan hi = true -> clamp n lo hi = S754_nan)
  /\ (is_nan n || is_nan lo || is_nan hi = false ->
      (clamp n lo hi = n \/ clamp n lo hi = lo \/ clamp n lo hi = hi)
      /\ num_le lo (clamp n lo hi) = true
      /\ (num_le lo hi = true ->
          num_le (clamp n lo hi) hi = true
          /\ (num_le lo n = true -> num_le n hi = true ->
              num_eq (clamp n lo hi) n = true))).
Proof.
  split.
  - intros H. apply orb_true_iff in H as [H|H]; [apply orb_true_iff in H as [H|H]|].
    + unfold clamp. rewrite (js_min_nan hi n (or_intror H)).
      now apply js_max_nan; right.
    + unfold clamp. now apply js_max_nan; left.
    + unfold clamp. rewrite (js_min_nan hi n (or_introl H)).
      now apply js_max_nan; right.
  - intros H. apply orb_false_iff in H as [H Hhi]. apply orb_false_iff in H as [Hn Hlo].
    destruct (js_min_le hi n Hhi Hn) as (M1 & M2 & M3).
    assert (Hm : is_nan (js_min hi n) = false) by (destruct M3 as [->| ->]; assumption).
    destruct (js_max_ge lo (js_min hi n) Hlo Hm) as (R1 & R2 & R3).
    fold (clamp n lo hi) in R1, R2, R3.
    split; [|split; [exact R1|]].
    + destruct R3 as [->| ->]; [tauto|]. destruct M3 as [->| ->]; tauto.
    + intros Hle. split.
      * destruct R3 as [->| ->]; assumption.
      * intros Hln Hnh. unfold num_eq, SFeqb.
        apply num_le_compare in Hnh.
        assert (Em : SFcompare (js_min hi n) n = Some Eq).
        { apply num_le_compare in M2.
          destruct M3 as [E|E]; [|rewrite E; now apply SFcompare_refl].
          rewrite E in *. destruct Hnh as [Hnh|Hnh];
            apply SFcompare_antisym in Hnh; cbn in Hnh;
            destruct M2 as [M2|M2]; congruence. }
        destruct R3 as [E|E]; [|now rewrite E, Em].
        rewrite E. rewrite E in R2.
        apply num_le_compare in Hln, R2.
        assert (R2' : SFcompare lo n = Some Gt \/ SFcompare lo n = Some Eq).
        { rewrite <- (SFcompare_Eq_right _ _ lo Em).
          destruct R2 as [R2|R2]; apply SFcompare_antisym in R2; cbn in R2; auto. }
        assert (El : SFcompare lo n = Some Eq)
          by (destruct Hln, R2'; congruence).
        now rewrite El.
Qed.
